(** * ReceiptReader: the field-extraction engine of [excel_exporter.py]

    A shallow embedding of [detect_language], [normalize_date],
    [extract_info] and the summary computation of [save_all_to_excel],
    followed by the properties stated about them.

    Conventions of the embedding.
    - Text is [string]: a sequence of 8-bit characters.  Character
      classes ([\d], [\s], [\w], [str.isalpha], [str.upper],
      [str.strip]) are those of Python restricted to the ASCII range;
      a character above 127 is a symbol that is neither a letter, a
      digit nor white space.  The Euro sign is its UTF-8 encoding.
    - Regular expressions are an abstract syntax ([re]) run by a
      backtracking matcher with Python's priorities (leftmost start,
      first alternative first, greedy repetition).
    - [float] values are IEEE binary64 numbers ([spec_float] of the
      standard library, precision 53, maximal exponent 1024).
    - [datetime.now()] is the argument [now] of [extract_info]. *)

From Stdlib Require Import String Ascii List ZArith NArith Bool Arith Lia.
From Stdlib Require Import SpecFloat DecimalString Sorted OrderedTypeEx.
Import ListNotations.

Local Open Scope list_scope.
Local Open Scope string_scope.

(* ================================================================== *)
(** * Characters and strings (Python [str] methods)                    *)
(* ================================================================== *)

Module Text.

Definition code (c : ascii) : nat := nat_of_ascii c.

Definition between (lo hi : nat) (c : ascii) : bool :=
  Nat.leb lo (code c) && Nat.leb (code c) hi.

Definition is_digit (c : ascii) : bool := between 48 57 c.
Definition is_upper (c : ascii) : bool := between 65 90 c.
Definition is_lower (c : ascii) : bool := between 97 122 c.
Definition is_alpha (c : ascii) : bool := is_upper c || is_lower c.

(** [str.isspace] on the ASCII range: TAB, LF, VT, FF, CR, FS, GS, RS,
    US and the space. *)
Definition is_space (c : ascii) : bool :=
  between 9 13 c || between 28 32 c.

(** [\w]: letters, digits and the underscore. *)
Definition is_word (c : ascii) : bool :=
  is_alpha c || is_digit c || Nat.eqb (code c) 95.

Definition is_char (a c : ascii) : bool := Ascii.eqb a c.

Definition to_upper (c : ascii) : ascii :=
  if is_lower c then ascii_of_nat (code c - 32) else c.

(** [s.upper()] *)
Fixpoint upper (s : string) : string :=
  match s with
  | EmptyString => EmptyString
  | String c s' => String (to_upper c) (upper s')
  end.

Fixpoint lstrip (s : string) : string :=
  match s with
  | EmptyString => EmptyString
  | String c s' => if is_space c then lstrip s' else s
  end.

Fixpoint rstrip (s : string) : string :=
  match s with
  | EmptyString => EmptyString
  | String c s' =>
      match rstrip s' with
      | EmptyString => if is_space c then EmptyString else String c EmptyString
      | r => String c r
      end
  end.

(** [s.strip()] *)
Definition strip (s : string) : string := rstrip (lstrip s).

(** [sub in s] *)
Fixpoint contains (sub s : string) : bool :=
  if String.prefix sub s then true
  else match s with
       | EmptyString => false
       | String _ s' => contains sub s'
       end.

(** [any(k in s for k in ks)] *)
Definition any_in (ks : list string) (s : string) : bool :=
  existsb (fun k => contains k s) ks.

(** [any(p(c) for c in s)] *)
Fixpoint any_char (p : ascii -> bool) (s : string) : bool :=
  match s with
  | EmptyString => false
  | String c s' => p c || any_char p s'
  end.

Fixpoint all_char (p : ascii -> bool) (s : string) : bool :=
  match s with
  | EmptyString => true
  | String c s' => p c && all_char p s'
  end.

(** [s.replace(a, r)] for a one-character [a]. *)
Fixpoint replace_char (a : ascii) (r : string) (s : string) : string :=
  match s with
  | EmptyString => EmptyString
  | String c s' =>
      if Ascii.eqb c a then r ++ replace_char a r s'
      else String c (replace_char a r s')
  end.

(** The first [n] characters of [s]. *)
Fixpoint take (n : nat) (s : string) : string :=
  match n, s with
  | S n', String c s' => String c (take n' s')
  | _, _ => EmptyString
  end.

(** The text consumed between a position [s] and a later position [s']
    of the same string. *)
Definition taken (s s' : string) : string :=
  take (String.length s - String.length s') s.

(** [xs[:n]] and [xs[-n:]] on lists of lines. *)
Definition first_n {A} (n : nat) (xs : list A) : list A := firstn n xs.
Definition last_n {A} (n : nat) (xs : list A) : list A :=
  skipn (List.length xs - n) xs.

(** The Euro sign, U+20AC, as UTF-8. *)
Definition euro_sign : string :=
  String (ascii_of_nat 226) (String (ascii_of_nat 130)
    (String (ascii_of_nat 172) EmptyString)).

(** The value of a decimal digit, and [int(s)] for a text of digits. *)
Definition digit_value (c : ascii) : Z := (Z.of_nat (code c) - 48)%Z.

Fixpoint digits_from (acc : Z) (s : string) : Z :=
  match s with
  | EmptyString => acc
  | String c s' => digits_from (10 * acc + digit_value c)%Z s'
  end.

Definition int_of_digits (s : string) : Z := digits_from 0%Z s.

(** [int(s)] for a text of digits that may have white space around it,
    which [int] ignores. *)
Definition int_of_text (s : string) : Z := int_of_digits (strip s).

(** The character of the last decimal digit of [n]. *)
Definition digit_char (n : Z) : ascii :=
  ascii_of_nat (48 + Z.to_nat (n mod 10)).

Definition tab : ascii := ascii_of_nat 9.
Definition newline : ascii := ascii_of_nat 10.

End Text.
Import Text.

(* ================================================================== *)
(** * Regular expressions (module [re])                                *)
(* ================================================================== *)

Module Re.

(** The fragment of the syntax used by the program.  Every repetition
    in its patterns is over a single character class, so [Many p] is
    the greedy [p*]; [x{2}] and [x{2,4}] are written out with [Seq] and
    [Opt]. *)
Inductive re : Type :=
| Eps
| Cls (p : ascii -> bool)
| Seq (r1 r2 : re)
| Alt (r1 r2 : re)
| Many (p : ascii -> bool)
| Grp (n : nat) (r : re)
| Bnd
| NotNext (p : ascii -> bool)
| Eos.

Definition Opt (r : re) : re := Alt r Eps.
Definition Many1 (p : ascii -> bool) : re := Seq (Cls p) (Many p).
Definition Chr (a : ascii) : re := Cls (is_char a).

(** A literal word, optionally case-insensitive. *)
Fixpoint Lit (ci : bool) (w : string) : re :=
  match w with
  | EmptyString => Eps
  | String a w' =>
      Seq (Cls (fun c => if ci then Ascii.eqb (to_upper c) (to_upper a)
                         else Ascii.eqb c a))
          (Lit ci w')
  end.

Fixpoint AltOf (rs : list re) : re :=
  match rs with
  | [] => Cls (fun _ => false)
  | [r] => r
  | r :: rs' => Alt r (AltOf rs')
  end.

Definition caps : Type := list (nat * string).

Fixpoint group (n : nat) (g : caps) : string :=
  match g with
  | [] => EmptyString
  | (k, v) :: g' => if Nat.eqb k n then v else group n g'
  end.

Definition word_at (c : option ascii) : bool :=
  match c with Some a => is_word a | None => false end.

Definition head (s : string) : option ascii :=
  match s with EmptyString => None | String c _ => Some c end.

Section Exec.
Context {A : Type}.

(** [exec r prev s g k]: match [r] at the position whose remaining
    text is [s] and whose preceding character is [prev]; [k] is the
    rest of the pattern.  [None] is failure, and makes the caller try
    its next choice. *)
Fixpoint exec (r : re) (prev : option ascii) (s : string) (g : caps)
    (k : option ascii -> string -> caps -> option A) : option A :=
  match r with
  | Eps => k prev s g
  | Cls p =>
      match s with
      | String c s' => if p c then k (Some c) s' g else None
      | EmptyString => None
      end
  | Seq r1 r2 =>
      exec r1 prev s g (fun prev' s' g' => exec r2 prev' s' g' k)
  | Alt r1 r2 =>
      match exec r1 prev s g k with
      | Some x => Some x
      | None => exec r2 prev s g k
      end
  | Many p =>
      (fix many (prev : option ascii) (s : string) : option A :=
         match s with
         | String c s' =>
             if p c then
               match many (Some c) s' with
               | Some x => Some x
               | None => k prev s g
               end
             else k prev s g
         | EmptyString => k prev s g
         end) prev s
  | Grp n r1 =>
      exec r1 prev s g
        (fun prev' s' g' => k prev' s' ((n, taken s s') :: g'))
  | Bnd =>
      if xorb (word_at prev) (word_at (head s)) then k prev s g else None
  | NotNext p =>
      match s with
      | String c _ => if p c then None else k prev s g
      | EmptyString => k prev s g
      end
  | Eos =>
      match s with
      | EmptyString => k prev s g
      | String c EmptyString =>
          if Ascii.eqb c newline then k prev s g else None
      | _ => None
      end
  end.
End Exec.

(** A match object: [group(0)], the numbered groups, and the text left
    after the match. *)
Record rmatch : Type := {
  m_text : string;
  m_caps : caps;
  m_rest : string
}.

(** [re.match]: a match starting exactly here. *)
Definition match_at (r : re) (prev : option ascii) (s : string)
  : option rmatch :=
  exec r prev s []
    (fun _ s' g => Some {| m_text := taken s s'; m_caps := g; m_rest := s' |}).

(** [re.search]: the leftmost match. *)
Fixpoint search_from (r : re) (prev : option ascii) (s : string)
  : option rmatch :=
  match match_at r prev s with
  | Some m => Some m
  | None =>
      match s with
      | EmptyString => None
      | String c s' => search_from r (Some c) s'
      end
  end.

Definition search (r : re) (s : string) : option rmatch :=
  search_from r None s.

Definition matches (r : re) (s : string) : bool :=
  match search r s with Some _ => true | None => false end.

(** [re.findall] for a pattern with one group: group 1 of the
    successive non-overlapping matches.  [skip] counts the characters
    of the last match still to be stepped over. *)
Fixpoint findall_from (r : re) (prev : option ascii) (skip : nat)
    (s : string) : list string :=
  match skip with
  | S n =>
      match s with
      | EmptyString => []
      | String c s' => findall_from r (Some c) n s'
      end
  | O =>
      match match_at r prev s with
      | Some m =>
          group 1 (m_caps m) ::
          match s with
          | EmptyString => []
          | String c s' =>
              findall_from r (Some c) (String.length (m_text m) - 1) s'
          end
      | None =>
          match s with
          | EmptyString => []
          | String c s' => findall_from r (Some c) 0 s'
          end
      end
  end.

Definition findall (r : re) (s : string) : list string :=
  findall_from r None 0 s.

(** [re.sub(r, repl, s)], the replacement computed from the match.
    The patterns it is used with never match the empty string. *)
Fixpoint sub_from (r : re) (repl : rmatch -> string)
    (prev : option ascii) (skip : nat) (s : string) : string :=
  match skip with
  | S n =>
      match s with
      | EmptyString => EmptyString
      | String c s' => sub_from r repl (Some c) n s'
      end
  | O =>
      match s with
      | EmptyString => EmptyString
      | String c s' =>
          match match_at r prev s with
          | Some m =>
              match String.length (m_text m) with
              | O => String c (sub_from r repl (Some c) 0 s')
              | S n => repl m ++ sub_from r repl (Some c) n s'
              end
          | None => String c (sub_from r repl (Some c) 0 s')
          end
      end
  end.

Definition sub (r : re) (repl : rmatch -> string) (s : string) : string :=
  sub_from r repl None 0 s.

End Re.
Import Re.

(* ================================================================== *)
(** * Binary64 numbers (Python [float])                                *)
(* ================================================================== *)

Module Float.

Local Open Scope Z_scope.

Definition float : Type := spec_float.

Definition prec : Z := 53.
Definition emax : Z := 1024.

(** The binary64 number nearest to [n / d] (ties to even), for
    [0 <= n] and [0 < d]: what [float] makes of a decimal text. *)
Definition of_ratio (n d : Z) : float :=
  match n with
  | Z0 => S754_zero false
  | Zpos _ =>
      let '(q, e, l) := SFdiv_core_binary prec emax n 0 d 0 in
      binary_round_aux prec emax false q e l
  | Zneg _ => S754_nan
  end.

Definition of_Z (n : Z) : float := of_ratio n 1.

Definition add (x y : float) : float := SFadd prec emax x y.
Definition ltb (x y : float) : bool := SFltb x y.
Definition leb (x y : float) : bool := SFleb x y.

(** [x.is_integer()] *)
Definition is_integer (x : float) : bool :=
  match x with
  | S754_zero _ => true
  | S754_finite _ m e =>
      if 0 <=? e then true else Zpos m mod 2 ^ (- e) =? 0
  | _ => false
  end.

(** The text before the first [a], and the text after it if [a] occurs. *)
Fixpoint split_at (a : ascii) (s : string) : string * option string :=
  match s with
  | EmptyString => (EmptyString, None)
  | String c s' =>
      if Ascii.eqb c a then (EmptyString, Some s')
      else let '(l, r) := split_at a s' in (String c l, r)
  end.

Definition nonempty_digits (s : string) : bool :=
  match s with EmptyString => false | _ => all_char is_digit s end.

(** [float(s)] on an unsigned decimal text [ddd] or [ddd.ddd]; [None]
    is [ValueError].  The amount patterns only capture such texts. *)
Definition float_of_string (s : string) : option float :=
  match split_at "."%char s with
  | (i, None) =>
      if nonempty_digits i then Some (of_Z (int_of_digits i)) else None
  | (i, Some f) =>
      if nonempty_digits i && nonempty_digits f
      then Some (of_ratio (int_of_digits (i ++ f))
                          (10 ^ Z.of_nat (String.length f)))
      else None
  end.

(** [max(x :: xs)]: the first element that no later one exceeds. *)
Definition py_max (x : float) (xs : list float) : float :=
  fold_left (fun m y => if ltb m y then y else m) xs x.

Definition max_opt (xs : list float) : option float :=
  match xs with
  | [] => None
  | x :: xs' => Some (py_max x xs')
  end.

(** The integer nearest to [a / b], ties to even ([0 <= a], [0 < b]). *)
Definition div_half_even (a b : Z) : Z :=
  let q := a / b in
  match 2 * (a mod b) ?= b with
  | Lt => q
  | Gt => q + 1
  | Eq => if Z.even q then q else q + 1
  end.

(** The magnitude [m * 2^e] in hundredths, rounded to nearest. *)
Definition hundredths (m : positive) (e : Z) : Z :=
  if 0 <=? e then Zpos m * 2 ^ e * 100
  else div_half_even (Zpos m * 100) (2 ^ (- e)).

Definition string_of_nonneg (n : Z) : string :=
  NilZero.string_of_uint (N.to_uint (Z.to_N n)).

Definition two_digits (n : Z) : string :=
  String (digit_char (n / 10)) (String (digit_char n) EmptyString).

(** A count of hundredths written with two fraction digits. *)
Definition string_of_hundredths (c : Z) : string :=
  string_of_nonneg (c / 100) ++ "." ++ two_digits (c mod 100).

Definition sign_text (s : bool) : string := if s then "-" else "".

(** The format [{x:.2f}] *)
Definition format_2f (x : float) : string :=
  match x with
  | S754_nan => "nan"
  | S754_infinity s => sign_text s ++ "inf"
  | S754_zero s => sign_text s ++ "0.00"
  | S754_finite s m e => sign_text s ++ string_of_hundredths (hundredths m e)
  end.

End Float.
Import Float.

(* ================================================================== *)
(** * Dates ([datetime], [strptime], [strftime])                       *)
(* ================================================================== *)

Module Date.

Local Open Scope Z_scope.

Record datetime : Type := { year : Z; month : Z; day : Z }.

Definition is_leap (y : Z) : bool :=
  (y mod 4 =? 0) && (negb (y mod 100 =? 0) || (y mod 400 =? 0)).

Definition days_in_month (y m : Z) : Z :=
  match m with
  | 2 => if is_leap y then 29 else 28
  | 4 | 6 | 9 | 11 => 30
  | _ => 31
  end.

(** The checks of the [datetime] constructor. *)
Definition valid (d : datetime) : bool :=
  (1 <=? year d) && (year d <=? 9999) &&
  (1 <=? month d) && (month d <=? 12) &&
  (1 <=? day d) && (day d <=? days_in_month (year d) (month d)).

Definition pad2 (n : Z) : string :=
  String (digit_char (n / 10)) (String (digit_char n) EmptyString).

Definition pad4 (n : Z) : string :=
  String (digit_char (n / 1000)) (String (digit_char (n / 100)) (pad2 n)).

(** [%Y] as [strftime] of the C library (glibc) writes it: the year in
    decimal without leading zeros, so four digits from the year 1000
    on and fewer below. *)
Definition year_text (y : Z) : string := string_of_nonneg y.

(** [d.strftime(dd/mm/YYYY)]: day and month on two digits, the year as
    [%Y] writes it. *)
Definition strftime_dmY (d : datetime) : string :=
  pad2 (day d) ++ "/" ++ pad2 (month d) ++ "/" ++ year_text (year d).

Definition D : re := Cls is_digit.
Definition In_range (lo hi : string) : re :=
  Cls (fun c => match lo, hi with
                | String a _, String b _ => between (code a) (code b) c
                | _, _ => false
                end).

Definition a_month : list string :=
  ["jan"; "feb"; "mar"; "apr"; "may"; "jun";
   "jul"; "aug"; "sep"; "oct"; "nov"; "dec"].

Definition f_month : list string :=
  ["january"; "february"; "march"; "april"; "may"; "june"; "july";
   "august"; "september"; "october"; "november"; "december"].

(** The alternatives of the full names in the order [_strptime] puts
    them, longest first. *)
Definition f_month_by_length : list string :=
  ["september"; "february"; "november"; "december"; "january"; "october";
   "august"; "march"; "april"; "june"; "july"; "may"].

(** The group numbers standing for the named groups of [_strptime]. *)
Definition g_d : nat := 1.
Definition g_m : nat := 2.
Definition g_Y : nat := 3.
Definition g_y : nat := 4.
Definition g_b : nat := 5.
Definition g_B : nat := 6.

(** The regular expression of each directive, as in [_strptime.TimeRE]:
    d is [3[0-1]|[1-2]\d|0[1-9]|[1-9]| [1-9]], m is
    [1[0-2]|0[1-9]|[1-9]], Y is [\d\d\d\d], y is [\d\d], b and B are the
    month names; the whole pattern ignores case. *)
Definition re_d : re :=
  Grp g_d (AltOf [Seq (Chr "3") (In_range "0" "1");
                  Seq (In_range "1" "2") D;
                  Seq (Chr "0") (In_range "1" "9");
                  In_range "1" "9";
                  Seq (Chr " ") (In_range "1" "9")]).

Definition re_m : re :=
  Grp g_m (AltOf [Seq (Chr "1") (In_range "0" "2");
                  Seq (Chr "0") (In_range "1" "9");
                  In_range "1" "9"]).

Definition re_Y : re := Grp g_Y (Seq D (Seq D (Seq D D))).
Definition re_y : re := Grp g_y (Seq D D).
Definition re_b : re := Grp g_b (AltOf (map (Lit true) a_month)).
Definition re_B : re := Grp g_B (AltOf (map (Lit true) f_month_by_length)).

Definition directive (c : ascii) : option re :=
  if Ascii.eqb c "d" then Some re_d
  else if Ascii.eqb c "m" then Some re_m
  else if Ascii.eqb c "Y" then Some re_Y
  else if Ascii.eqb c "y" then Some re_y
  else if Ascii.eqb c "b" then Some re_b
  else if Ascii.eqb c "B" then Some re_B
  else None.

(** The pattern of a format: a directive after each percent sign, [\s+]
    for a run of white space, any other character for itself. *)
Fixpoint format_regex (fmt : string) : option re :=
  match fmt with
  | EmptyString => Some Eps
  | String c rest =>
      if Ascii.eqb c "%" then
        match rest with
        | String x rest' =>
            match directive x, format_regex rest' with
            | Some r, Some r' => Some (Seq r r')
            | _, _ => None
            end
        | EmptyString => None
        end
      else
        match format_regex rest with
        | Some r' =>
            if is_space c then
              match rest with
              | String c' _ => if is_space c' then Some r'
                               else Some (Seq (Many1 is_space) r')
              | EmptyString => Some (Seq (Many1 is_space) r')
              end
            else Some (Seq (Lit true (String c EmptyString)) r')
        | None => None
        end
  end.

(** The position, from 1, of a name in a list of month names, the case
    ignored. *)
Fixpoint index_of (w : string) (names : list string) (i : Z) : option Z :=
  match names with
  | [] => None
  | n :: names' =>
      if String.eqb (upper n) (upper w) then Some i
      else index_of w names' (i + 1)
  end.

Definition has_group (n : nat) (g : caps) : bool :=
  existsb (fun kv => Nat.eqb (fst kv) n) g.

(** The fields read off the groups, each numeric group through [int];
    1900, 1 and 1 when a field has no directive; a two-digit year is
    20xx up to 68 and 19xx above. *)
Definition fields_of (g : caps) : option datetime :=
  let y :=
    if has_group g_Y g then int_of_text (group g_Y g)
    else if has_group g_y g then
      let v := int_of_text (group g_y g) in
      if v <=? 68 then 2000 + v else 1900 + v
    else 1900 in
  let m :=
    if has_group g_m g then Some (int_of_text (group g_m g))
    else if has_group g_B g then index_of (group g_B g) f_month 1
    else if has_group g_b g then index_of (group g_b g) a_month 1
    else Some 1 in
  let d := if has_group g_d g then int_of_text (group g_d g) else 1 in
  match m with
  | Some m => Some {| year := y; month := m; day := d |}
  | None => None
  end.

(** [datetime.strptime(s, fmt)]; [None] is [ValueError]: the pattern
    does not match at the start, text is left over after the match, or
    the fields are not a date. *)
Definition strptime (s fmt : string) : option datetime :=
  match format_regex fmt with
  | None => None
  | Some r =>
      match match_at r None s with
      | None => None
      | Some m =>
          match m_rest m with
          | EmptyString =>
              match fields_of (m_caps m) with
              | Some d => if valid d then Some d else None
              | None => None
              end
          | _ => None
          end
      end
  end.

End Date.
Import Date.

(* ================================================================== *)
(** * [excel_exporter.py]                                              *)
(* ================================================================== *)

Inductive lang : Type := IT | EN.

Definition lang_eqb (a b : lang) : bool :=
  match a, b with IT, IT | EN, EN => true | _, _ => false end.

(** A regular expression with the text it is written as in the source. *)
Record pattern : Type := { p_src : string; p_re : re }.

Definition search_p (p : pattern) (s : string) : option rmatch :=
  search (p_re p) s.

(** ** [detect_language] *)

Definition it_keywords : list string :=
  ["TOTALE"; "SCONTRINO"; "P.IVA"; "EURO"; "IMPORTO"; "CASSA"; "SERVIZIO";
   "COPERTO"; "VIA "; "PIAZZA "].

Definition en_keywords : list string :=
  ["TOTAL"; "RECEIPT"; "TAX"; "TIPS"; "GRATUITY"; "CHANGE"; "CASH";
   "SUBTOTAL"; "AVE"; "BLVD"; "STREET"].

(** The number of keywords of [kws] found in [s]. *)
Definition hits (kws : list string) (s : string) : nat :=
  List.length (filter (fun kw => contains kw s) kws).

Definition detect_language (text_lines : list string) : lang :=
  let '(it_score, en_score) :=
    fold_left
      (fun '(it_score, en_score) line =>
         let upper := upper (strip line) in
         (it_score + hits it_keywords upper, en_score + hits en_keywords upper)%nat)
      text_lines (0, 0)%nat in
  if Nat.ltb it_score en_score then EN else IT.

(** ** [normalize_date] *)

Definition apostrophe : ascii := "'"%char.

(** ['(\d{2})\b] *)
Definition re_apostrophe_year : re :=
  Seq (Chr apostrophe) (Seq (Grp 1 (Seq D D)) Bnd).

(** [[^\w\s]] *)
Definition re_punctuation : re :=
  Cls (fun c => negb (is_word c || is_space c)).

(** [\s+] *)
Definition re_spaces : re := Many1 is_space.

(** [([a-zA-Z]{3})\s*(\d{1,2})\s*(\d{2,4})] *)
Definition re_loose_month : re :=
  Seq (Grp 1 (Seq (Cls is_alpha) (Seq (Cls is_alpha) (Cls is_alpha))))
 (Seq (Many is_space)
 (Seq (Grp 2 (Seq D (Opt D)))
 (Seq (Many is_space)
      (Grp 3 (Seq D (Seq D (Opt (Seq D (Opt D))))))))).

Definition formats : list string :=
  ["%d %m %Y"; "%d %m %y";
   "%m %d %Y"; "%m %d %y";
   "%b %d %Y"; "%b %d %y";
   "%B %d %Y"; "%B %d %y";
   "%b%d %Y"; "%b%d%Y"].

(** The repair of the token before parsing. *)
Definition clean_date (date_str : string) : string :=
  let clean_str := sub re_apostrophe_year
                       (fun m => "20" ++ group 1 (m_caps m)) date_str in
  let clean_str := replace_char apostrophe "20" clean_str in
  let clean_str := sub re_punctuation (fun _ => " ") clean_str in
  strip (sub re_spaces (fun _ => " ") clean_str).

(** The first format that parses. *)
Fixpoint first_parse (clean_str : string) (fmts : list string)
  : option datetime :=
  match fmts with
  | [] => None
  | fmt :: fmts' =>
      match strptime clean_str fmt with
      | Some d => Some d
      | None => first_parse clean_str fmts'
      end
  end.

(** The fallback on a loose month-day-year pattern. *)
Definition loose_parse (clean_str : string) : option datetime :=
  match search re_loose_month clean_str with
  | Some mt =>
      let m := group 1 (m_caps mt) in
      let d := group 2 (m_caps mt) in
      let y := group 3 (m_caps mt) in
      let y := if Nat.eqb (String.length y) 2 then "20" ++ y else y in
      strptime (m ++ " " ++ d ++ " " ++ y) "%b %d %Y"
  | None => None
  end.

Definition normalize_date (date_str : string) (lg : lang) : string :=
  if String.eqb date_str "" || String.eqb date_str "null" then date_str
  else
    let clean_str := clean_date date_str in
    match first_parse clean_str formats with
    | Some parsed_date => strftime_dmY parsed_date
    | None =>
        match loose_parse clean_str with
        | Some date_obj => strftime_dmY date_obj
        | None => date_str
        end
    end.

(** ** [extract_info] *)

(** The dictionary [data]. *)
Record receipt : Type := {
  filename : string;
  vendor : string;
  location : string;
  date : string;
  total : string;
  currency : string
}.

(** A [for] loop left by [break] at the first element for which the
    body produces a result. *)
Fixpoint first_some {A B : Type} (f : A -> option B) (xs : list A) : option B :=
  match xs with
  | [] => None
  | x :: xs' =>
      match f x with
      | Some y => Some y
      | None => first_some f xs'
      end
  end.

(** [enumerate(xs)] *)
Definition enumerate {A : Type} (xs : list A) : list (nat * A) :=
  combine (seq 0 (List.length xs)) xs.

(** *** 1. Vendor *)

Definition suffixes (lg : lang) : list string :=
  match lg with
  | IT => ["S.P.A"; "S.R.L"; "SRL"; "SPA"; "S.N.C"; "SNC"]
  | EN => ["INC"; "LTD"; "LLC"; "CORP"; "INC."; "LLC."]
  end.

Definition skip_keywords (lg : lang) : list string :=
  match lg with
  | IT => ["DOCUMENTO"; "COMMERCIALE"; "SCONTRINO"; "CLIENTE"; "COPIA"; "RT";
           "CASSA"; "PAGAMENTO"]
  | EN => ["RECEIPT"; "GUEST"; "CHECK"; "TABLE"; "SERVER"; "ORDER"; "WELCOME";
           "COPY"; "MERCHANT"]
  end.

(** The body of the loop over the first 8 lines.  [len], [strip] and
    [upper] are read on ASCII text, where a character is one byte. *)
Definition suffix_line (lg : lang) (line : string) : option string :=
  let clean_line := strip line in
  if Nat.ltb (String.length clean_line) 3 then None
  else if any_in (suffixes lg) (upper clean_line) then Some clean_line
  else None.

(** The body of the fallback loop over all the lines, on ASCII text
    as well: [isalpha] is the test of the letters A to Z and a to z. *)
Definition plain_line (lg : lang) (line : string) : option string :=
  let clean_line := strip line in
  let upper := upper clean_line in
  if Nat.ltb (String.length clean_line) 3 || negb (any_char is_alpha clean_line)
  then None
  else if any_in (skip_keywords lg) upper then None
  else Some clean_line.

Definition extract_vendor (lg : lang) (text_lines : list string) : string :=
  match first_some (suffix_line lg) (first_n 8 text_lines) with
  | Some v => v
  | None =>
      match first_some (plain_line lg) text_lines with
      | Some v => v
      | None => "null"
      end
  end.

(** *** 2. Date *)

Definition date_sep : re :=
  Cls (fun c => Ascii.eqb c "/" || Ascii.eqb c "-").

Definition ws : re := Many is_space.

(** [\d{1,2}] and [\d{2,4}] *)
Definition D12 : re := Seq D (Opt D).
Definition D24 : re := Seq D (Seq D (Opt (Seq D (Opt D)))).

(** The bodies [a \s* [/-] \s* b \s* [/-] \s* c] of the numeric patterns. *)
Definition dmy (a b c : re) : re :=
  Seq a (Seq ws (Seq date_sep (Seq ws
    (Seq b (Seq ws (Seq date_sep (Seq ws c))))))).

Definition month_words : list string :=
  ["Jan"; "Feb"; "Mar"; "Apr"; "May"; "Jun";
   "Jul"; "Aug"; "Sep"; "Oct"; "Nov"; "Dec"].

Definition date_patterns (lg : lang) : list pattern :=
  match lg with
  | IT =>
      [ {| p_src := "\b(\d{2}\s*[/-]\s*\d{2}\s*[/-]\s*\d{2,4})\b";
           p_re := Seq Bnd (Seq (Grp 1 (dmy (Seq D D) (Seq D D) D24)) Bnd) |} ]
  | EN =>
      [ {| p_src := "\b(\d{1,2}\s*[/-]\s*\d{1,2}\s*[/-]\s*\d{4})";
           p_re := Seq Bnd (Grp 1 (dmy D12 D12 (Seq D (Seq D (Seq D D))))) |};
        {| p_src := "\b(\d{1,2}\s*[/-]\s*\d{1,2}\s*[/-]\s*\d{2})\b";
           p_re := Seq Bnd (Seq (Grp 1 (dmy D12 D12 (Seq D D))) Bnd) |};
        {| p_src := "(?i)(Jan|Feb|Mar|Apr|May|Jun|Jul|Aug|Sep|Oct|Nov|Dec)\s*(\d{1,2})[\s\.\,\']*(\d{2,4})";
           p_re :=
             Seq (Grp 1 (AltOf (map (Lit true) month_words)))
            (Seq ws
            (Seq (Grp 2 D12)
            (Seq (Many (fun c => is_space c || Ascii.eqb c "." ||
                                 Ascii.eqb c "," || Ascii.eqb c apostrophe))
                 (Grp 3 D24)))) |} ]
  end.

(** The token taken from a match of [pat]. *)
Definition raw_of_match (lg : lang) (pat : pattern) (m : rmatch) : string :=
  if lang_eqb lg EN && contains "Jan" (p_src pat) then m_text m
  else replace_char " " "" (group 1 (m_caps m)).

(** The two nested loops: the first line, and in it the first pattern,
    that matches. *)
Definition find_raw_date (lg : lang) (text_lines : list string) : option string :=
  first_some
    (fun line =>
       first_some
         (fun pat => option_map (raw_of_match lg pat) (search_p pat line))
         (date_patterns lg))
    text_lines.

Definition extract_date (now : datetime) (lg : lang) (text_lines : list string)
  : string :=
  match find_raw_date lg text_lines with
  | Some (String c r) => normalize_date (String c r) lg
  | _ => "(" ++ strftime_dmY now ++ ")"
  end.

(** *** 3. Total and currency *)

Definition detect_currency (lg : lang) (text_lines : list string) : string :=
  let currency :=
    first_some
      (fun line =>
         if contains euro_sign line || contains "EUR" (upper line)
         then Some "EUR"
         else if contains "$" line || contains "USD" (upper line)
         then Some "USD"
         else None)
      text_lines in
  match currency with
  | Some c => c
  | None => match lg with IT => "EUR" | EN => "USD" end
  end.

Definition total_keywords (lg : lang) : list string :=
  match lg with
  | IT => ["TOTALE"; "IMPORTO"; "PAGAMENTO"; "CREDIT"; "AMMOUNT"]
  | EN => ["TOTAL"; "BALANCE"; "AMOUNT"; "DUE"; "VISA"; "CHARGE"; "BILL"; "TOTA"]
  end.

Definition cash_keywords (lg : lang) : list string :=
  match lg with
  | IT => ["CONTANTI"; "CONTANTE"; "CASH"; "VERSAMENTO"]
  | EN => ["CASH"; "TENDER"; "PAID"]
  end.

Definition ignore_keywords (lg : lang) : list string :=
  match lg with
  | IT => ["SUBTOTALE"; "IMPONIBILE"; "RESTO"]
  | EN => ["SUBTOTAL"; "SUB TOTAL"; "TAX"; "CHANGE"; "TIP"; "GRATUITY"]
  end.

Definition double_quote : ascii := ascii_of_nat 34.

(** The class of the look-ahead: a double quote, a digit, a dot, a
    comma or a slash. *)
Definition after_amount (c : ascii) : bool :=
  Ascii.eqb c double_quote || is_digit c || Ascii.eqb c "." ||
  Ascii.eqb c "," || Ascii.eqb c "/".

(** IT: [(\d+[\.,]\d{2})] not followed by [after_amount];
    EN: [[\$]?\s*(\d+\.\d{2})] not followed by [after_amount]. *)
Definition num_regex (lg : lang) : re :=
  match lg with
  | IT =>
      Seq (Grp 1 (Seq (Many1 is_digit)
                 (Seq (Cls (fun c => Ascii.eqb c "." || Ascii.eqb c ","))
                      (Seq D D))))
          (NotNext after_amount)
  | EN =>
      Seq (Opt (Chr "$"))
     (Seq ws
     (Seq (Grp 1 (Seq (Many1 is_digit) (Seq (Chr ".") (Seq D D))))
          (NotNext after_amount)))
  end.

Definition looks_like_year (val : float) : bool :=
  ltb (of_Z 1900) val && ltb val (of_Z 2100) && is_integer val.

Definition get_floats (lg : lang) (txt : string) : list float :=
  if contains "%" txt then []
  else
    fold_left
      (fun res m =>
         match float_of_string (replace_char "," "." m) with
         | Some val => if looks_like_year val then res else (res ++ [val])%list
         | None => res
         end)
      (findall (num_regex lg) txt) [].

(** [get_floats(text_lines[i])] when [i < len(text_lines)]. *)
Definition floats_at (lg : lang) (text_lines : list string) (i : nat)
  : list float :=
  match nth_error text_lines i with
  | Some line => get_floats lg line
  | None => []
  end.

(** Strategy A: the pools [(cash_candidates, explicit_totals)] after the
    loop over all the lines. *)
Definition strategy_A (lg : lang) (text_lines : list string)
  : list float * list float :=
  fold_left
    (fun '(cash_candidates, explicit_totals) '(i, line) =>
       let upper := upper (strip line) in
       let vals := get_floats lg line in
       if any_in (cash_keywords lg) upper then
         ((cash_candidates ++ vals ++ floats_at lg text_lines (i + 1))%list,
          explicit_totals)
       else if any_in (ignore_keywords lg) upper then
         (cash_candidates, explicit_totals)
       else if any_in (total_keywords lg) upper then
         (cash_candidates,
          (explicit_totals ++
           flat_map (fun offset => floats_at lg text_lines (i + offset))
                    (seq 0 5))%list)
       else (cash_candidates, explicit_totals))
    (enumerate text_lines) ([], []).

(** Strategy B: the loop over the last 15 lines, continuing with the
    cash pool of strategy A; the pools [(cash_candidates, blind_totals)]. *)
Definition strategy_B (lg : lang) (text_lines : list string)
    (cash_candidates : list float) : list float * list float :=
  fold_left
    (fun '(cash_candidates, blind_totals) line =>
       let upper := upper (strip line) in
       let vals := get_floats lg line in
       match vals with
       | [] => (cash_candidates, blind_totals)
       | _ =>
           if any_in (cash_keywords lg) upper then
             ((cash_candidates ++ vals)%list, blind_totals)
           else if any_in (ignore_keywords lg) upper then
             (cash_candidates, blind_totals)
           else (cash_candidates, (blind_totals ++ vals)%list)
       end)
    (last_n 15 text_lines) (cash_candidates, []).

(** The three pools at the end of both strategies. *)
Record pools : Type := {
  explicit_totals : list float;
  blind_totals : list float;
  cash_candidates : list float
}.

Definition gather (lg : lang) (text_lines : list string) : pools :=
  let '(cash, explicit) := strategy_A lg text_lines in
  let '(cash, blind) := strategy_B lg text_lines cash in
  {| explicit_totals := explicit; blind_totals := blind;
     cash_candidates := cash |}.

(** The literal [0.01]. *)
Definition one_cent : float := of_ratio 1 100.

(** The choice of [final_total_val]. *)
Definition final_total_val (p : pools) : option float :=
  let max_cash := max_opt (cash_candidates p) in
  match explicit_totals p with
  | _ :: _ => max_opt (explicit_totals p)
  | [] =>
      match blind_totals p with
      | _ :: _ =>
          match max_cash with
          | Some max_cash =>
              let valid_blind_candidates :=
                filter (fun t => leb t (add max_cash one_cent)) (blind_totals p) in
              match valid_blind_candidates with
              | _ :: _ => max_opt valid_blind_candidates
              | [] =>
                  match blind_totals p with
                  | _ :: _ => max_opt (blind_totals p)
                  | [] => Some max_cash
                  end
              end
          | None => max_opt (blind_totals p)
          end
      | [] => max_cash
      end
  end.

(** The field written from [final_total_val]. *)
Definition total_field (v : option float) : string :=
  match v with
  | Some x => if ltb (of_Z 0) x then format_2f x else "null"
  | None => "null"
  end.

Definition extract_total (lg : lang) (text_lines : list string) : string :=
  total_field (final_total_val (gather lg text_lines)).

(** *** 4. Location *)

Definition addr_keywords (lg : lang) : list string :=
  match lg with
  | IT => ["VIA "; "VIALE "; "PIAZZA "; "CORSO "; "C.SO "; "VICOLO "; "LARGO ";
           "STRADA "; "P.ZZA "; "V. "]
  | EN => [" AVE"; " ST"; " BLVD"; " BL VD"; " RD"; " DRIVE"; " LANE";
           " HIGHWAY"; " PKWY"; " WAY"]
  end.

Definition U : re := Cls is_upper.
Definition D5 : re := Seq D (Seq D (Seq D (Seq D D))).

(** IT: [\b\d{5}\b]; EN: the same with an optional, non-capturing
    [[A-Z]{2}] and white space before the five digits. *)
Definition cap_pattern (lg : lang) : re :=
  match lg with
  | IT => Seq Bnd (Seq D5 Bnd)
  | EN => Seq Bnd (Seq (Opt (Seq U (Seq U ws))) (Seq D5 Bnd))
  end.

(** IT: [\s\(?([A-Z]{2})\)?$]; EN: [\b[A-Z]{2}\s+\d{5}] *)
Definition prov_pattern (lg : lang) : re :=
  match lg with
  | IT => Seq (Cls is_space)
         (Seq (Opt (Chr "("))
         (Seq (Grp 1 (Seq U U))
         (Seq (Opt (Chr ")")) Eos)))
  | EN => Seq Bnd (Seq U (Seq U (Seq (Many1 is_space) D5)))
  end.

Definition bad_words : list string :=
  ["TEL"; "FAX"; "TAX"; "VAT"; "ORDER"; "TABLE"; "GUEST"; "ID"; "OP:";
   "CASSA:"; "IBAN"; "N.CARTA"; "CARD"; "ACCT"].

(** An entry of [scored_lines]. *)
Record scored : Type := { index : nat; text : string; score : Z }.

(** An entry of [final_candidates]. *)
Record candidate : Type := { c_text : string; c_score : Z }.

Definition is_date_line (lg : lang) (line : string) : bool :=
  existsb (fun pat => matches (p_re pat) line) (date_patterns lg).

Definition line_score (lg : lang) (line : string) : Z :=
  let clean := strip line in
  let upper := upper clean in
  let score := 0%Z in
  let score := if any_in (addr_keywords lg) upper then (score + 5)%Z else score in
  let score := if matches (cap_pattern lg) clean then (score + 6)%Z else score in
  let score := if matches (prov_pattern lg) clean then (score + 4)%Z else score in
  if any_in bad_words upper then (score - 20)%Z else score.

Definition scored_lines (lg : lang) (text_lines : list string) : list scored :=
  fold_left
    (fun scored_lines '(i, line) =>
       if is_date_line lg line then scored_lines
       else
         let score := line_score lg line in
         if (0 <? score)%Z
         then (scored_lines ++
               [{| index := i; text := strip line; score := score |}])%list
         else scored_lines)
    (enumerate text_lines) [].

(** [xs.sort(key=index)]: a stable insertion sort. *)
Fixpoint insert_by_index (x : scored) (xs : list scored) : list scored :=
  match xs with
  | [] => [x]
  | y :: ys =>
      if Nat.ltb (index x) (index y) then x :: y :: ys
      else y :: insert_by_index x ys
  end.

Definition sort_by_index (xs : list scored) : list scored :=
  fold_right insert_by_index [] xs.

Definition standalone (c : scored) : candidate :=
  {| c_text := text c; c_score := score c |}.

Definition merged (curr next_l : scored) : candidate :=
  {| c_text := text curr ++ " " ++ text next_l;
     c_score := (score curr + score next_l + 5)%Z |}.

(** The [while i < len(scored_lines)] loop; [fuel] bounds the number of
    iterations. *)
Fixpoint merge_loop (fuel : nat) (scored_lines : list scored) (i : nat)
    (final_candidates : list candidate) : list candidate :=
  match fuel with
  | O => final_candidates
  | S fuel' =>
      match nth_error scored_lines i with
      | None => final_candidates
      | Some curr =>
          match nth_error scored_lines (i + 1) with
          | Some next_l =>
              if Nat.eqb (index next_l) (index curr + 1)
              then merge_loop fuel' scored_lines (i + 2)
                     (final_candidates ++ [merged curr next_l])%list
              else merge_loop fuel' scored_lines (i + 1)
                     (final_candidates ++ [standalone curr])%list
          | None =>
              merge_loop fuel' scored_lines (i + 1)
                (final_candidates ++ [standalone curr])%list
          end
      end
  end.

Definition final_candidates (scored_lines : list scored) : list candidate :=
  match scored_lines with
  | [] => []
  | _ =>
      let scored_lines := sort_by_index scored_lines in
      merge_loop (List.length scored_lines) scored_lines 0 []
  end.

(** [max(c :: cs, key=score)]: the first entry no later one exceeds. *)
Definition max_by_score (c : candidate) (cs : list candidate) : candidate :=
  fold_left (fun best x => if (c_score best <? c_score x)%Z then x else best)
            cs c.

Definition extract_location (lg : lang) (text_lines : list string) : string :=
  match final_candidates (scored_lines lg text_lines) with
  | [] => "null"
  | c :: cs => c_text (max_by_score c cs)
  end.

(** *** The whole function *)

Definition extract_info (now : datetime) (text_lines : list string)
    (filename : string) : receipt :=
  match text_lines with
  | [] =>
      {| filename := filename; vendor := "null"; location := "null";
         date := "null"; total := "null"; currency := "null" |}
  | _ =>
      let lg := detect_language text_lines in
      {| filename := filename;
         vendor := extract_vendor lg text_lines;
         location := extract_location lg text_lines;
         date := extract_date now lg text_lines;
         total := extract_total lg text_lines;
         currency := detect_currency lg text_lines |}
  end.

(** ** [save_all_to_excel]

    The rows of the data frame that is written.  The calls to pandas
    are modelled on the totals that [extract_info] writes ([null],
    [inf], or digits with two decimals): such a total is read as an
    exact count of hundredths, or as infinite, and the sum of a group is
    the exact sum.  Pandas reads other texts as numbers too ([7],
    [10.5], [-2.00]) and adds in binary64; the statements about sums are
    therefore made for totals of the shape above, of moderate size,
    where the binary64 sum is written with the same two decimals as the
    exact one. *)

Inductive amount : Type :=
| Fin (hundredths : Z)
| Inf.

Definition amount_add (a b : amount) : amount :=
  match a, b with
  | Fin x, Fin y => Fin (x + y)
  | _, _ => Inf
  end.

(** [pd.to_numeric(x, errors=coerce)] on a total that [extract_info]
    writes: [None] is NaN. *)
Definition to_numeric (s : string) : option amount :=
  if String.eqb s "inf" then Some Inf
  else
    match split_at "." s with
    | (i, Some f) =>
        if nonempty_digits i && all_char is_digit f &&
           Nat.eqb (String.length f) 2
        then Some (Fin (int_of_digits (i ++ f)))
        else None
    | (_, None) => None
    end.

(** [.fillna(0)] *)
Definition fillna (a : option amount) : amount :=
  match a with Some x => x | None => Fin 0 end.

Definition total_numeric (r : receipt) : amount := fillna (to_numeric (total r)).

(** [df.groupby(currency)[total_numeric].sum()]: the running sum of each
    key, the keys kept in increasing order. *)
Fixpoint add_to_group (k : string) (v : amount) (groups : list (string * amount))
  : list (string * amount) :=
  match groups with
  | [] => [(k, v)]
  | (k', s) :: rest =>
      match String.compare k k' with
      | Lt => (k, v) :: (k', s) :: rest
      | Eq => (k', amount_add s v) :: rest
      | Gt => (k', s) :: add_to_group k v rest
      end
  end.

Definition currency_sums (data_list : list receipt) : list (string * amount) :=
  fold_left (fun groups r => add_to_group (currency r) (total_numeric r) groups)
            data_list [].

(** The format [{total_val:.2f}] *)
Definition format_amount (a : amount) : string :=
  match a with
  | Fin c =>
      if (c <? 0)%Z then "-" ++ string_of_hundredths (- c)
      else string_of_hundredths c
  | Inf => "inf"
  end.

Definition empty_row : receipt :=
  {| filename := ""; vendor := ""; location := ""; date := "";
     total := ""; currency := "" |}.

Definition summary_row (curr : string) (total_val : amount) : receipt :=
  {| filename := "";
     vendor := "TOTALE " ++ curr;
     location := "";
     date := "";
     total := format_amount total_val;
     currency := curr |}.

Definition summary_rows (data_list : list receipt) : list receipt :=
  flat_map
    (fun '(curr, total_val) =>
       if String.eqb curr "null" then [] else [summary_row curr total_val])
    (currency_sums data_list).

(** The rows written; [None] when the function returns without
    writing. *)
Definition save_all_to_excel (data_list : list receipt) : option (list receipt) :=
  match data_list with
  | [] => None
  | _ => Some (data_list ++ [empty_row] ++ summary_rows data_list)%list
  end.

(* ================================================================== *)
(** * Properties                                                       *)
(* ================================================================== *)

(** ** Loops left at the first hit *)

Section FirstSome.
Context {A B : Type} (f : A -> option B).

Lemma first_some_first (xs : list A) (i : nat) (x : A) (y : B) :
  nth_error xs i = Some x ->
  f x = Some y ->
  (forall j x', j < i -> nth_error xs j = Some x' -> f x' = None) ->
  first_some f xs = Some y.
Proof.
  revert i. induction xs as [|a xs IH]; intros i Hi Hf Hbefore.
  - destruct i; discriminate.
  - destruct i as [|i]; simpl in *.
    + injection Hi as ->. now rewrite Hf.
    + rewrite (Hbefore 0 a) by (simpl; auto with arith).
      apply (IH i); auto.
      intros j x' Hj Hx'. apply (Hbefore (S j) x'); auto with arith.
Qed.

Lemma first_some_None (xs : list A) :
  first_some f xs = None <-> (forall x, In x xs -> f x = None).
Proof.
  induction xs as [|a xs IH]; simpl.
  - split; [intros _ x [] | reflexivity].
  - destruct (f a) eqn:Fa.
    + split; [discriminate|]. intros H. rewrite (H a) in Fa by auto.
      discriminate.
    + rewrite IH. split.
      * intros H x [<-|Hx]; auto.
      * intros H x Hx. apply H. auto.
Qed.

Lemma first_some_Some (xs : list A) (y : B) :
  first_some f xs = Some y ->
  exists i x, nth_error xs i = Some x /\ f x = Some y /\
    forall j x', j < i -> nth_error xs j = Some x' -> f x' = None.
Proof.
  induction xs as [|a xs IH]; simpl; [discriminate|].
  destruct (f a) eqn:Fa.
  - intros [= ->]. exists 0, a. repeat split; auto.
    intros j x' Hj. inversion Hj.
  - intros H. destruct (IH H) as (i & x & Hi & Hf & Hb).
    exists (S i), x. repeat split; auto.
    intros [|j] x' Hj Hx'; simpl in Hx'.
    + now injection Hx' as <-.
    + apply (Hb j); auto with arith.
Qed.
End FirstSome.

Definition null_record (filename : string) : receipt :=
  {| filename := filename; vendor := "null"; location := "null";
     date := "null"; total := "null"; currency := "null" |}.

(** ** Empty input *)

(** C10. On an empty line sequence [extract_info] returns the record
    that carries the given file name and the sentinel [null] in the five
    other fields: no date of the day, no currency of the locale. The
    model is a total function, so nothing is raised. *)
Theorem extract_info_empty (now : datetime) (filename : string) :
  extract_info now [] filename = null_record filename.
Proof. reflexivity. Qed.

(** ** Currency *)

Definition has_euro (line : string) : bool :=
  contains euro_sign line || contains "EUR" (upper line).

Definition has_dollar (line : string) : bool :=
  contains "$" line || contains "USD" (upper line).

Definition has_marker (line : string) : bool := has_euro line || has_dollar line.

Definition locale_currency (lg : lang) : string :=
  match lg with IT => "EUR" | EN => "USD" end.

(** The detection in two passes: a Euro marker anywhere wins over any
    Dollar marker. *)
Definition currency_two_pass (lg : lang) (text_lines : list string) : string :=
  if existsb has_euro text_lines then "EUR"
  else if existsb has_dollar text_lines then "USD"
  else locale_currency lg.

Definition a_day : datetime := {| year := 2024; month := 3; day := 9 |}.
Definition next_day : datetime := {| year := 2024; month := 3; day := 10 |}.

Definition dollar_then_euro : list string := ["$5"; euro_sign ++ "5"].

(** C2, as stated, fails: with a Dollar marker on the first line and a
    Euro marker on the second, the loop stops on the first line and the
    currency is USD, where two passes give EUR.  And on an empty line
    sequence the currency is [null], not that of the locale. *)
Lemma currency_two_pass_fails :
  currency (extract_info a_day dollar_then_euro "r.jpg") = "USD" /\
  currency_two_pass (detect_language dollar_then_euro) dollar_then_euro = "EUR" /\
  currency (extract_info a_day dollar_then_euro "r.jpg") <>
  currency_two_pass (detect_language dollar_then_euro) dollar_then_euro /\
  currency (extract_info a_day [] "r.jpg") = "null" /\
  currency_two_pass (detect_language []) [] = "EUR".
Proof. repeat split; try reflexivity. discriminate. Qed.

(** C2, amended. For a non-empty line sequence, one pass decides: the
    first line that carries any marker sets the currency, EUR if that
    line has a Euro marker and USD otherwise; when no line carries a
    marker the currency is that of the locale (IT: EUR, EN: USD). *)
Theorem currency_first_marker_line
    (now : datetime) (text_lines : list string) (filename : string) :
  text_lines <> [] ->
  let lg := detect_language text_lines in
  let c := currency (extract_info now text_lines filename) in
  (forall i line,
      nth_error text_lines i = Some line ->
      has_marker line = true ->
      (forall j l, j < i -> nth_error text_lines j = Some l ->
                   has_marker l = false) ->
      c = if has_euro line then "EUR" else "USD") /\
  ((forall l, In l text_lines -> has_marker l = false) ->
   c = locale_currency lg).
Proof.
  intros Hne lg c.
  assert (Hc : c = detect_currency lg text_lines).
  { subst c lg. destruct text_lines; [contradiction | reflexivity]. }
  rewrite Hc. unfold detect_currency.
  set (f := fun line : string =>
              if contains euro_sign line || contains "EUR" (upper line)
              then Some "EUR"
              else if contains "$" line || contains "USD" (upper line)
                   then Some "USD" else None).
  assert (Hf : forall l, f l = if has_euro l then Some "EUR"
                               else if has_dollar l then Some "USD" else None)
    by reflexivity.
  split.
  - intros i line Hi Hm Hbefore.
    rewrite (first_some_first f text_lines i line
               (if has_euro line then "EUR" else "USD")); auto.
    + rewrite Hf. unfold has_marker in Hm.
      destruct (has_euro line); [reflexivity|].
      simpl in Hm. now rewrite Hm.
    + intros j l Hj Hl. rewrite Hf.
      specialize (Hbefore j l Hj Hl). unfold has_marker in Hbefore.
      apply orb_false_elim in Hbefore as [-> ->]. reflexivity.
  - intros Hnone.
    assert (H : first_some f text_lines = None).
    { apply first_some_None. intros l Hl. rewrite Hf.
      specialize (Hnone l Hl). unfold has_marker in Hnone.
      apply orb_false_elim in Hnone as [-> ->]. reflexivity. }
    rewrite H. destruct lg; reflexivity.
Qed.

(** The rule at work: a Dollar line before a Euro line gives USD. *)
Lemma currency_first_marker_line_witness :
  dollar_then_euro <> [] /\
  currency (extract_info a_day dollar_then_euro "r.jpg") = "USD".
Proof.
  assert (Hne : dollar_then_euro <> []) by discriminate.
  split; [exact Hne|].
  apply (proj1 (currency_first_marker_line a_day dollar_then_euro "r.jpg" Hne)
               0 "$5").
  - reflexivity.
  - reflexivity.
  - intros j l Hj. inversion Hj.
Defined.

(** ** Vendor *)

(** A text of ASCII characters only.  On such a text a character is one
    byte of the string, the letters are A to Z and a to z, and the
    white space is the one of [is_space]: [String.length], [is_alpha],
    [strip] and [upper] are Python's [len], [isalpha], [strip] and
    [upper].  Beyond ASCII they are not (an accented letter is two
    bytes and is not in A to Z), so the vendor is settled for ASCII
    lines. *)
Definition is_ascii (s : string) : bool :=
  all_char (fun c => Nat.ltb (code c) 128) s.

(** A line of the first pass: trimmed, it has at least 3 characters and
    its upper-case form contains a corporate suffix of the locale. *)
Definition has_suffix_token (lg : lang) (line : string) : bool :=
  Nat.leb 3 (String.length (strip line)) &&
  any_in (suffixes lg) (upper (strip line)).

(** A line that survives the second pass: trimmed, it has at least 3
    characters, a letter, and no generic header keyword. *)
Definition survives (lg : lang) (line : string) : bool :=
  Nat.leb 3 (String.length (strip line)) &&
  any_char is_alpha (strip line) &&
  negb (any_in (skip_keywords lg) (upper (strip line))).

Lemma suffix_line_spec (lg : lang) (line : string) :
  suffix_line lg line =
  if has_suffix_token lg line then Some (strip line) else None.
Proof.
  unfold suffix_line, has_suffix_token.
  rewrite Nat.ltb_antisym.
  destruct (Nat.leb 3 (String.length (strip line))); simpl; [|reflexivity].
  destruct (any_in (suffixes lg) (upper (strip line))); reflexivity.
Qed.

Lemma plain_line_spec (lg : lang) (line : string) :
  plain_line lg line = if survives lg line then Some (strip line) else None.
Proof.
  unfold plain_line, survives.
  rewrite Nat.ltb_antisym.
  destruct (Nat.leb 3 (String.length (strip line))); simpl; [|reflexivity].
  destruct (any_char is_alpha (strip line)); simpl; [|reflexivity].
  destruct (any_in (skip_keywords lg) (upper (strip line))); reflexivity.
Qed.

Lemma nth_error_first_n {A : Type} (n i : nat) (xs : list A) :
  nth_error (first_n n xs) i = if Nat.ltb i n then nth_error xs i else None.
Proof.
  unfold first_n. revert i xs. induction n as [|n IH]; intros i xs.
  - simpl. now destruct i.
  - destruct xs as [|x xs]; simpl.
    + destruct i; simpl; [reflexivity|]. now destruct (Nat.ltb (S i) (S n)).
    + destruct i as [|i]; simpl; [reflexivity|]. apply IH.
Qed.


Definition acme_lines : list string :=
  ["SCONTRINO"; "  ACME S.P.A  "; "VIA ROMA 10"].


(** ** What a match of the backtracking matcher consumed *)

Module ReFacts.

(** [run r p s g p' s' g']: [r] can match from the position [(p, s)] to
    the position [(p', s')], turning the groups [g] into [g']. *)
Inductive run : re -> option ascii -> string -> caps ->
                option ascii -> string -> caps -> Prop :=
| run_Eps p s g : run Eps p s g p s g
| run_Cls f c s p g :
    f c = true -> run (Cls f) p (String c s) g (Some c) s g
| run_Seq r1 r2 p s g p1 s1 g1 p2 s2 g2 :
    run r1 p s g p1 s1 g1 -> run r2 p1 s1 g1 p2 s2 g2 ->
    run (Seq r1 r2) p s g p2 s2 g2
| run_Alt_l r1 r2 p s g p' s' g' :
    run r1 p s g p' s' g' -> run (Alt r1 r2) p s g p' s' g'
| run_Alt_r r1 r2 p s g p' s' g' :
    run r2 p s g p' s' g' -> run (Alt r1 r2) p s g p' s' g'
| run_Many_stop f p s g : run (Many f) p s g p s g
| run_Many_more f c s p g p' s' :
    f c = true -> run (Many f) (Some c) s g p' s' g ->
    run (Many f) p (String c s) g p' s' g
| run_Grp n r p s g p' s' g' :
    run r p s g p' s' g' ->
    run (Grp n r) p s g p' s' ((n, taken s s') :: g')
| run_Bnd p s g :
    xorb (word_at p) (word_at (head s)) = true -> run Bnd p s g p s g
| run_NotNext f p s g : run (NotNext f) p s g p s g
| run_Eos p s g : run Eos p s g p s g.

Lemma exec_sound {A : Type} (r : re) :
  forall p s g (k : option ascii -> string -> caps -> option A) x,
    exec r p s g k = Some x ->
    exists p' s' g', run r p s g p' s' g' /\ k p' s' g' = Some x.
Proof.
  induction r as [|f|r1 IH1 r2 IH2|r1 IH1 r2 IH2|f|n r IH| |f|];
    intros p s g k x H; simpl in H.
  - exists p, s, g. split; [constructor | exact H].
  - destruct s as [|c s]; [discriminate|].
    destruct (f c) eqn:Fc; [|discriminate].
    exists (Some c), s, g. split; [now constructor | exact H].
  - apply IH1 in H as (p1 & s1 & g1 & R1 & H).
    apply IH2 in H as (p2 & s2 & g2 & R2 & H).
    exists p2, s2, g2. split; [econstructor; eauto | exact H].
  - destruct (exec r1 p s g k) eqn:E1.
    + injection H as ->. apply IH1 in E1 as (p' & s' & g' & R & Hk).
      exists p', s', g'. split; [now apply run_Alt_l | exact Hk].
    + apply IH2 in H as (p' & s' & g' & R & Hk).
      exists p', s', g'. split; [now apply run_Alt_r | exact Hk].
  - revert p H. induction s as [|c s IHs]; intros p H.
    + exists p, EmptyString, g. split; [constructor | exact H].
    + destruct (f c) eqn:Fc.
      * match type of H with
        | match ?e with _ => _ end = _ => destruct e eqn:E
        end.
        -- injection H as ->. apply IHs in E as (p' & s' & g' & R & Hk).
           assert (g' = g) as ->.
           { clear -R. remember (Many f) as r eqn:Er.
             induction R; try discriminate; auto. }
           exists p', s', g. split; [now apply run_Many_more | exact Hk].
        -- exists p, (String c s), g. split; [constructor | exact H].
      * exists p, (String c s), g. split; [constructor | exact H].
  - apply IH in H as (p' & s' & g' & R & Hk).
    exists p', s', ((n, taken s s') :: g'). split; [now constructor | exact Hk].
  - destruct (xorb (word_at p) (word_at (head s))) eqn:X; [|discriminate].
    exists p, s, g. split; [now constructor | exact H].
  - exists p, s, g. split; [constructor|].
    destruct s as [|c s]; [exact H|]. now destruct (f c).
  - exists p, s, g. split; [constructor|].
    destruct s as [|c [|c' s]]; [exact H | | discriminate].
    now destruct (Ascii.eqb c newline).
Qed.

Lemma append_assoc (a b c : string) : ((a ++ b) ++ c = a ++ (b ++ c))%string.
Proof. induction a as [|x a IH]; simpl; [reflexivity | now rewrite IH]. Qed.

Lemma length_append (a b : string) :
  String.length (a ++ b) = String.length a + String.length b.
Proof. induction a as [|x a IH]; simpl; [reflexivity | now rewrite IH]. Qed.

Lemma take_append (a b : string) : take (String.length a) (a ++ b) = a.
Proof. induction a as [|x a IH]; simpl; [now destruct b | now rewrite IH]. Qed.

Lemma taken_append (a b : string) : taken (a ++ b) b = a.
Proof.
  unfold taken. rewrite length_append.
  replace (String.length a + String.length b - String.length b)
    with (String.length a) by lia.
  apply take_append.
Qed.

(** A match consumes a prefix of the text. *)
Lemma run_prefix r p s g p' s' g' :
  run r p s g p' s' g' -> exists t, s = (t ++ s')%string.
Proof.
  induction 1;
    try (exists EmptyString; reflexivity).
  - exists (String c EmptyString). reflexivity.
  - destruct IHrun1 as [t1 ->]. destruct IHrun2 as [t2 ->].
    exists (t1 ++ t2)%string. now rewrite append_assoc.
  - assumption.
  - assumption.
  - destruct IHrun as [t ->]. exists (String c t). reflexivity.
  - assumption.
Qed.

(** The class of the first character that a match of [r] must consume,
    when the shape of [r] tells it. *)
Fixpoint first_class (r : re) : option (ascii -> bool) :=
  match r with
  | Cls f => Some f
  | Seq r1 _ => first_class r1
  | Alt r1 r2 =>
      match first_class r1, first_class r2 with
      | Some f1, Some f2 => Some (fun c => f1 c || f2 c)
      | _, _ => None
      end
  | Grp _ r1 => first_class r1
  | _ => None
  end.

Lemma run_first_class r p s g p' s' g' f :
  run r p s g p' s' g' -> first_class r = Some f ->
  exists c t, s = (String c t ++ s')%string /\ f c = true.
Proof.
  intros R. revert f.
  induction R; intros h Hf; simpl in Hf; try discriminate.
  - injection Hf as <-. exists c, EmptyString. auto.
  - destruct (IHR1 h Hf) as (c & t & -> & Hc).
    destruct (run_prefix _ _ _ _ _ _ _ R2) as [t2 ->].
    exists c, (t ++ t2)%string. split; [|exact Hc].
    simpl. now rewrite append_assoc.
  - destruct (first_class r1) as [f1|]; [|discriminate].
    destruct (first_class r2) as [f2|]; [|discriminate].
    injection Hf as <-.
    destruct (IHR f1 eq_refl) as (c & t & -> & Hc).
    exists c, t. split; [reflexivity | now rewrite Hc].
  - destruct (first_class r1) as [f1|]; [|discriminate].
    destruct (first_class r2) as [f2|]; [|discriminate].
    injection Hf as <-.
    destruct (IHR f2 eq_refl) as (c & t & -> & Hc).
    exists c, t. split; [reflexivity | rewrite Hc; apply orb_true_r].
  - apply IHR. exact Hf.
Qed.

Lemma search_from_match (r : re) (s : string) :
  forall p m, search_from r p s = Some m ->
              exists p' s', match_at r p' s' = Some m.
Proof.
  induction s as [|c s IH]; intros p m H; simpl in H.
  - destruct (match_at r p EmptyString) eqn:E; [|discriminate].
    injection H as ->. eauto.
  - destruct (match_at r p (String c s)) eqn:E.
    + injection H as ->. eauto.
    + eapply IH. exact H.
Qed.

(** A match object and the run it comes from. *)
Lemma match_at_run (r : re) (p : option ascii) (s : string) (m : rmatch) :
  match_at r p s = Some m ->
  exists p' s' g', run r p s [] p' s' g' /\
    m = {| m_text := taken s s'; m_caps := g'; m_rest := s' |}.
Proof.
  unfold match_at. intros H. apply exec_sound in H as (p' & s' & g' & R & H).
  exists p', s', g'. split; [exact R | now injection H].
Qed.

End ReFacts.
Import ReFacts.

(** ** Date *)

Section RunInversion.
Variables (p p' : option ascii) (s s' : string) (g g' : caps).

Lemma run_Seq_inv r1 r2 :
  run (Seq r1 r2) p s g p' s' g' ->
  exists p1 s1 g1, run r1 p s g p1 s1 g1 /\ run r2 p1 s1 g1 p' s' g'.
Proof. inversion 1; subst; eauto. Qed.

Lemma run_Grp_inv n r :
  run (Grp n r) p s g p' s' g' ->
  exists g0, run r p s g p' s' g0 /\ g' = (n, taken s s') :: g0.
Proof. inversion 1; subst; eauto. Qed.

Lemma run_Bnd_inv : run Bnd p s g p' s' g' -> p' = p /\ s' = s /\ g' = g.
Proof. inversion 1; subst; auto. Qed.
End RunInversion.

Lemma digit_not_space (c : ascii) : is_digit c = true -> Ascii.eqb c " " = false.
Proof.
  destruct c as [[] [] [] [] [] [] [] []]; try discriminate; reflexivity.
Qed.

(** Group 1 of a pattern [\b( X )] or [\b( X )\b] whose [X] starts
    with a digit starts with that digit. *)
Lemma group1_starts_with_digit (X : re) (tail : re) (p : option ascii)
    (s : string) (m : rmatch) :
  first_class X = Some is_digit ->
  tail = Eps \/ tail = Bnd ->
  match_at (Seq Bnd (Seq (Grp 1 X) tail)) p s = Some m ->
  exists c t, group 1 (m_caps m) = String c t /\ is_digit c = true.
Proof.
  intros HX Htail H.
  apply match_at_run in H as (p' & s' & g' & R & ->). simpl.
  apply run_Seq_inv in R as (p1 & s1 & g1 & R1 & R).
  apply run_Bnd_inv in R1 as (-> & -> & ->).
  apply run_Seq_inv in R as (p2 & s2 & g2 & R2 & R3).
  apply run_Grp_inv in R2 as (g0 & R2 & ->).
  assert (g' = (1, taken s s2) :: g0) as ->.
  { destruct Htail as [-> | ->].
    - now inversion R3.
    - now apply run_Bnd_inv in R3 as (_ & _ & ->). }
  destruct (run_first_class _ _ _ _ _ _ _ _ R2 HX) as (c & t & -> & Hc).
  exists c, t. simpl.
  split; [|exact Hc].
  change (String c (t ++ s2)%string) with (String c t ++ s2)%string.
  apply taken_append.
Qed.

(** The token of a match is never empty, so the test on [raw_date]
    always passes. *)
Lemma raw_of_match_nonempty (lg : lang) (pat : pattern) (line : string)
    (m : rmatch) :
  In pat (date_patterns lg) ->
  search_p pat line = Some m ->
  exists c t, raw_of_match lg pat m = String c t.
Proof.
  intros Hin H. unfold search_p, search in H.
  apply search_from_match in H as (p & s & H).
  assert (Hnum : forall c t, group 1 (m_caps m) = String c t ->
                             is_digit c = true ->
            exists c' t', replace_char " " "" (group 1 (m_caps m)) = String c' t').
  { intros c t -> Hc. simpl. rewrite (digit_not_space c Hc). eauto. }
  destruct lg; simpl in Hin.
  - destruct Hin as [<- | []]. simpl in H.
    destruct (group1_starts_with_digit (dmy (Seq D D) (Seq D D) D24) Bnd p s m
                eq_refl (or_intror eq_refl) H)
      as (c & t & Hg & Hc).
    unfold raw_of_match. simpl. eapply Hnum; eauto.
  - destruct Hin as [<- | [<- | [<- | []]]]; simpl in H.
    + assert (H' : match_at (Seq Bnd (Seq (Grp 1 (dmy D12 D12 (Seq D (Seq D (Seq D D))))) Eps)) p s
                   = Some m) by exact H.
      destruct (group1_starts_with_digit
                  (dmy D12 D12 (Seq D (Seq D (Seq D D)))) Eps p s m
                  eq_refl (or_introl eq_refl) H')
        as (c & t & Hg & Hc).
      unfold raw_of_match. simpl. eapply Hnum; eauto.
    + destruct (group1_starts_with_digit (dmy D12 D12 (Seq D D)) Bnd p s m
                  eq_refl (or_intror eq_refl) H)
        as (c & t & Hg & Hc).
      unfold raw_of_match. simpl. eapply Hnum; eauto.
    + apply match_at_run in H as (p' & s' & g' & R & ->).
      unfold raw_of_match. simpl.
      match type of R with
      | run ?r _ _ _ _ _ _ =>
          destruct (first_class r) as [f|] eqn:Ef; [|discriminate Ef]
      end.
      destruct (run_first_class _ _ _ _ _ _ _ _ R Ef) as (c & t & -> & _).
      exists c, t.
      change (String c (t ++ s')%string) with (String c t ++ s')%string.
      apply taken_append.
Qed.

(** The token of the first pattern that matches a line. *)
Definition line_token (lg : lang) (line : string) : option string :=
  first_some
    (fun pat => option_map (raw_of_match lg pat) (search_p pat line))
    (date_patterns lg).

Lemma line_token_None (lg : lang) (line : string) :
  line_token lg line = None <-> is_date_line lg line = false.
Proof.
  unfold line_token, is_date_line. rewrite first_some_None.
  split.
  - intros H. apply not_true_is_false. intros E.
    apply existsb_exists in E as (pat & Hin & Hm).
    specialize (H pat Hin). unfold matches in Hm. unfold search_p in H.
    destruct (search (p_re pat) line); discriminate.
  - intros H pat Hin. unfold search_p.
    destruct (search (p_re pat) line) eqn:E; [|reflexivity].
    assert (X : existsb (fun q => matches (p_re q) line) (date_patterns lg)
                = true).
    { apply existsb_exists. exists pat. split; [exact Hin|].
      unfold matches. now rewrite E. }
    congruence.
Qed.

Lemma find_raw_date_lines (lg : lang) (text_lines : list string) :
  find_raw_date lg text_lines = first_some (line_token lg) text_lines.
Proof. reflexivity. Qed.

(** The token as the date extractor is described: the whole match for
    the month-name pattern (the third EN pattern), otherwise group 1
    without its space characters. *)
Definition token_of (lg : lang) (p : nat) (m : rmatch) : string :=
  if lang_eqb lg EN && Nat.eqb p 2 then m_text m
  else replace_char " " "" (group 1 (m_caps m)).

Lemma raw_of_match_token (lg : lang) (p : nat) (pat : pattern) (m : rmatch) :
  nth_error (date_patterns lg) p = Some pat ->
  raw_of_match lg pat m = token_of lg p m.
Proof.
  destruct lg; simpl.
  - destruct p as [|[|p]]; simpl; try discriminate.
    now intros [= <-].
  - destruct p as [|[|[|[|p]]]]; simpl; try discriminate;
      now intros [= <-].
Qed.

(** Every white-space character removed. *)
Fixpoint remove_whitespace (s : string) : string :=
  match s with
  | EmptyString => EmptyString
  | String c s' =>
      if is_space c then remove_whitespace s' else String c (remove_whitespace s')
  end.

(** The date extractor with the token stripped of all its white space. *)
Definition date_without_whitespace (now : datetime) (lg : lang)
    (text_lines : list string) : string :=
  let token pat m :=
    if lang_eqb lg EN && contains "Jan" (p_src pat) then m_text m
    else remove_whitespace (group 1 (m_caps m)) in
  match first_some
          (fun line =>
             first_some (fun pat => option_map (token pat) (search_p pat line))
                        (date_patterns lg))
          text_lines with
  | Some raw => normalize_date raw lg
  | None => "(" ++ strftime_dmY now ++ ")"
  end.

Definition tabbed_date : list string :=
  ["99" ++ String tab "/99/99"].

(** C5, as stated, fails: only space characters are removed from the
    captured group.  A tab that the pattern accepts as [\s] stays in
    the token, and when the token does not parse it is the date field.
    And on an empty line sequence the date is [null], not the current
    date. *)
Lemma date_token_keeps_tab :
  date (extract_info a_day tabbed_date "r.jpg") = "99" ++ String tab "/99/99" /\
  date_without_whitespace a_day (detect_language tabbed_date) tabbed_date
  = "99/99/99" /\
  date (extract_info a_day tabbed_date "r.jpg") <>
  date_without_whitespace a_day (detect_language tabbed_date) tabbed_date /\
  date (extract_info a_day [] "r.jpg") = "null" /\
  date_without_whitespace a_day (detect_language []) [] = "(09/03/2024)".
Proof.
  repeat split; try (vm_compute; reflexivity).
  intros H. vm_compute in H. discriminate H.
Qed.

(** C5, amended. For a non-empty line sequence: at the first line, and
    in it the first pattern of the locale, that matches, the token is
    the whole match for the EN month-name pattern and otherwise the
    captured group with its space characters removed (other white space
    is kept); no later line or pattern is looked at, and the date is the
    token passed through [normalize_date] with the locale.  When no
    pattern matches any line, the date is the current date in the
    canonical form, in parentheses. *)
Theorem date_first_match
    (now : datetime) (text_lines : list string) (filename : string) :
  text_lines <> [] ->
  let lg := detect_language text_lines in
  let d := date (extract_info now text_lines filename) in
  (forall i line p pat m,
      nth_error text_lines i = Some line ->
      nth_error (date_patterns lg) p = Some pat ->
      search_p pat line = Some m ->
      (forall j l, j < i -> nth_error text_lines j = Some l ->
                   is_date_line lg l = false) ->
      (forall q pat', q < p -> nth_error (date_patterns lg) q = Some pat' ->
                      search_p pat' line = None) ->
      d = normalize_date (token_of lg p m) lg) /\
  ((forall l, In l text_lines -> is_date_line lg l = false) ->
   d = "(" ++ strftime_dmY now ++ ")").
Proof.
  intros Hne lg d.
  assert (Hd : d = extract_date now lg text_lines).
  { subst d lg. destruct text_lines; [contradiction | reflexivity]. }
  rewrite Hd. unfold extract_date. rewrite find_raw_date_lines. split.
  - intros i line p pat m Hi Hp Hm Hlines Hpats.
    assert (Hin : In pat (date_patterns lg)) by (eapply nth_error_In; eauto).
    destruct (raw_of_match_nonempty lg pat line m Hin Hm) as (c & t & Hraw).
    assert (Htok : line_token lg line = Some (raw_of_match lg pat m)).
    { unfold line_token. eapply first_some_first; eauto.
      - now rewrite Hm.
      - intros q pat' Hq Hpat'. now rewrite (Hpats q pat' Hq Hpat'). }
    rewrite (first_some_first (line_token lg) text_lines i line
               (raw_of_match lg pat m) Hi Htok).
    + rewrite <- (raw_of_match_token lg p pat m Hp). now rewrite Hraw.
    + intros j l Hj Hl. apply line_token_None. eauto.
  - intros Hnone.
    assert (H : first_some (line_token lg) text_lines = None).
    { apply first_some_None. intros l Hl. apply line_token_None. auto. }
    now rewrite H.
Qed.

Definition dated_lines : list string := ["Bar Roma"; "del 23 / 05 / 23 ore 12"].

(** The rule at work: the second line holds the first match, and its
    spaced token is read as 23/05/2023. *)
Lemma date_first_match_witness :
  dated_lines <> [] /\
  date (extract_info a_day dated_lines "r.jpg") = "23/05/2023".
Proof.
  assert (Hne : dated_lines <> []) by discriminate.
  split; [exact Hne|].
  destruct (search_p (hd {| p_src := ""; p_re := Eps |} (date_patterns IT))
                     "del 23 / 05 / 23 ore 12") as [m|] eqn:Hm;
    [|discriminate Hm].
  rewrite (proj1 (date_first_match a_day dated_lines "r.jpg" Hne)
             1 "del 23 / 05 / 23 ore 12" 0 _ m eq_refl eq_refl Hm).
  - injection Hm as <-. reflexivity.
  - intros [|j] l Hj; [intros [= <-]; reflexivity | lia].
  - intros q pat' Hq. lia.
Defined.

(** ** Determinism *)

Definition undated_lines : list string := ["Bar Roma"].

(** C3, as stated, fails: when no date pattern matches, the date field
    is the current date, so the same lines and file name give different
    records on different days. *)
Lemma extract_info_depends_on_clock :
  date (extract_info a_day undated_lines "r.jpg") = "(09/03/2024)" /\
  date (extract_info next_day undated_lines "r.jpg") = "(10/03/2024)" /\
  extract_info a_day undated_lines "r.jpg" <>
  extract_info next_day undated_lines "r.jpg".
Proof.
  repeat split; try (vm_compute; reflexivity).
  intros H. vm_compute in H. discriminate H.
Qed.

(** C3, amended. [extract_info] is a function of the line sequence, the
    file name and the current date: the file name, vendor, location,
    total and currency never depend on the clock; the whole record is
    the same for two clock values with the same canonical date; and it
    does not depend on the clock at all when the sequence is empty or
    some line matches a date pattern of the locale. *)
Theorem extract_info_clock
    (now1 now2 : datetime) (text_lines : list string) (name : string) :
  let r1 := extract_info now1 text_lines name in
  let r2 := extract_info now2 text_lines name in
  (filename r1 = filename r2 /\ vendor r1 = vendor r2 /\
   location r1 = location r2 /\ total r1 = total r2 /\
   currency r1 = currency r2) /\
  (strftime_dmY now1 = strftime_dmY now2 -> r1 = r2) /\
  (text_lines = [] \/
   (exists l, In l text_lines /\
              is_date_line (detect_language text_lines) l = true) ->
   r1 = r2).
Proof.
  intros r1 r2. subst r1 r2.
  destruct text_lines as [|l0 ls]; [repeat split; reflexivity|].
  set (lines := l0 :: ls). set (lg := detect_language lines).
  change (extract_info now1 lines name)
    with {| filename := name;
            vendor := extract_vendor lg lines;
            location := extract_location lg lines;
            date := extract_date now1 lg lines;
            total := extract_total lg lines;
            currency := detect_currency lg lines |}.
  change (extract_info now2 lines name)
    with {| filename := name;
            vendor := extract_vendor lg lines;
            location := extract_location lg lines;
            date := extract_date now2 lg lines;
            total := extract_total lg lines;
            currency := detect_currency lg lines |}.
  split; [repeat split|]. split.
  - intros Heq. f_equal. unfold extract_date. now rewrite Heq.
  - intros [Hnil | (l & Hin & Hl)]; [discriminate|].
    f_equal. unfold extract_date.
    destruct (find_raw_date lg lines) as [[|c t]|] eqn:E; try reflexivity.
    + rewrite find_raw_date_lines in E.
      apply first_some_Some in E as (i & x & Hi & Hx & _).
      unfold line_token in Hx.
      apply first_some_Some in Hx as (q & pat & Hq & Hpat & _).
      destruct (search_p pat x) as [m|] eqn:Hm; [|discriminate].
      apply nth_error_In in Hq.
      destruct (raw_of_match_nonempty lg pat x m Hq Hm) as (c & t & Hraw).
      simpl in Hpat. congruence.
    + rewrite find_raw_date_lines in E.
      rewrite first_some_None in E. specialize (E l Hin).
      apply line_token_None in E. congruence.
Qed.

(** ** Location *)

Definition b2z (b : bool) : Z := if b then 1%Z else 0%Z.

(** The entry a line contributes to the retained candidates: none for a
    line that matches a date pattern or whose score is not positive. *)
Definition retained_entry (lg : lang) (il : nat * string) : list scored :=
  let '(i, line) := il in
  if negb (is_date_line lg line) && (0 <? line_score lg line)%Z
  then [{| index := i; text := strip line; score := line_score lg line |}]
  else [].

(** The positively scored lines, in the order of the lines. *)
Definition retained (lg : lang) (text_lines : list string) : list scored :=
  flat_map (retained_entry lg) (enumerate text_lines).

(** The merge pass on the retained candidates: a candidate and the next
    are merged when their indices are consecutive (the two texts joined
    by a space, the two scores added with a bonus of 5), and the walk
    resumes after both; any other candidate stands alone with its text
    and its score. *)
Fixpoint merge_pairs (xs : list scored) : list candidate :=
  match xs with
  | [] => []
  | x :: tl =>
      match tl with
      | [] => [{| c_text := text x; c_score := score x |}]
      | y :: rest =>
          if Nat.eqb (index y) (index x + 1)
          then {| c_text := text x ++ " " ++ text y;
                  c_score := (score x + score y + 5)%Z |} :: merge_pairs rest
          else {| c_text := text x; c_score := score x |} :: merge_pairs tl
      end
  end.

Lemma fold_left_append {A B : Type} (g : A -> list B) (l : list A) (a : list B) :
  fold_left (fun acc x => (acc ++ g x)%list) l a = (a ++ flat_map g l)%list.
Proof.
  revert a. induction l as [|x l IH]; intros a; simpl.
  - now rewrite app_nil_r.
  - rewrite IH. now rewrite app_assoc.
Qed.

Lemma scored_lines_fold (lg : lang) (l : list (nat * string)) (acc : list scored) :
  fold_left
    (fun scored_lines '(i, line) =>
       if is_date_line lg line then scored_lines
       else
         let score := line_score lg line in
         if (0 <? score)%Z
         then (scored_lines ++
               [{| index := i; text := strip line; score := score |}])%list
         else scored_lines) l acc
  = (acc ++ flat_map (retained_entry lg) l)%list.
Proof.
  revert acc. induction l as [|[i line] l IH]; intros acc.
  - simpl. now rewrite app_nil_r.
  - cbn [fold_left flat_map]. rewrite IH. unfold retained_entry at 2.
    destruct (is_date_line lg line); simpl; [reflexivity|].
    destruct (0 <? line_score lg line)%Z; simpl; [|reflexivity].
    now rewrite <- app_assoc.
Qed.

Lemma scored_lines_retained (lg : lang) (text_lines : list string) :
  scored_lines lg text_lines = retained lg text_lines.
Proof. unfold scored_lines. now rewrite scored_lines_fold. Qed.

(** The indices grow strictly along the list, from [k] on. *)
Fixpoint increasing_from (k : nat) (xs : list scored) : Prop :=
  match xs with
  | [] => True
  | x :: xs' => k <= index x /\ increasing_from (S (index x)) xs'
  end.

Lemma increasing_from_weaken (k k' : nat) (xs : list scored) :
  k' <= k -> increasing_from k xs -> increasing_from k' xs.
Proof. destruct xs; simpl; [auto|]. intros ? [? ?]. split; [lia | auto]. Qed.

Lemma retained_increasing (lg : lang) (text_lines : list string) (k : nat) :
  increasing_from k
    (flat_map (retained_entry lg)
              (combine (seq k (List.length text_lines)) text_lines)).
Proof.
  revert k. induction text_lines as [|line ls IH]; intros k; simpl; [exact I|].
  destruct (negb (is_date_line lg line) && (0 <? line_score lg line)%Z); simpl.
  - split; [lia | apply IH].
  - apply increasing_from_weaken with (S k); [lia | apply IH].
Qed.

Lemma sort_by_index_increasing (k : nat) (xs : list scored) :
  increasing_from k xs -> sort_by_index xs = xs.
Proof.
  revert k. induction xs as [|x xs IH]; intros k; simpl; [reflexivity|].
  intros [_ H]. unfold sort_by_index in *. simpl. rewrite (IH _ H).
  destruct xs as [|y ys]; simpl; [reflexivity|].
  destruct H as [Hy _].
  assert (E : Nat.ltb (index x) (index y) = true) by (apply Nat.ltb_lt; lia).
  now rewrite E.
Qed.

Lemma skipn_nth_error {A : Type} (xs : list A) (i : nat) :
  skipn i xs = match nth_error xs i with
               | Some x => x :: skipn (S i) xs
               | None => []
               end.
Proof.
  revert i. induction xs as [|a xs IH]; intros [|i]; simpl; auto.
Qed.

(** The loop with enough fuel computes the merge pass. *)
Lemma merge_loop_pairs (fuel : nat) (xs : list scored) :
  forall i acc,
    List.length xs <= i + fuel ->
    merge_loop fuel xs i acc = (acc ++ merge_pairs (skipn i xs))%list.
Proof.
  induction fuel as [|fuel IH]; intros i acc Hlen.
  - simpl. rewrite skipn_all2 by lia. now rewrite app_nil_r.
  - cbn [merge_loop]. rewrite (skipn_nth_error xs i).
    destruct (nth_error xs i) as [curr|] eqn:Ei; [|now rewrite app_nil_r].
    replace (i + 1) with (S i) by lia.
    cbn [merge_pairs].
    rewrite (skipn_nth_error xs (S i)).
    destruct (nth_error xs (S i)) as [next_l|] eqn:En.
    + destruct (Nat.eqb (index next_l) (index curr + 1)).
      * rewrite IH by lia. rewrite <- app_assoc.
        replace (i + 2) with (S (S i)) by lia. reflexivity.
      * rewrite IH by lia. rewrite <- app_assoc.
        rewrite (skipn_nth_error xs (S i)), En. reflexivity.
    + rewrite IH by lia. rewrite <- app_assoc.
      rewrite (skipn_nth_error xs (S i)), En. reflexivity.
Qed.

Lemma final_candidates_pairs (lg : lang) (text_lines : list string) :
  final_candidates (scored_lines lg text_lines)
  = merge_pairs (retained lg text_lines).
Proof.
  rewrite scored_lines_retained. unfold final_candidates.
  destruct (retained lg text_lines) as [|x xs] eqn:E; [reflexivity|].
  rewrite <- E.
  rewrite (sort_by_index_increasing 0) by apply retained_increasing.
  now rewrite merge_loop_pairs by (simpl; lia).
Qed.

Definition keep_best (best x : candidate) : candidate :=
  if (c_score best <? c_score x)%Z then x else best.

Lemma keep_best_stays (cs : list candidate) (m : candidate) :
  (forall x, In x cs -> (c_score x <= c_score m)%Z) ->
  fold_left keep_best cs m = m.
Proof.
  revert m. induction cs as [|x cs IH]; intros m H; simpl; [reflexivity|].
  unfold keep_best at 2.
  assert (E : (c_score m <? c_score x)%Z = false).
  { apply Z.ltb_ge. apply H. now left. }
  rewrite E. apply IH. intros y Hy. apply H. now right.
Qed.

Lemma keep_best_reaches (before after : list candidate) (best m : candidate) :
  (c_score m < c_score best)%Z ->
  (forall x, In x before -> (c_score x < c_score best)%Z) ->
  (forall x, In x after -> (c_score x <= c_score best)%Z) ->
  fold_left keep_best (before ++ best :: after) m = best.
Proof.
  revert m. induction before as [|x before IH]; intros m Hm Hb Ha; simpl.
  - unfold keep_best at 2.
    apply Z.ltb_lt in Hm. rewrite Hm. now apply keep_best_stays.
  - apply IH; auto.
    + unfold keep_best. destruct (c_score m <? c_score x)%Z; auto.
      apply Hb. now left.
    + intros y Hy. apply Hb. now right.
Qed.

(** [max] with a key returns the first entry of the highest score. *)
Lemma max_by_score_first (c : candidate) (cs before after : list candidate)
    (best : candidate) :
  c :: cs = (before ++ best :: after)%list ->
  (forall x, In x before -> (c_score x < c_score best)%Z) ->
  (forall x, In x after -> (c_score x <= c_score best)%Z) ->
  max_by_score c cs = best.
Proof.
  intros E Hb Ha. unfold max_by_score.
  change (fun best0 x => if (c_score best0 <? c_score x)%Z then x else best0)
    with keep_best.
  destruct before as [|b before]; simpl in E; injection E as -> ->.
  - now apply keep_best_stays.
  - apply keep_best_reaches; auto.
    + apply Hb. now left.
    + intros y Hy. apply Hb. now right.
Qed.

Lemma in_enumerate_from {A : Type} (xs : list A) (x : A) (k : nat) :
  In x xs -> exists i, In (i, x) (combine (seq k (List.length xs)) xs).
Proof.
  revert k. induction xs as [|a xs IH]; intros k; simpl; [intros []|].
  intros [-> | H].
  - exists k. now left.
  - destruct (IH (S k) H) as [i Hi]. exists i. now right.
Qed.

Lemma retained_nil (lg : lang) (text_lines : list string) :
  retained lg text_lines = [] <->
  (forall l, In l text_lines ->
             is_date_line lg l = true \/ (line_score lg l <= 0)%Z).
Proof.
  unfold retained. split.
  - intros H l Hl.
    destruct (in_enumerate_from text_lines l 0 Hl) as [i Hi].
    assert (E : retained_entry lg (i, l) = []).
    { destruct (retained_entry lg (i, l)) as [|e es] eqn:E; [reflexivity|].
      assert (X : In e (flat_map (retained_entry lg) (enumerate text_lines))).
      { apply in_flat_map. exists (i, l). split; [exact Hi|].
        rewrite E. now left. }
      rewrite H in X. destruct X. }
    unfold retained_entry in E.
    destruct (is_date_line lg l); [now left|]. right.
    destruct (0 <? line_score lg l)%Z eqn:Z0; [discriminate|].
    now apply Z.ltb_ge.
  - intros H.
    destruct (flat_map (retained_entry lg) (enumerate text_lines))
      as [|e es] eqn:E; [reflexivity|].
    assert (X : In e (flat_map (retained_entry lg) (enumerate text_lines)))
      by (rewrite E; now left).
    apply in_flat_map in X as ([i l] & Hil & He).
    apply in_combine_r in Hil. unfold retained_entry in He.
    destruct (H l Hil) as [Hd | Hs].
    + rewrite Hd in He. destruct He.
    + apply Z.ltb_ge in Hs. rewrite Hs, andb_false_r in He. destruct He.
Qed.

(** A street line, the line of the city right after it, and a second
    street line further down. *)
Definition street_and_city : list string :=
  ["VIA ROMA 1"; "20100 MILANO (MI)"; "x"; "VIA DANTE 2"].

(** C6. A line that matches no date pattern is scored +5 for an address
    keyword, +6 for the postal-code pattern, +4 for the locality pattern
    and -20 for a disqualifying token; the lines of positive score are
    retained in order ([retained]); consecutive retained lines are
    merged two by two, texts joined (by one space), scores added with a
    bonus of 5, the walk resuming after both ([merge_pairs]); the
    location is the text of the first candidate of the highest score,
    and [null] when no line is retained.  A street line (score 5)
    followed by a line with a postal code and a province (score 10) is
    merged into one candidate of score 20, which wins over a later
    street line. *)
Theorem location_best_candidate
    (now : datetime) (text_lines : list string) (name : string) :
  let lg := detect_language text_lines in
  let loc := location (extract_info now text_lines name) in
  (forall line,
      line_score lg line =
      (5 * b2z (any_in (addr_keywords lg) (upper (strip line)))
       + 6 * b2z (matches (cap_pattern lg) (strip line))
       + 4 * b2z (matches (prov_pattern lg) (strip line))
       - 20 * b2z (any_in bad_words (upper (strip line))))%Z) /\
  (retained lg text_lines = [] <->
   (forall l, In l text_lines ->
              is_date_line lg l = true \/ (line_score lg l <= 0)%Z)) /\
  (retained lg text_lines = [] -> loc = "null") /\
  (forall before best after,
      merge_pairs (retained lg text_lines) = (before ++ best :: after)%list ->
      (forall x, In x before -> (c_score x < c_score best)%Z) ->
      (forall x, In x after -> (c_score x <= c_score best)%Z) ->
      loc = c_text best) /\
  merge_pairs (retained IT street_and_city)
  = [ {| c_text := "VIA ROMA 1 20100 MILANO (MI)"; c_score := 20 |};
      {| c_text := "VIA DANTE 2"; c_score := 5 |} ] /\
  location (extract_info now street_and_city name)
  = "VIA ROMA 1 20100 MILANO (MI)".
Proof.
  intros lg loc.
  assert (Hloc : loc = extract_location lg text_lines).
  { subst loc lg. destruct text_lines; reflexivity. }
  split; [|split; [apply retained_nil | split; [|split; [|split]]]];
    [| | | vm_compute; reflexivity ..].
  - intros line. unfold line_score.
    destruct (any_in (addr_keywords lg) (upper (strip line)));
      destruct (matches (cap_pattern lg) (strip line));
      destruct (matches (prov_pattern lg) (strip line));
      destruct (any_in bad_words (upper (strip line))); reflexivity.
  - intros H. rewrite Hloc. unfold extract_location.
    rewrite final_candidates_pairs, H. reflexivity.
  - intros before best after E Hb Ha. rewrite Hloc. unfold extract_location.
    rewrite final_candidates_pairs.
    destruct (merge_pairs (retained lg text_lines)) as [|c cs].
    + destruct before; discriminate.
    + now rewrite (max_by_score_first c cs before after best E Hb Ha).
Qed.

(** ** Summary rows *)

(** What a record adds to the sum of its currency: its total when it
    reads as a number, zero otherwise. *)
Definition contribution (r : receipt) : amount :=
  match to_numeric (total r) with
  | Some a => a
  | None => Fin 0
  end.

(** The sum of the contributions of the records of currency [curr]. *)
Definition group_total (curr : string) (data_list : list receipt) : amount :=
  fold_left
    (fun acc r =>
       if String.eqb (currency r) curr then amount_add acc (contribution r)
       else acc)
    data_list (Fin 0).

Definition has_currency (curr : string) (data_list : list receipt) : bool :=
  existsb (fun r => String.eqb (currency r) curr) data_list.

Fixpoint assoc (k : string) (g : list (string * amount)) : option amount :=
  match g with
  | [] => None
  | (k', v) :: g' => if String.eqb k k' then Some v else assoc k g'
  end.

Definition key_lt (a b : string) : Prop := String.compare a b = Lt.

Lemma key_lt_trans (a b c : string) : key_lt a b -> key_lt b c -> key_lt a c.
Proof.
  unfold key_lt. intros H1 H2.
  apply String_as_OT.cmp_lt. apply String_as_OT.cmp_lt in H1, H2.
  eapply String_as_OT.lt_trans; eauto.
Qed.

Lemma key_lt_neq (a b : string) : key_lt a b -> String.eqb b a = false.
Proof.
  unfold key_lt. intros H. apply String.eqb_neq. intros ->.
  assert (E : String.compare a a = Eq) by now apply String_as_OT.cmp_eq.
  congruence.
Qed.

Lemma key_gt_lt (a b : string) : String.compare a b = Gt -> key_lt b a.
Proof.
  unfold key_lt. intros H. rewrite String.compare_antisym, H. reflexivity.
Qed.

Definition keys (g : list (string * amount)) : list string := map fst g.

Lemma assoc_not_in (k : string) (g : list (string * amount)) :
  Forall (key_lt k) (keys g) -> assoc k g = None.
Proof.
  induction g as [|[k' v] g IH]; simpl; [reflexivity|].
  intros H. inversion H as [|? ? Hk Hg]; subst.
  rewrite String.eqb_sym, (key_lt_neq _ _ Hk). auto.
Qed.

(** One step of the grouping keeps the keys increasing, adds the key,
    and adds the value to the sum of that key only. *)
Lemma add_to_group_spec (k : string) (v : amount) (g : list (string * amount)) :
  StronglySorted key_lt (keys g) ->
  StronglySorted key_lt (keys (add_to_group k v g)) /\
  (forall x, In x (keys (add_to_group k v g)) <-> x = k \/ In x (keys g)) /\
  (forall x, assoc x (add_to_group k v g) =
             if String.eqb x k
             then Some (match assoc k g with
                        | Some s => amount_add s v
                        | None => v
                        end)
             else assoc x g).
Proof.
  induction g as [|[k' s] g IH]; intros Hs.
  - simpl. split; [|split].
    + repeat constructor.
    + intros x. split; [intros [<- | []]; now left | intros [-> | []]; now left].
    + intros x. destruct (String.eqb x k); reflexivity.
  - simpl in Hs. apply StronglySorted_inv in Hs as [Hg Hk'].
    simpl. destruct (String.compare k k') eqn:C.
    + apply String.compare_eq_iff in C as <-. simpl.
      rewrite String.eqb_refl. split; [|split].
      * now constructor.
      * intros x. split; [intros [<- | H]; auto | intros [-> | [<- | H]]; auto].
      * intros x. destruct (String.eqb x k) eqn:E; reflexivity.
    + simpl. assert (Hall : Forall (key_lt k) (k' :: keys g)).
      { constructor; [exact C|].
        eapply Forall_impl; [|exact Hk']. intros a. now apply key_lt_trans. }
      split; [|split].
      * constructor; [now constructor | exact Hall].
      * intros x. split; [intros [<- | [<- | H]]; auto
                         | intros [-> | [<- | H]]; auto].
      * intros x. rewrite (String.eqb_sym k k'), (key_lt_neq _ _ C).
        rewrite (assoc_not_in k g).
        -- destruct (String.eqb x k); reflexivity.
        -- now inversion Hall.
    + destruct (IH Hg) as (IH1 & IH2 & IH3). simpl.
      apply key_gt_lt in C. split; [|split].
      * constructor; [exact IH1|].
        apply Forall_forall. intros x Hx. apply IH2 in Hx as [-> | Hx];
          [exact C|].
        rewrite Forall_forall in Hk'. auto.
      * intros x. split.
        -- intros [<- | H]; [auto|]. apply IH2 in H as [-> | H]; auto.
        -- intros [-> | [<- | H]]; [right; apply IH2; auto | auto |].
           right. apply IH2. auto.
      * intros x. rewrite IH3. rewrite (key_lt_neq _ _ C).
        destruct (String.eqb x k) eqn:E; [|reflexivity].
        apply String.eqb_eq in E as ->. now rewrite (key_lt_neq _ _ C).
Qed.

Lemma group_total_snoc (curr : string) (data_list : list receipt) (r : receipt) :
  group_total curr (data_list ++ [r]) =
  if String.eqb (currency r) curr
  then amount_add (group_total curr data_list) (contribution r)
  else group_total curr data_list.
Proof. unfold group_total. now rewrite fold_left_app. Qed.

Lemma group_total_absent (curr : string) (data_list : list receipt) :
  has_currency curr data_list = false -> group_total curr data_list = Fin 0.
Proof.
  induction data_list as [|r rs IH] using rev_ind; [reflexivity|].
  unfold has_currency. rewrite existsb_app. simpl. rewrite orb_false_r.
  intros H. apply orb_false_elim in H as [H1 H2].
  rewrite group_total_snoc, H2. now apply IH.
Qed.

Lemma amount_add_zero (v : amount) : amount_add (Fin 0) v = v.
Proof. now destruct v. Qed.

(** The grouping of the whole list. *)
Lemma currency_sums_spec (data_list : list receipt) :
  StronglySorted key_lt (keys (currency_sums data_list)) /\
  (forall x, In x (keys (currency_sums data_list)) <->
             has_currency x data_list = true) /\
  (forall x, assoc x (currency_sums data_list) =
             if has_currency x data_list
             then Some (group_total x data_list) else None).
Proof.
  induction data_list as [|r rs IH] using rev_ind.
  - simpl. split; [constructor | split].
    + intros x. split; [intros [] | discriminate].
    + reflexivity.
  - destruct IH as (IH1 & IH2 & IH3).
    unfold currency_sums. rewrite fold_left_app. simpl.
    fold (currency_sums rs).
    destruct (add_to_group_spec (currency r) (total_numeric r)
                (currency_sums rs) IH1) as (A1 & A2 & A3).
    assert (Hhas : forall x, has_currency x (rs ++ [r]) =
                             has_currency x rs || String.eqb (currency r) x).
    { intros x. unfold has_currency. rewrite existsb_app. simpl.
      now rewrite orb_false_r. }
    split; [exact A1 | split].
    + intros x. split.
      * intros H. apply A2 in H. rewrite Hhas.
        destruct H as [-> | H].
        -- rewrite String.eqb_refl. apply orb_true_r.
        -- apply IH2 in H. now rewrite H.
      * intros H. apply A2. rewrite Hhas in H.
        apply orb_true_iff in H as [H | H].
        -- right. now apply IH2.
        -- left. symmetry. now apply String.eqb_eq.
    + intros x. rewrite A3, Hhas, group_total_snoc, IH3.
      rewrite (String.eqb_sym x (currency r)).
      destruct (String.eqb (currency r) x) eqn:E.
      * apply String.eqb_eq in E as <-. rewrite orb_true_r.
        unfold total_numeric, fillna, contribution.
        destruct (has_currency (currency r) rs) eqn:Hc; [reflexivity|].
        rewrite (group_total_absent _ _ Hc), amount_add_zero. reflexivity.
      * now rewrite orb_false_r.
Qed.

Lemma sorted_keys_NoDup (ks : list string) :
  StronglySorted key_lt ks -> NoDup ks.
Proof.
  induction 1 as [|k ks Hs IH Hall]; constructor; [|exact IH].
  intros Hin. rewrite Forall_forall in Hall. specialize (Hall k Hin).
  apply key_lt_neq in Hall. rewrite String.eqb_refl in Hall. discriminate.
Qed.

Lemma assoc_in (k : string) (v : amount) (g : list (string * amount)) :
  StronglySorted key_lt (keys g) -> In (k, v) g -> assoc k g = Some v.
Proof.
  induction g as [|[k' v'] g IH]; simpl; [intros _ []|].
  intros Hs Hin. apply StronglySorted_inv in Hs as [Hg Hk'].
  destruct Hin as [[= -> ->] | Hin].
  - now rewrite String.eqb_refl.
  - assert (Hk : In k (keys g)) by (apply in_map_iff; now exists (k, v)).
    rewrite Forall_forall in Hk'. specialize (Hk' k Hk).
    rewrite (key_lt_neq _ _ Hk'). auto.
Qed.

Definition not_null (k : string) : bool := negb (String.eqb k "null").

Lemma summary_currencies (g : list (string * amount)) :
  map currency
      (flat_map (fun '(curr, total_val) =>
                   if String.eqb curr "null" then []
                   else [summary_row curr total_val]) g)
  = filter not_null (keys g).
Proof.
  induction g as [|[k v] g IH]; simpl; [reflexivity|].
  unfold not_null at 1. destruct (String.eqb k "null"); simpl; now rewrite IH.
Qed.

Definition eur_eur_usd : list receipt :=
  [ {| filename := "a.jpg"; vendor := "Bar Roma"; location := "null";
       date := "23/05/2023"; total := "10.00"; currency := "EUR" |};
    {| filename := "b.jpg"; vendor := "Bar Roma"; location := "null";
       date := "24/05/2023"; total := "20.00"; currency := "EUR" |};
    {| filename := "c.jpg"; vendor := "Joe LLC"; location := "null";
       date := "25/05/2023"; total := "null"; currency := "USD" |} ].

(** A decimal text with exactly two fraction digits. *)
Definition two_decimals (s : string) : bool :=
  match split_at "." s with
  | (i, Some f) =>
      nonempty_digits i && all_char is_digit f && Nat.eqb (String.length f) 2
  | (_, None) => false
  end.

(** A total as [extract_info] writes it for an amount below a million:
    [null], or at most six digits, a point and two digits.  On a list of
    at most a thousand such totals the sum that pandas computes in
    binary64 is within a ten-thousandth of the exact decimal sum, so
    that it is written with the same two decimals; this is where the
    exact sums of [amount_add] stand for the sums of the program. *)
Definition modest_total (s : string) : bool :=
  String.eqb s "null" || (two_decimals s && Nat.leb (String.length s) 9).

(** A summary record with every field blank but the label and the sum. *)
Definition label_and_sum_only (curr : string) (sum : amount) : receipt :=
  {| filename := ""; vendor := "TOTALE " ++ curr; location := ""; date := "";
     total := format_amount sum; currency := "" |}.


(** The hundredths that a total names: none for [null], and for a
    two-decimal text the number its digits write without the point. *)
Definition cents_of (s : string) : Z :=
  if String.eqb s "null" then 0%Z
  else match split_at "." s with
       | (i, Some f) => int_of_digits (i ++ f)
       | (_, None) => 0%Z
       end.

(** The sum, in hundredths, of the totals of the records of one
    currency. *)
Definition sum_in_cents (curr : string) (data_list : list receipt) : Z :=
  fold_right Z.add 0%Z
    (map (fun r => cents_of (total r))
         (filter (fun r => String.eqb (currency r) curr) data_list)).

Lemma contribution_modest (r : receipt) :
  modest_total (total r) = true -> contribution r = Fin (cents_of (total r)).
Proof.
  unfold modest_total, contribution, cents_of, to_numeric, two_decimals.
  destruct (String.eqb_spec (total r) "null") as [-> | Hn]; [reflexivity|].
  cbn [orb]. intros H. apply andb_true_iff in H as [H _].
  destruct (String.eqb_spec (total r) "inf") as [E | _].
  { rewrite E in H. discriminate H. }
  destruct (split_at "." (total r)) as [i [f|]]; [|discriminate H].
  now rewrite H.
Qed.

Lemma group_total_modest (curr : string) (data_list : list receipt) :
  forallb (fun r => modest_total (total r)) data_list = true ->
  group_total curr data_list = Fin (sum_in_cents curr data_list).
Proof.
  unfold group_total, sum_in_cents. intros H.
  assert (G : forall l a,
    forallb (fun r => modest_total (total r)) l = true ->
    fold_left
      (fun acc r =>
         if String.eqb (currency r) curr then amount_add acc (contribution r)
         else acc) l (Fin a)
    = Fin (a + fold_right Z.add 0%Z
                 (map (fun r => cents_of (total r))
                      (filter (fun r => String.eqb (currency r) curr) l)))).
  { induction l as [|r l IH]; intros a Hl; cbn [fold_left filter].
    - cbn [map fold_right]. now rewrite Z.add_0_r.
    - cbn [forallb] in Hl. apply andb_true_iff in Hl as [Hr Hl].
      destruct (String.eqb (currency r) curr).
      + rewrite (contribution_modest r Hr). cbn [amount_add map fold_right].
        rewrite (IH _ Hl). f_equal. symmetry. apply Z.add_assoc.
      + now apply IH. }
  exact (G data_list 0%Z H).
Qed.



(** The sums of the example: EUR 30.00 and USD 0.00. *)
Example group_totals_example :
  format_amount (Fin (sum_in_cents "EUR" eur_eur_usd)) = "30.00" /\
  format_amount (Fin (sum_in_cents "USD" eur_eur_usd)) = "0.00".
Proof. split; reflexivity. Qed.

(** ** The order of binary64 numbers *)

Module FloatFacts.

Definition is_nan (x : float) : bool :=
  match x with S754_nan => true | _ => false end.

Ltac float_cases :=
  repeat match goal with
         | x : float |- _ => destruct x as [[|]|[|]| |[|] ? ?]
         | x : spec_float |- _ => destruct x as [[|]|[|]| |[|] ? ?]
         end.

Ltac compare_cases :=
  repeat match goal with
         | |- context [Z.compare ?a ?b] =>
             destruct (Z.compare_spec a b); simpl in *
         | H : context [Z.compare ?a ?b] |- _ =>
             destruct (Z.compare_spec a b); simpl in *
         | |- context [Pos.compare_cont Eq ?a ?b] =>
             change (Pos.compare_cont Eq a b) with (Pos.compare a b);
             destruct (Pos.compare_spec a b); simpl in *
         | H : context [Pos.compare_cont Eq ?a ?b] |- _ =>
             change (Pos.compare_cont Eq a b) with (Pos.compare a b) in H;
             destruct (Pos.compare_spec a b); simpl in *
         end.

Lemma leb_refl (x : float) : is_nan x = false -> leb x x = true.
Proof.
  unfold leb, SFleb, SFcompare. float_cases; simpl; intros H;
    try reflexivity; try discriminate;
    rewrite Z.compare_refl; change (Pos.compare_cont Eq m m) with (Pos.compare m m);
    now rewrite Pos.compare_refl.
Qed.

Lemma ltb_leb (x y : float) : ltb x y = true -> leb x y = true.
Proof.
  unfold ltb, leb, SFltb, SFleb. destruct (SFcompare x y) as [[]|]; auto.
Qed.

(** Two numbers are always comparable. *)
Lemma not_ltb_leb (x y : float) :
  is_nan x = false -> is_nan y = false -> ltb x y = false -> leb y x = true.
Proof.
  unfold ltb, leb, SFltb, SFleb, SFcompare.
  float_cases; simpl; intros Hx Hy H; try reflexivity; try discriminate;
    compare_cases; try reflexivity; try discriminate; try lia.
Qed.

Lemma leb_trans (x y z : float) :
  leb x y = true -> leb y z = true -> leb x z = true.
Proof.
  unfold leb, SFleb, SFcompare.
  float_cases; simpl; intros H1 H2; try reflexivity; try discriminate;
    compare_cases; try reflexivity; try discriminate; try lia.
Qed.

End FloatFacts.
Import FloatFacts.

(** ** Parsed amounts are numbers *)

Module ParseFacts.

Local Open Scope Z_scope.

Lemma iter_pos_invariant {A : Type} (P : A -> Prop) (f : A -> A) :
  (forall x, P x -> P (f x)) ->
  forall (n : positive) (x : A), P x -> P (iter_pos f n x).
Proof.
  intros Hf. induction n as [n IH|n IH|]; intros x Hx; simpl; auto.
Qed.

Lemma shr_1_nonneg (mrs : shr_record) :
  0 <= shr_m mrs -> 0 <= shr_m (shr_1 mrs).
Proof.
  destruct mrs as [m r s]. simpl.
  destruct m as [|[p|p|]|p]; simpl; lia.
Qed.

Lemma shr_fexp_nonneg (m e : Z) (l : SpecFloat.location) :
  0 <= m -> 0 <= shr_m (fst (shr_fexp prec emax m e l)).
Proof.
  intros Hm. unfold shr_fexp, shr.
  assert (H0 : 0 <= shr_m (shr_record_of_loc m l))
    by (destruct l as [|[]]; exact Hm).
  destruct (fexp prec emax (Zdigits2 m + e) - e); simpl; auto.
  apply (iter_pos_invariant (fun mrs => 0 <= shr_m mrs)); auto.
  apply shr_1_nonneg.
Qed.

Lemma round_nearest_even_nonneg (m : Z) (l : SpecFloat.location) :
  0 <= m -> 0 <= round_nearest_even m l.
Proof.
  intros Hm. destruct l as [|[]]; simpl; try lia.
  destruct (Z.even m); lia.
Qed.

(** Rounding a non-negative magnitude never gives NaN. *)
Lemma binary_round_aux_number (m e : Z) (l : SpecFloat.location) :
  0 <= m -> is_nan (binary_round_aux prec emax false m e l) = false.
Proof.
  intros Hm. unfold binary_round_aux.
  pose proof (shr_fexp_nonneg m e l Hm) as H1.
  destruct (shr_fexp prec emax m e l) as [mrs' e']. simpl in H1.
  pose proof (shr_fexp_nonneg _ e' loc_Exact
                (round_nearest_even_nonneg _ (loc_of_shr_record mrs') H1)) as H2.
  destruct (shr_fexp prec emax
              (round_nearest_even (shr_m mrs') (loc_of_shr_record mrs')) e'
              loc_Exact) as [mrs'' e'']. simpl in H2.
  destruct (shr_m mrs'') as [|q|q]; [reflexivity| |lia].
  now destruct (e'' <=? emax - prec).
Qed.

Lemma of_ratio_number (n d : Z) : 0 <= n -> 0 < d -> is_nan (of_ratio n d) = false.
Proof.
  intros Hn Hd. unfold of_ratio. destruct n as [|p|p]; [reflexivity| |lia].
  unfold SFdiv_core_binary.
  set (e' := Z.min _ _). set (m' := match _ - _ - e' with Z0 => _ | _ => _ end).
  assert (Hm' : 0 <= m').
  { subst m'. destruct (0 - 0 - e'); try lia. apply Z.shiftl_nonneg. lia. }
  pose proof (Z.div_pos m' d Hm' Hd) as Hq.
  unfold Z.div in Hq. destruct (Z.div_eucl m' d) as [q r]. simpl in Hq.
  now apply binary_round_aux_number.
Qed.

Lemma digits_from_nonneg (s : string) :
  forall acc, 0 <= acc -> all_char is_digit s = true -> 0 <= digits_from acc s.
Proof.
  induction s as [|c s IH]; intros acc Hacc H;
    cbn [digits_from all_char] in *; [exact Hacc|].
  apply andb_true_iff in H as [Hc Hs]. apply IH; [|exact Hs].
  unfold digit_value. unfold is_digit, between in Hc.
  apply andb_true_iff in Hc as [Hlo _]. apply Nat.leb_le in Hlo. lia.
Qed.

Lemma all_char_append (p : ascii -> bool) (a b : string) :
  all_char p (a ++ b) = all_char p a && all_char p b.
Proof.
  induction a as [|c a IH]; simpl; [reflexivity|].
  now rewrite IH, andb_assoc.
Qed.

Lemma nonempty_digits_all (s : string) :
  nonempty_digits s = true -> all_char is_digit s = true.
Proof. destruct s; [discriminate | auto]. Qed.

(** [float] of a decimal text is a number. *)
Lemma float_of_string_number (s : string) (x : float) :
  float_of_string s = Some x -> is_nan x = false.
Proof.
  unfold float_of_string.
  destruct (split_at "." s) as [i [f|]].
  - destruct (nonempty_digits i) eqn:Hi; [|discriminate].
    destruct (nonempty_digits f) eqn:Hf; [|discriminate].
    simpl. intros [= <-]. apply of_ratio_number.
    + apply digits_from_nonneg; [lia|].
      rewrite all_char_append.
      now rewrite (nonempty_digits_all _ Hi), (nonempty_digits_all _ Hf).
    + apply Z.pow_pos_nonneg; lia.
  - destruct (nonempty_digits i) eqn:Hi; [|discriminate].
    intros [= <-]. apply of_ratio_number; [|lia].
    apply digits_from_nonneg; [lia|]. now apply nonempty_digits_all.
Qed.

End ParseFacts.
Import ParseFacts.

(** ** Total *)

Definition numbers (xs : list float) : Prop :=
  Forall (fun x => is_nan x = false) xs.

Lemma numbers_app (xs ys : list float) :
  numbers xs -> numbers ys -> numbers (xs ++ ys)%list.
Proof. intros; apply Forall_app; auto. Qed.

Lemma get_floats_numbers (lg : lang) (txt : string) : numbers (get_floats lg txt).
Proof.
  unfold get_floats. destruct (contains "%" txt); [constructor|].
  assert (G : forall ms res, numbers res ->
    numbers (fold_left
      (fun res m =>
         match float_of_string (replace_char "," "." m) with
         | Some val => if looks_like_year val then res else (res ++ [val])%list
         | None => res
         end) ms res)).
  { induction ms as [|m ms IH]; intros res Hres; simpl; [exact Hres|].
    apply IH.
    destruct (float_of_string (replace_char "," "." m)) as [val|] eqn:E;
      [|exact Hres].
    destruct (looks_like_year val); [exact Hres|].
    apply numbers_app; [exact Hres|].
    constructor; [|constructor]. eapply float_of_string_number; eauto. }
  apply G. constructor.
Qed.

Lemma floats_at_numbers (lg : lang) (text_lines : list string) (i : nat) :
  numbers (floats_at lg text_lines i).
Proof.
  unfold floats_at. destruct (nth_error text_lines i);
    [apply get_floats_numbers | constructor].
Qed.

Lemma strategy_A_numbers (lg : lang) (text_lines : list string) :
  numbers (fst (strategy_A lg text_lines)) /\
  numbers (snd (strategy_A lg text_lines)).
Proof.
  unfold strategy_A.
  assert (G : forall (l : list (nat * string)) (acc : list float * list float),
    numbers (fst acc) /\ numbers (snd acc) ->
    let r := fold_left
      (fun '(cash_candidates, explicit_totals) '(i, line) =>
         let upper := upper (strip line) in
         let vals := get_floats lg line in
         if any_in (cash_keywords lg) upper then
           ((cash_candidates ++ vals ++ floats_at lg text_lines (i + 1))%list,
            explicit_totals)
         else if any_in (ignore_keywords lg) upper then
           (cash_candidates, explicit_totals)
         else if any_in (total_keywords lg) upper then
           (cash_candidates,
            (explicit_totals ++
             flat_map (fun offset => floats_at lg text_lines (i + offset))
                      (seq 0 5))%list)
         else (cash_candidates, explicit_totals)) l acc in
    numbers (fst r) /\ numbers (snd r)).
  { induction l as [|[i line] l IH]; intros [cash expl] [Hc He];
      cbn [fold_left]; [split; assumption|].
    apply IH. simpl in Hc, He.
    destruct (any_in (cash_keywords lg) (upper (strip line))).
    - split; [|exact He]. simpl.
      repeat apply numbers_app; auto using get_floats_numbers, floats_at_numbers.
    - destruct (any_in (ignore_keywords lg) (upper (strip line)));
        [split; assumption|].
      destruct (any_in (total_keywords lg) (upper (strip line)));
        [|split; assumption].
      split; [exact Hc|]. simpl.
      repeat apply numbers_app; auto using floats_at_numbers. constructor. }
  apply G. split; constructor.
Qed.

Lemma strategy_B_numbers (lg : lang) (text_lines : list string)
    (cash : list float) :
  numbers cash ->
  numbers (fst (strategy_B lg text_lines cash)) /\
  numbers (snd (strategy_B lg text_lines cash)).
Proof.
  intros Hcash. unfold strategy_B.
  assert (G : forall (l : list string) (acc : list float * list float),
    numbers (fst acc) /\ numbers (snd acc) ->
    let r := fold_left
      (fun '(cash_candidates, blind_totals) line =>
         let upper := upper (strip line) in
         let vals := get_floats lg line in
         match vals with
         | [] => (cash_candidates, blind_totals)
         | _ =>
             if any_in (cash_keywords lg) upper then
               ((cash_candidates ++ vals)%list, blind_totals)
             else if any_in (ignore_keywords lg) upper then
               (cash_candidates, blind_totals)
             else (cash_candidates, (blind_totals ++ vals)%list)
         end) l acc in
    numbers (fst r) /\ numbers (snd r)).
  { induction l as [|line l IH]; intros [c b] [Hc Hb];
      cbn [fold_left]; [split; assumption|].
    apply IH. simpl in Hc, Hb.
    pose proof (get_floats_numbers lg line) as Hv.
    destruct (get_floats lg line) as [|v vs]; [split; assumption|].
    destruct (any_in (cash_keywords lg) (upper (strip line))).
    - split; [|exact Hb]. simpl. now apply numbers_app.
    - destruct (any_in (ignore_keywords lg) (upper (strip line)));
        [split; assumption|].
      split; [exact Hc|]. simpl. now apply numbers_app. }
  apply G. split; [exact Hcash | constructor].
Qed.

Lemma gather_numbers (lg : lang) (text_lines : list string) :
  let p := gather lg text_lines in
  numbers (explicit_totals p) /\ numbers (blind_totals p) /\
  numbers (cash_candidates p).
Proof.
  unfold gather.
  destruct (strategy_A_numbers lg text_lines) as [Hc He].
  destruct (strategy_A lg text_lines) as [cash expl]. simpl in Hc, He.
  destruct (strategy_B_numbers lg text_lines cash Hc) as [Hc' Hb].
  destruct (strategy_B lg text_lines cash) as [cash' blind]. simpl in *.
  auto.
Qed.

(** [v] is a largest value of [pool]. *)
Definition is_max_of (pool : list float) (v : float) : Prop :=
  In v pool /\ forall x, In x pool -> leb x v = true.

Lemma fold_max (xs : list float) :
  forall m, is_nan m = false -> numbers xs ->
    let r := fold_left (fun m y => if ltb m y then y else m) xs m in
    (r = m \/ In r xs) /\ is_nan r = false /\ leb m r = true /\
    (forall y, In y xs -> leb y r = true).
Proof.
  induction xs as [|x xs IH]; intros m Hm Hxs; simpl.
  - repeat split; auto using leb_refl; intros y [].
  - inversion Hxs as [|? ? Hx Hxs']; subst.
    destruct (ltb m x) eqn:E.
    + destruct (IH x Hx Hxs') as (Hin & Hn & Hle & Hall).
      repeat split; auto.
      * destruct Hin as [-> | Hin]; auto.
      * eapply leb_trans; [apply ltb_leb; exact E | exact Hle].
      * intros y [<- | Hy]; auto.
    + destruct (IH m Hm Hxs') as (Hin & Hn & Hle & Hall).
      repeat split; auto.
      * destruct Hin as [-> | Hin]; auto.
      * intros y [<- | Hy]; auto.
        eapply leb_trans; [|exact Hle]. now apply not_ltb_leb.
Qed.

(** [max] of a non-empty pool of numbers is a largest value of it. *)
Lemma max_opt_is_max (pool : list float) :
  numbers pool -> pool <> [] ->
  exists v, max_opt pool = Some v /\ is_max_of pool v.
Proof.
  intros Hn Hne. destruct pool as [|x xs]; [contradiction|].
  inversion Hn as [|? ? Hx Hxs]; subst.
  exists (py_max x xs). split; [reflexivity|].
  destruct (fold_max xs x Hx Hxs) as (Hin & _ & Hle & Hall).
  split.
  - unfold py_max. destruct Hin as [-> | Hin]; [now left | now right].
  - intros y [<- | Hy]; [exact Hle | now apply Hall].
Qed.

(** The three classes of lines, by keyword. *)
Definition is_cash_line (lg : lang) (line : string) : bool :=
  any_in (cash_keywords lg) (upper (strip line)).
Definition is_ignored_line (lg : lang) (line : string) : bool :=
  any_in (ignore_keywords lg) (upper (strip line)).
Definition is_total_line (lg : lang) (line : string) : bool :=
  any_in (total_keywords lg) (upper (strip line)).

(** The lines [i .. i+n-1] of the sequence, as many of them as exist. *)
Definition lines_from (text_lines : list string) (i n : nat) : list string :=
  firstn n (skipn i text_lines).

(** The numbers of the window of the line [i]: those read on that line
    and on the next four lines. *)
Definition window (lg : lang) (text_lines : list string) (i : nat) : list float :=
  flat_map (get_floats lg) (lines_from text_lines i 5).

(** What the line [i] adds to the explicit pool: the numbers of its
    window when it has a total keyword and is neither a cash line nor an
    ignored line. *)
Definition explicit_of (lg : lang) (text_lines : list string)
    (il : nat * string) : list float :=
  let '(i, line) := il in
  if is_cash_line lg line then []
  else if is_ignored_line lg line then []
  else if is_total_line lg line then window lg text_lines i
  else [].

(** What the line [i] adds to the cash pool in strategy A: its numbers
    and those of the next line, when it is a cash line. *)
Definition cash_of (lg : lang) (text_lines : list string)
    (il : nat * string) : list float :=
  let '(i, line) := il in
  if is_cash_line lg line
  then (get_floats lg line ++
        flat_map (get_floats lg) (lines_from text_lines (i + 1) 1))%list
  else [].

(** What a line of the tail adds to the cash pool in strategy B. *)
Definition tail_cash_of (lg : lang) (line : string) : list float :=
  if is_cash_line lg line then get_floats lg line else [].

(** What a line of the tail adds to the blind pool. *)
Definition blind_of (lg : lang) (line : string) : list float :=
  if is_cash_line lg line then []
  else if is_ignored_line lg line then []
  else get_floats lg line.

Lemma in_lines_from (text_lines : list string) (i n : nat) (l : string) :
  In l (lines_from text_lines i n) -> In l text_lines.
Proof.
  unfold lines_from. intros H.
  rewrite <- (firstn_skipn i text_lines). apply in_or_app. right.
  rewrite <- (firstn_skipn n (skipn i text_lines)). apply in_or_app. now left.
Qed.

(** Reading the positions [i .. i+n-1] one by one, each under the test
    that it exists, reads the lines [i .. i+n-1]. *)
Lemma floats_at_lines_from (lg : lang) (text_lines : list string) (n i : nat) :
  flat_map (fun offset => floats_at lg text_lines (i + offset)) (seq 0 n)
  = flat_map (get_floats lg) (lines_from text_lines i n).
Proof.
  unfold lines_from. revert i. induction n as [|n IH]; intros i.
  - reflexivity.
  - cbn [seq flat_map]. rewrite <- seq_shift, flat_map_concat_map, map_map.
    rewrite <- flat_map_concat_map.
    rewrite (flat_map_ext _ (fun offset => floats_at lg text_lines (S i + offset)))
      by (intros o; f_equal; lia).
    rewrite IH, Nat.add_0_r, (skipn_nth_error text_lines i).
    unfold floats_at. destruct (nth_error text_lines i) as [x|] eqn:E.
    + reflexivity.
    + apply nth_error_None in E. rewrite skipn_all2 by lia.
      now rewrite !firstn_nil.
Qed.

Lemma floats_at_next (lg : lang) (text_lines : list string) (i : nat) :
  floats_at lg text_lines (i + 1)
  = flat_map (get_floats lg) (lines_from text_lines (i + 1) 1).
Proof.
  rewrite <- floats_at_lines_from. cbn [seq flat_map].
  now rewrite Nat.add_0_r, app_nil_r.
Qed.

Lemma strategy_A_fold (lg : lang) (text_lines : list string)
    (l : list (nat * string)) (cash expl : list float) :
  fold_left
    (fun '(cash_candidates, explicit_totals) '(i, line) =>
       let upper := upper (strip line) in
       let vals := get_floats lg line in
       if any_in (cash_keywords lg) upper then
         ((cash_candidates ++ vals ++ floats_at lg text_lines (i + 1))%list,
          explicit_totals)
       else if any_in (ignore_keywords lg) upper then
         (cash_candidates, explicit_totals)
       else if any_in (total_keywords lg) upper then
         (cash_candidates,
          (explicit_totals ++
           flat_map (fun offset => floats_at lg text_lines (i + offset))
                    (seq 0 5))%list)
       else (cash_candidates, explicit_totals)) l (cash, expl)
  = ((cash ++ flat_map (cash_of lg text_lines) l)%list,
     (expl ++ flat_map (explicit_of lg text_lines) l)%list).
Proof.
  revert cash expl. induction l as [|[i line] l IH]; intros cash expl.
  - simpl. now rewrite !app_nil_r.
  - cbn [fold_left flat_map]. cbv zeta.
    unfold cash_of at 1, explicit_of at 1, window,
      is_cash_line, is_ignored_line, is_total_line.
    rewrite <- floats_at_next, <- floats_at_lines_from.
    destruct (any_in (cash_keywords lg) (upper (strip line))).
    + rewrite IH. now rewrite <- !app_assoc.
    + destruct (any_in (ignore_keywords lg) (upper (strip line)));
        [now rewrite IH|].
      destruct (any_in (total_keywords lg) (upper (strip line)));
        rewrite IH; [now rewrite <- !app_assoc | reflexivity].
Qed.

Lemma strategy_B_fold (lg : lang) (l : list string) (cash blind : list float) :
  fold_left
    (fun '(cash_candidates, blind_totals) line =>
       let upper := upper (strip line) in
       let vals := get_floats lg line in
       match vals with
       | [] => (cash_candidates, blind_totals)
       | _ =>
           if any_in (cash_keywords lg) upper then
             ((cash_candidates ++ vals)%list, blind_totals)
           else if any_in (ignore_keywords lg) upper then
             (cash_candidates, blind_totals)
           else (cash_candidates, (blind_totals ++ vals)%list)
       end) l (cash, blind)
  = ((cash ++ flat_map (tail_cash_of lg) l)%list,
     (blind ++ flat_map (blind_of lg) l)%list).
Proof.
  unfold tail_cash_of, blind_of, is_cash_line, is_ignored_line.
  revert cash blind. induction l as [|line l IH]; intros cash blind.
  - simpl. now rewrite !app_nil_r.
  - cbn [fold_left flat_map]. cbv zeta.
    destruct (get_floats lg line) as [|v vs] eqn:E.
    + rewrite IH.
      destruct (any_in (cash_keywords lg) (upper (strip line)));
        destruct (any_in (ignore_keywords lg) (upper (strip line)));
        reflexivity.
    + destruct (any_in (cash_keywords lg) (upper (strip line))).
      * rewrite IH. now rewrite <- !app_assoc.
      * destruct (any_in (ignore_keywords lg) (upper (strip line)));
          rewrite IH; [reflexivity | now rewrite <- !app_assoc].
Qed.

(** The pools, line by line. *)
Lemma gather_pools (lg : lang) (text_lines : list string) :
  gather lg text_lines =
  {| explicit_totals :=
       flat_map (explicit_of lg text_lines) (enumerate text_lines);
     blind_totals := flat_map (blind_of lg) (last_n 15 text_lines);
     cash_candidates :=
       (flat_map (cash_of lg text_lines) (enumerate text_lines) ++
        flat_map (tail_cash_of lg) (last_n 15 text_lines))%list |}.
Proof.
  unfold gather, strategy_A, strategy_B.
  now rewrite strategy_A_fold, strategy_B_fold.
Qed.

Lemma numbers_filter (f : float -> bool) (xs : list float) :
  numbers xs -> numbers (filter f xs).
Proof.
  unfold numbers. rewrite !Forall_forall. intros H x Hx.
  apply filter_In in Hx as [Hx _]. auto.
Qed.

(** The binary64 number written [s]. *)
Definition amount_of (s : string) : float :=
  match float_of_string s with Some x => x | None => S754_nan end.

Definition cash_cap_lines : list string := ["12,50"; "45,00"; "CONTANTI 20,00"].

(** A total line whose amount stands four lines below it, and a larger
    amount one line further, outside the window. *)
Definition window_lines : list string :=
  ["TOTALE"; "a"; "b"; "c"; "12,50"; "99,00"].

(** A cash line whose amount stands on the next line. *)
Definition cash_next_lines : list string :=
  ["12,50"; "45,00"; "CONTANTI"; "20,00"].

(** C1. The value resolved for the total ([final_total_val], from which
    the total field is written: two decimals when it is positive,
    [null] otherwise) follows the pools in strict precedence: a largest
    value of the explicit pool when that pool is not empty; otherwise,
    with a non-empty blind pool and a largest cash candidate
    [max_cash], a largest of the blind values that are at most
    [max_cash + 0.01], or a largest of the whole blind pool when none
    is under the cap; with no cash candidate a largest of the blind
    pool; with an empty blind pool and some cash candidate, [max_cash];
    otherwise nothing.  The explicit pool holds the numbers of the
    window (the line and the next four) of every line that has a total
    keyword and is neither a cash line nor an ignored line; the blind
    pool holds the numbers of those of the last 15 lines that are
    neither cash lines nor ignored lines; the cash pool holds the
    numbers of the cash lines (and of the line after each) and those of
    the cash lines of the last 15 lines; the window and the line after
    a cash line are cut out of the sequence itself ([lines_from]) and
    read with [get_floats].  With blind totals 12.50 and 45.00 and a
    cash candidate of 20.00 the resolved value is 12.50; an amount four
    lines below a total line is in its window and wins over a larger
    one further down; an amount on the line after a cash line caps the
    blind pool. *)
Theorem total_pool_precedence
    (now : datetime) (text_lines : list string) (name : string) :
  let lg := detect_language text_lines in
  let p := gather lg text_lines in
  let r := final_total_val p in
  total (extract_info now text_lines name) = total_field r /\
  explicit_totals p
  = flat_map (explicit_of lg text_lines) (enumerate text_lines) /\
  blind_totals p = flat_map (blind_of lg) (last_n 15 text_lines) /\
  cash_candidates p
  = (flat_map (cash_of lg text_lines) (enumerate text_lines) ++
     flat_map (tail_cash_of lg) (last_n 15 text_lines))%list /\
  (explicit_totals p <> [] ->
   exists v, r = Some v /\ is_max_of (explicit_totals p) v) /\
  (explicit_totals p = [] -> blind_totals p <> [] ->
   cash_candidates p <> [] ->
   exists max_cash,
     is_max_of (cash_candidates p) max_cash /\
     let under_cap :=
       filter (fun t => leb t (add max_cash one_cent)) (blind_totals p) in
     (under_cap <> [] -> exists v, r = Some v /\ is_max_of under_cap v) /\
     (under_cap = [] -> exists v, r = Some v /\ is_max_of (blind_totals p) v)) /\
  (explicit_totals p = [] -> blind_totals p <> [] ->
   cash_candidates p = [] ->
   exists v, r = Some v /\ is_max_of (blind_totals p) v) /\
  (explicit_totals p = [] -> blind_totals p = [] ->
   cash_candidates p <> [] ->
   exists v, r = Some v /\ is_max_of (cash_candidates p) v) /\
  (explicit_totals p = [] -> blind_totals p = [] ->
   cash_candidates p = [] -> r = None) /\
  final_total_val
    {| explicit_totals := [];
       blind_totals := [amount_of "12.50"; amount_of "45.00"];
       cash_candidates := [amount_of "20.00"] |} = Some (amount_of "12.50") /\
  total (extract_info now cash_cap_lines name) = "12.50" /\
  total (extract_info now window_lines name) = "12.50" /\
  total (extract_info now cash_next_lines name) = "20.00".
Proof.
  intros lg p r.
  destruct (gather_numbers lg text_lines) as (He & Hb & Hc).
  fold p in He, Hb, Hc. subst r. unfold final_total_val.
  split; [|split; [|split; [|split]]];
    [| subst p; now rewrite gather_pools ..|].
  { subst p lg. destruct text_lines; [vm_compute|]; reflexivity. }
  split; [|split; [|split; [|split; [|split; [|split]]]]].
  - intros Hne. destruct (max_opt_is_max _ He Hne) as (v & Hv & Hmax).
    exists v. split; [|exact Hmax].
    destruct (explicit_totals p); [contradiction | exact Hv].
  - intros E Hbne Hcne. rewrite E.
    destruct (max_opt_is_max _ Hc Hcne) as (mc & Hmc & Hcmax).
    exists mc. split; [exact Hcmax|]. rewrite Hmc.
    destruct (blind_totals p) as [|b bs] eqn:Eb; [contradiction|].
    rewrite <- Eb in *. split.
    + intros Hu.
      destruct (max_opt_is_max _ (numbers_filter _ _ Hb) Hu) as (v & Hv & Hmax).
      exists v. split; [|exact Hmax].
      destruct (filter _ (blind_totals p)); [contradiction | exact Hv].
    + intros Hu. rewrite Hu.
      destruct (max_opt_is_max _ Hb Hbne) as (v & Hv & Hmax).
      exists v. split; [|exact Hmax]. now rewrite Eb in *.
  - intros E Hbne Hcnil. rewrite E, Hcnil. simpl.
    destruct (max_opt_is_max _ Hb Hbne) as (v & Hv & Hmax).
    exists v. split; [|exact Hmax].
    destruct (blind_totals p); [contradiction | exact Hv].
  - intros E Hbnil Hcne. rewrite E, Hbnil.
    destruct (max_opt_is_max _ Hc Hcne) as (v & Hv & Hmax).
    exists v. split; assumption.
  - intros E Hbnil Hcnil. now rewrite E, Hbnil, Hcnil.
  - vm_compute. reflexivity.
  - split; [|split]; vm_compute; reflexivity.
Qed.

(** ** The shape of the fields *)

(** The canonical form [dd/mm/yyyy], character by character. *)
Definition is_dmy (s : string) : bool :=
  match s with
  | String d1 (String d2 (String s1 (String m1 (String m2 (String s2
      (String y1 (String y2 (String y3 (String y4 EmptyString))))))))) =>
      is_digit d1 && is_digit d2 && Ascii.eqb s1 "/" &&
      is_digit m1 && is_digit m2 && Ascii.eqb s2 "/" &&
      is_digit y1 && is_digit y2 && is_digit y3 && is_digit y4
  | _ => false
  end.

(** The text between parentheses, when [s] is wrapped in them. *)
Definition unwrap (s : string) : option string :=
  match s with
  | String "("%char t =>
      match split_at ")" t with
      | (inner, Some EmptyString) => Some inner
      | _ => None
      end
  | _ => None
  end.

(** The documented shape of the date field. *)
Definition documented_date (s : string) : bool :=
  String.eqb s "null" || is_dmy s ||
  match unwrap s with Some t => is_dmy t | None => false end.

Definition unparsed_date : list string := ["del 99/99/99"].


Lemma digit_char_is_digit (n : Z) : is_digit (digit_char n) = true.
Proof.
  unfold digit_char.
  assert (H : (Z.to_nat (n mod 10) < 10)%nat)
    by (pose proof (Z.mod_pos_bound n 10); lia).
  revert H. generalize (Z.to_nat (n mod 10)). intros m Hm.
  do 10 (destruct m as [|m]; [reflexivity|]). lia.
Qed.

Lemma string_of_uint_digits (u : Decimal.uint) :
  all_char is_digit (NilEmpty.string_of_uint u) = true.
Proof. induction u; simpl; auto. Qed.

Lemma string_of_nonneg_digits (n : Z) :
  nonempty_digits (string_of_nonneg n) = true.
Proof.
  unfold string_of_nonneg, NilZero.string_of_uint.
  destruct (N.to_uint (Z.to_N n)) as [|u|u|u|u|u|u|u|u|u|u]; try reflexivity;
    unfold nonempty_digits; cbn [NilEmpty.string_of_uint all_char];
    apply string_of_uint_digits.
Qed.

Lemma split_at_digits (i f : string) :
  all_char is_digit i = true ->
  split_at "." (i ++ String "." f) = (i, Some f).
Proof.
  induction i as [|c i IH]; simpl; [reflexivity|].
  intros H. apply andb_true_iff in H as [Hc Hi]. rewrite (IH Hi).
  destruct (Ascii.eqb c ".") eqn:E; [|reflexivity].
  apply Ascii.eqb_eq in E as ->. discriminate.
Qed.

Lemma string_of_hundredths_shape (c : Z) :
  two_decimals (string_of_hundredths c) = true.
Proof.
  unfold two_decimals, string_of_hundredths.
  pose proof (string_of_nonneg_digits (c / 100)) as Hd.
  change ("." ++ two_digits (c mod 100))%string
    with (String "." (two_digits (c mod 100))).
  rewrite split_at_digits by now apply nonempty_digits_all.
  rewrite Hd. unfold two_digits. cbn [all_char String.length].
  now rewrite !digit_char_is_digit.
Qed.

(** The total field is [null], a two-decimal text, or [inf] for an
    amount beyond the range of binary64. *)
Lemma total_field_shape (v : option float) :
  total_field v = "null" \/ two_decimals (total_field v) = true \/
  total_field v = "inf".
Proof.
  destruct v as [x|]; [|now left]. unfold total_field.
  destruct (ltb (of_Z 0) x) eqn:E; [|now left]. right.
  destruct x as [s|[|]| |[|] m e]; try discriminate E.
  - now right.
  - left. apply string_of_hundredths_shape.
Qed.

Lemma strptime_valid (s fmt : string) (d : datetime) :
  strptime s fmt = Some d -> valid d = true.
Proof.
  unfold strptime. destruct (format_regex fmt); [|discriminate].
  destruct (match_at r None s) as [m|]; [|discriminate].
  destruct (m_rest m); [|discriminate].
  destruct (fields_of (m_caps m)) as [d'|]; [|discriminate].
  destruct (valid d') eqn:V; [|discriminate]. now intros [= <-].
Qed.

(** [normalize_date] returns a canonical date or its argument. *)
Lemma normalize_date_shape (date_str : string) (lg : lang) :
  normalize_date date_str lg = date_str \/
  exists d, valid d = true /\ normalize_date date_str lg = strftime_dmY d.
Proof.
  unfold normalize_date.
  destruct (String.eqb date_str "" || String.eqb date_str "null"); [now left|].
  destruct (first_parse (clean_date date_str) formats) as [d|] eqn:E.
  - right. exists d. split; [|reflexivity].
    revert E. generalize formats. induction l as [|f fs IH]; simpl;
      [discriminate|].
    destruct (strptime (clean_date date_str) f) eqn:P; [|exact IH].
    intros [= <-]. eapply strptime_valid; eauto.
  - destruct (loose_parse (clean_date date_str)) as [d|] eqn:L; [|now left].
    right. exists d. split; [|reflexivity].
    unfold loose_parse in L.
    destruct (search re_loose_month (clean_date date_str)); [|discriminate].
    eapply strptime_valid; eauto.
Qed.

Lemma long_text_nonempty (s : string) :
  Nat.ltb (String.length s) 3 = false -> s <> "".
Proof. now destruct s. Qed.

Lemma extract_vendor_nonempty (lg : lang) (text_lines : list string) :
  extract_vendor lg text_lines <> "".
Proof.
  unfold extract_vendor.
  destruct (first_some (suffix_line lg) (first_n 8 text_lines)) as [v|] eqn:E1.
  - apply first_some_Some in E1 as (i & x & _ & Hx & _).
    unfold suffix_line in Hx.
    destruct (Nat.ltb (String.length (strip x)) 3) eqn:L; [discriminate|].
    destruct (any_in (suffixes lg) (upper (strip x))); [|discriminate].
    injection Hx as <-. now apply long_text_nonempty.
  - destruct (first_some (plain_line lg) text_lines) as [v|] eqn:E2;
      [|discriminate].
    apply first_some_Some in E2 as (i & x & _ & Hx & _).
    unfold plain_line in Hx.
    destruct (Nat.ltb (String.length (strip x)) 3) eqn:L; [discriminate|].
    simpl in Hx.
    destruct (negb (any_char is_alpha (strip x))); [discriminate|].
    destruct (any_in (skip_keywords lg) (upper (strip x))); [discriminate|].
    injection Hx as <-. now apply long_text_nonempty.
Qed.

Lemma detect_currency_code (lg : lang) (text_lines : list string) :
  detect_currency lg text_lines = "EUR" \/ detect_currency lg text_lines = "USD".
Proof.
  unfold detect_currency.
  match goal with |- context [first_some ?f text_lines] =>
    destruct (first_some f text_lines) as [c|] eqn:E end.
  - apply first_some_Some in E as (i & x & _ & Hx & _). cbv beta in Hx.
    destruct (contains euro_sign x || contains "EUR" (upper x));
      [injection Hx as <-; now left|].
    destruct (contains "$" x || contains "USD" (upper x));
      [injection Hx as <-; now right | discriminate].
  - destruct lg; [now left | now right].
Qed.

(** A line whose trimmed text is empty scores nothing. *)
Lemma line_score_blank (lg : lang) (line : string) :
  strip line = "" -> line_score lg line = 0%Z.
Proof. intros E. unfold line_score. rewrite E. now destruct lg. Qed.

Lemma retained_texts (lg : lang) (text_lines : list string) :
  Forall (fun x => text x <> "") (retained lg text_lines).
Proof.
  unfold retained. apply Forall_forall. intros x Hx.
  apply in_flat_map in Hx as ([i line] & _ & Hx). unfold retained_entry in Hx.
  destruct (is_date_line lg line); [destruct Hx|]. simpl in Hx.
  destruct (0 <? line_score lg line)%Z eqn:Z0; [|destruct Hx].
  destruct Hx as [<- | []]. simpl. intros E.
  rewrite (line_score_blank lg line E) in Z0. discriminate.
Qed.

Lemma merge_pairs_texts (xs : list scored) :
  Forall (fun x => text x <> "") xs ->
  Forall (fun c => c_text c <> "") (merge_pairs xs).
Proof.
  assert (G : forall n xs, List.length xs <= n ->
              Forall (fun x => text x <> "") xs ->
              Forall (fun c => c_text c <> "") (merge_pairs xs)).
  { induction n as [|n IH]; intros ys Hlen Hys.
    - destruct ys; [constructor | simpl in Hlen; lia].
    - destruct ys as [|x [|y rest]]; [constructor | |].
      + inversion Hys; subst. repeat constructor. assumption.
      + inversion Hys as [|? ? Hx Hys']; subst.
        inversion Hys' as [|? ? Hy Hrest]; subst.
        cbn [merge_pairs]. destruct (Nat.eqb (index y) (index x + 1)).
        * constructor.
          -- simpl. destruct (text x); [contradiction | discriminate].
          -- apply IH; [simpl in Hlen; lia | exact Hrest].
        * constructor; [exact Hx|].
          apply (IH (y :: rest)); [simpl in *; lia | exact Hys']. }
  intros H. now apply (G (List.length xs)).
Qed.

Lemma max_by_score_in (c : candidate) (cs : list candidate) :
  In (max_by_score c cs) (c :: cs).
Proof.
  unfold max_by_score. revert c. induction cs as [|x cs IH]; intros c; simpl.
  - now left.
  - destruct (c_score c <? c_score x)%Z.
    + right. apply IH.
    + destruct (IH c) as [H | H]; [left | right; right]; exact H.
Qed.

Lemma extract_location_nonempty (lg : lang) (text_lines : list string) :
  extract_location lg text_lines <> "".
Proof.
  unfold extract_location. rewrite final_candidates_pairs.
  pose proof (merge_pairs_texts _ (retained_texts lg text_lines)) as H.
  destruct (merge_pairs (retained lg text_lines)) as [|c cs]; [discriminate|].
  rewrite Forall_forall in H. apply H. apply max_by_score_in.
Qed.

Lemma strftime_nonempty (d : datetime) : strftime_dmY d <> "".
Proof. discriminate. Qed.

Lemma extract_date_shape (now : datetime) (lg : lang) (text_lines : list string) :
  let d := extract_date now lg text_lines in
  d <> "" /\
  (d = "(" ++ strftime_dmY now ++ ")" \/
   (exists dt, valid dt = true /\ d = strftime_dmY dt) \/
   find_raw_date lg text_lines = Some d).
Proof.
  unfold extract_date.
  destruct (find_raw_date lg text_lines) as [[|c t]|] eqn:E; cbv zeta.
  - split; [discriminate | now left].
  - destruct (normalize_date_shape (String c t) lg) as [-> | (dt & Hv & ->)].
    + split; [discriminate | now right; right].
    + split; [apply strftime_nonempty | right; left; eauto].
  - split; [discriminate | now left].
Qed.


Definition scenario_lines : list string :=
  ["ACME S.P.A"; "VIA ROMA 10"; "20100 MILANO (MI)"; "23/05/23"; "TOTALE";
   "12,50"].


(** The scenario of the specification. *)
Example scenario_record :
  extract_info a_day scenario_lines "a.jpg" =
  {| filename := "a.jpg"; vendor := "ACME S.P.A";
     location := "VIA ROMA 10 20100 MILANO (MI)"; date := "23/05/2023";
     total := "12.50"; currency := "EUR" |}.
Proof. vm_compute. reflexivity. Qed.

(** An amount of 400 digits is infinite as a binary64 number, and is
    written [inf]. *)
Definition huge_total : list string :=
  ["TOTALE " ++ String.concat "" (List.repeat "9" 400) ++ ",00"].

Example total_inf : total (extract_info a_day huge_total "r.jpg") = "inf".
Proof. vm_compute. reflexivity. Qed.

(** ** Normalizing a canonical date *)

Module Canonical.

Lemma digit_is_word (c : ascii) : is_digit c = true -> is_word c = true.
Proof. intros H. unfold is_word. rewrite H. now rewrite orb_true_r. Qed.

Lemma digit_not_is_space (c : ascii) : is_digit c = true -> is_space c = false.
Proof.
  destruct c as [[] [] [] [] [] [] [] []]; try discriminate; reflexivity.
Qed.

Lemma digit_not_apostrophe (c : ascii) :
  is_digit c = true -> Ascii.eqb c apostrophe = false.
Proof.
  intros H. destruct (Ascii.eqb_spec c apostrophe) as [-> |]; [discriminate|].
  reflexivity.
Qed.

(** A text without apostrophe. *)
Definition plain (s : string) : bool :=
  all_char (fun c => negb (Ascii.eqb c apostrophe)) s.

Lemma sub_apostrophe_plain (repl : rmatch -> string) (s : string) :
  plain s = true ->
  forall prev, sub_from re_apostrophe_year repl prev 0 s = s.
Proof.
  induction s as [|c s IH]; intros H prev; [reflexivity|].
  simpl in H. apply andb_true_iff in H as [Hc Hs].
  apply negb_true_iff in Hc.
  cbn [sub_from]. unfold match_at, re_apostrophe_year, Chr.
  cbn [exec]. unfold is_char. rewrite Ascii.eqb_sym, Hc.
  now rewrite IH.
Qed.

Lemma replace_apostrophe_plain (r s : string) :
  plain s = true -> replace_char apostrophe r s = s.
Proof.
  induction s as [|c s IH]; intros H; [reflexivity|].
  simpl in H. apply andb_true_iff in H as [Hc Hs].
  apply negb_true_iff in Hc. simpl. rewrite Hc. now rewrite IH.
Qed.

Lemma taken_one (c : ascii) (s : string) : taken (String c s) s = String c "".
Proof. exact (taken_append (String c "") s). Qed.

(** Replacing a class character by character. *)
Fixpoint map_class (f : ascii -> bool) (r : ascii) (s : string) : string :=
  match s with
  | EmptyString => EmptyString
  | String c s' => String (if f c then r else c) (map_class f r s')
  end.

Lemma sub_class (f : ascii -> bool) (r : ascii) (s : string) :
  forall prev,
    sub_from (Cls f) (fun _ => String r "") prev 0 s = map_class f r s.
Proof.
  induction s as [|c s IH]; intros prev; [reflexivity|].
  cbn [sub_from map_class]. unfold match_at. cbn [exec].
  destruct (f c).
  - cbn [m_text]. rewrite taken_one. cbn [String.length].
    now rewrite IH.
  - now rewrite IH.
Qed.

(** On a text whose white space is single space characters between
    other characters, [\s+] replaced by a space changes nothing. *)
Fixpoint single_spaced (s : string) : bool :=
  match s with
  | EmptyString => true
  | String c s' =>
      (if is_space c
       then Ascii.eqb c " " &&
            match s' with
            | EmptyString => true
            | String c' _ => negb (is_space c')
            end
       else true) && single_spaced s'
  end.

Lemma sub_spaces_single (s : string) :
  single_spaced s = true ->
  forall prev, sub_from re_spaces (fun _ => " ") prev 0 s = s.
Proof.
  induction s as [|c s IH]; intros H prev; [reflexivity|].
  cbn [single_spaced] in H. apply andb_true_iff in H as [Hc Hs].
  cbn [sub_from]. unfold match_at, re_spaces, Many1. cbn [exec].
  destruct (is_space c) eqn:Sc.
  - apply andb_true_iff in Hc as [Heq Hnext].
    apply Ascii.eqb_eq in Heq. subst c.
    destruct s as [|c' s'].
    + cbn [m_text]. rewrite taken_one. reflexivity.
    + apply negb_true_iff in Hnext. rewrite Hnext.
      cbn [m_text]. rewrite taken_one. cbn [String.length].
      now rewrite IH.
  - now rewrite IH.
Qed.

Lemma rstrip_last (s : string) (c : ascii) :
  is_space c = false -> rstrip (s ++ String c "") = (s ++ String c "")%string.
Proof.
  intros Hc. induction s as [|a s IH]; simpl.
  - now rewrite Hc.
  - rewrite IH. destruct (s ++ String c "")%string eqn:E; [|reflexivity].
    destruct s; discriminate.
Qed.

(** The canonical text and its repaired form, character by character. *)
Definition dmy_text (sep d1 d2 m1 m2 y1 y2 y3 y4 : ascii) : string :=
  String d1 (String d2 (String sep (String m1 (String m2 (String sep
    (String y1 (String y2 (String y3 (String y4 EmptyString))))))))).

Section CleanCanonical.
Variables d1 d2 m1 m2 y1 y2 y3 y4 : ascii.
Hypothesis Hd1 : is_digit d1 = true.
Hypothesis Hd2 : is_digit d2 = true.
Hypothesis Hm1 : is_digit m1 = true.
Hypothesis Hm2 : is_digit m2 = true.
Hypothesis Hy1 : is_digit y1 = true.
Hypothesis Hy2 : is_digit y2 = true.
Hypothesis Hy3 : is_digit y3 = true.
Hypothesis Hy4 : is_digit y4 = true.

Ltac digit_facts :=
  rewrite ?(digit_not_apostrophe _ Hd1), ?(digit_not_apostrophe _ Hd2),
    ?(digit_not_apostrophe _ Hm1), ?(digit_not_apostrophe _ Hm2),
    ?(digit_not_apostrophe _ Hy1), ?(digit_not_apostrophe _ Hy2),
    ?(digit_not_apostrophe _ Hy3), ?(digit_not_apostrophe _ Hy4),
    ?(digit_not_is_space _ Hd1), ?(digit_not_is_space _ Hd2),
    ?(digit_not_is_space _ Hm1), ?(digit_not_is_space _ Hm2),
    ?(digit_not_is_space _ Hy1), ?(digit_not_is_space _ Hy2),
    ?(digit_not_is_space _ Hy3), ?(digit_not_is_space _ Hy4),
    ?(digit_is_word _ Hd1), ?(digit_is_word _ Hd2),
    ?(digit_is_word _ Hm1), ?(digit_is_word _ Hm2),
    ?(digit_is_word _ Hy1), ?(digit_is_word _ Hy2),
    ?(digit_is_word _ Hy3), ?(digit_is_word _ Hy4).

(** The repair turns the slashes of a canonical text into spaces and
    changes nothing else. *)
Lemma clean_date_canonical :
  clean_date (dmy_text "/" d1 d2 m1 m2 y1 y2 y3 y4)
  = dmy_text " " d1 d2 m1 m2 y1 y2 y3 y4.
Proof.
  unfold clean_date, sub.
  assert (Hplain : plain (dmy_text "/" d1 d2 m1 m2 y1 y2 y3 y4) = true).
  { unfold plain, dmy_text. cbn [all_char]. digit_facts. reflexivity. }
  rewrite (sub_apostrophe_plain _ _ Hplain).
  rewrite (replace_apostrophe_plain _ _ Hplain).
  unfold re_punctuation.
  change (fun _ : rmatch => " ") with (fun _ : rmatch => String " " "").
  rewrite sub_class.
  assert (Hmap : map_class (fun c => negb (is_word c || is_space c)) " "
                   (dmy_text "/" d1 d2 m1 m2 y1 y2 y3 y4)
                 = dmy_text " " d1 d2 m1 m2 y1 y2 y3 y4).
  { unfold dmy_text. cbn [map_class]. digit_facts. reflexivity. }
  rewrite Hmap.
  rewrite sub_spaces_single.
  - unfold strip, dmy_text. cbn [lstrip]. digit_facts.
    exact (rstrip_last
             (String d1 (String d2 (String " " (String m1 (String m2
                (String " " (String y1 (String y2 (String y3 "")))))))))
             y4 (digit_not_is_space _ Hy4)).
  - unfold dmy_text. cbn [single_spaced]. digit_facts. reflexivity.
Qed.

End CleanCanonical.

Local Open Scope Z_scope.

Lemma digit_value_char (n : Z) : digit_value (digit_char n) = n mod 10.
Proof.
  unfold digit_value, digit_char, code.
  pose proof (Z.mod_pos_bound n 10 ltac:(lia)).
  rewrite nat_ascii_embedding by lia. lia.
Qed.

Lemma int_of_pad2 (n : Z) : 0 <= n < 100 -> int_of_digits (pad2 n) = n.
Proof.
  intros H. unfold int_of_digits, pad2. cbn [digits_from].
  rewrite !digit_value_char. Z.div_mod_to_equations. lia.
Qed.

Lemma int_of_pad4 (n : Z) : 0 <= n < 10000 -> int_of_digits (pad4 n) = n.
Proof.
  intros H. unfold int_of_digits, pad4, pad2. cbn [digits_from].
  rewrite !digit_value_char. Z.div_mod_to_equations. lia.
Qed.

Lemma rstrip_digits (s : string) :
  all_char is_digit s = true -> rstrip s = s.
Proof.
  induction s as [|c s IH]; [reflexivity|]. cbn [all_char rstrip].
  intros H. apply andb_true_iff in H as [Hc Hs]. rewrite (IH Hs).
  destruct s; [|reflexivity]. now rewrite (digit_not_is_space c Hc).
Qed.

(** [int] on a text of digits: there is nothing to strip. *)
Lemma int_of_text_digits (s : string) :
  all_char is_digit s = true -> int_of_text s = int_of_digits s.
Proof.
  intros H. unfold int_of_text, strip.
  assert (L : lstrip s = s).
  { destruct s as [|c s]; [reflexivity|]. cbn [all_char] in H.
    apply andb_true_iff in H as [Hc _]. cbn [lstrip].
    now rewrite (digit_not_is_space c Hc). }
  now rewrite L, rstrip_digits.
Qed.

Lemma int_of_text_pad2 (n : Z) : 0 <= n < 100 -> int_of_text (pad2 n) = n.
Proof.
  intros H. rewrite int_of_text_digits; [now apply int_of_pad2|].
  unfold pad2. cbn [all_char]. now rewrite !digit_char_is_digit.
Qed.

Lemma int_of_text_pad4 (n : Z) : 0 <= n < 10000 -> int_of_text (pad4 n) = n.
Proof.
  intros H. rewrite int_of_text_digits; [now apply int_of_pad4|].
  unfold pad4, pad2. cbn [all_char]. now rewrite !digit_char_is_digit.
Qed.

(** From the year 1000 on, [%Y] writes the four digits of the year. *)
Lemma year_text_four (y : Z) : 1000 <= y <= 9999 -> year_text y = pad4 y.
Proof.
  intros H.
  assert (A : forallb (fun n => String.eqb (year_text (Z.of_nat n))
                                           (pad4 (Z.of_nat n)))
                      (seq (Z.to_nat 1000) (Z.to_nat 9000)) = true)
    by (vm_compute; reflexivity).
  rewrite forallb_forall in A. specialize (A (Z.to_nat y)).
  rewrite Z2Nat.id in A by lia.
  apply String.eqb_eq, A, in_seq. lia.
Qed.

Lemma taken_two (a b : ascii) (s : string) :
  taken (String a (String b s)) s = String a (String b "").
Proof. exact (taken_append (String a (String b "")) s). Qed.

Lemma taken_four (a b c d : ascii) (s : string) :
  taken (String a (String b (String c (String d s)))) s
  = String a (String b (String c (String d ""))).
Proof. exact (taken_append (String a (String b (String c (String d "")))) s). Qed.

Local Arguments taken : simpl never.

(** The digits of closed numbers, computed. *)
Ltac closed_digits :=
  unfold pad2 in *;
  repeat match goal with
         | |- context [digit_char ?t] =>
             let v := eval vm_compute in (digit_char t) in
             change (digit_char t) with v
         | H : context [digit_char ?t] |- _ =>
             let v := eval vm_compute in (digit_char t) in
             change (digit_char t) with v in H
         end.

Section ExecDirective.
Context {A : Type}.
Variables (prev : option ascii) (rest : string) (g : caps).
Variable k : option ascii -> string -> caps -> option A.
Variable x : A.

(** [%d] on the two digits of a day of the month. *)
Lemma exec_day (day : Z) :
  1 <= day <= 31 ->
  k (Some (digit_char day)) rest ((g_d, pad2 day) :: g) = Some x ->
  exec re_d prev (String (digit_char (day / 10)) (String (digit_char day) rest))
       g k = Some x.
Proof.
  intros Hr. revert Hr.
  assert (G : forall n : nat, (n < 31)%nat ->
    k (Some (digit_char (1 + Z.of_nat n))) rest
      ((g_d, pad2 (1 + Z.of_nat n)) :: g) = Some x ->
    exec re_d prev
      (String (digit_char ((1 + Z.of_nat n) / 10))
         (String (digit_char (1 + Z.of_nat n)) rest)) g k = Some x).
  { intros n Hn.
    do 31 (destruct n as [|n];
           [intros H; closed_digits; unfold re_d; simpl;
            rewrite ?taken_two, ?H; reflexivity|]).
    lia. }
  intros Hr H.
  replace day with (1 + Z.of_nat (Z.to_nat (day - 1))) in * by lia.
  apply G; [lia | exact H].
Qed.

(** [%m] on the two digits of a month. *)
Lemma exec_month (month : Z) :
  1 <= month <= 12 ->
  k (Some (digit_char month)) rest ((g_m, pad2 month) :: g) = Some x ->
  exec re_m prev
       (String (digit_char (month / 10)) (String (digit_char month) rest))
       g k = Some x.
Proof.
  assert (G : forall n : nat, (n < 12)%nat ->
    k (Some (digit_char (1 + Z.of_nat n))) rest
      ((g_m, pad2 (1 + Z.of_nat n)) :: g) = Some x ->
    exec re_m prev
      (String (digit_char ((1 + Z.of_nat n) / 10))
         (String (digit_char (1 + Z.of_nat n)) rest)) g k = Some x).
  { intros n Hn.
    do 12 (destruct n as [|n];
           [intros H; closed_digits; unfold re_m; simpl;
            rewrite ?taken_two, ?H; reflexivity|]).
    lia. }
  intros Hr H.
  replace month with (1 + Z.of_nat (Z.to_nat (month - 1))) in * by lia.
  apply G; [lia | exact H].
Qed.

(** [%Y] on four digits. *)
Lemma exec_year (y1 y2 y3 y4 : ascii) :
  is_digit y1 = true -> is_digit y2 = true ->
  is_digit y3 = true -> is_digit y4 = true ->
  exec re_Y prev (String y1 (String y2 (String y3 (String y4 rest)))) g k
  = k (Some y4) rest
      ((g_Y, String y1 (String y2 (String y3 (String y4 "")))) :: g).
Proof.
  intros H1 H2 H3 H4. unfold re_Y, D. cbn [exec].
  rewrite H1, H2, H3, H4. now rewrite taken_four.
Qed.

(** [\s+] on one space before a character that is not white space. *)
Lemma exec_one_space (c : ascii) :
  is_space c = false ->
  exec (Many1 is_space) prev (String " " (String c rest)) g k
  = k (Some " "%char) (String c rest) g.
Proof.
  intros H. unfold Many1. cbn [exec].
  change (is_space " ") with true. cbv iota. now rewrite H.
Qed.

End ExecDirective.

Lemma format_dmY :
  format_regex "%d %m %Y"
  = Some (Seq re_d (Seq (Many1 is_space)
            (Seq re_m (Seq (Many1 is_space) (Seq re_Y Eps))))).
Proof. reflexivity. Qed.

Lemma days_in_month_le (y m : Z) : days_in_month y m <= 31.
Proof.
  unfold days_in_month.
  destruct m as [|[[[|[]|]|[[]|[]|]|]|[[|[]|]|[[]|[]|]|]|]|]; try lia;
    destruct (is_leap y); lia.
Qed.

Lemma valid_ranges (d : datetime) :
  valid d = true ->
  1 <= year d <= 9999 /\ 1 <= month d <= 12 /\ 1 <= day d <= 31.
Proof.
  unfold valid. rewrite !andb_true_iff, !Z.leb_le.
  pose proof (days_in_month_le (year d) (month d)). lia.
Qed.

(** A canonical text, with spaces, parses by the first format. *)
Lemma strptime_canonical (d : datetime) :
  valid d = true ->
  strptime (pad2 (day d) ++ " " ++ pad2 (month d) ++ " " ++ pad4 (year d))
           "%d %m %Y" = Some d.
Proof.
  intros Hv. destruct (valid_ranges d Hv) as (Hy & Hm & Hd).
  unfold strptime. rewrite format_dmY.
  set (text := (pad2 (day d) ++ " " ++ pad2 (month d) ++ " "
                ++ pad4 (year d))%string).
  assert (Hmatch : match_at
            (Seq re_d (Seq (Many1 is_space)
               (Seq re_m (Seq (Many1 is_space) (Seq re_Y Eps)))))
            None text
          = Some {| m_text := taken text "";
                    m_caps := [(g_Y, pad4 (year d)); (g_m, pad2 (month d));
                               (g_d, pad2 (day d))];
                    m_rest := "" |}).
  { unfold match_at. generalize (taken text) as tk. intros tk.
    subst text. unfold pad4, pad2. cbn [append]. cbn [exec].
    apply exec_day; [exact Hd|]. cbv beta.
    rewrite exec_one_space
      by (apply digit_not_is_space, digit_char_is_digit).
    apply exec_month; [exact Hm|]. cbv beta.
    rewrite exec_one_space
      by (apply digit_not_is_space, digit_char_is_digit).
    rewrite exec_year by apply digit_char_is_digit.
    reflexivity. }
  rewrite Hmatch. cbn [m_rest m_caps].
  unfold fields_of.
  change (has_group g_Y _) with true. change (has_group g_m _) with true.
  change (has_group g_d _) with true. cbv iota.
  change (group g_Y _) with (pad4 (year d)).
  change (group g_m _) with (pad2 (month d)).
  change (group g_d _) with (pad2 (day d)).
  rewrite int_of_text_pad4, !int_of_text_pad2 by lia.
  destruct d as [y m dd]. cbn [year month day] in *. now rewrite Hv.
Qed.

Lemma strftime_text (d : datetime) (sep : ascii) :
  (pad2 (day d) ++ String sep "" ++ pad2 (month d) ++ String sep ""
   ++ pad4 (year d))%string
  = dmy_text sep (digit_char (day d / 10)) (digit_char (day d))
      (digit_char (month d / 10)) (digit_char (month d))
      (digit_char (year d / 1000)) (digit_char (year d / 100))
      (digit_char (year d / 10)) (digit_char (year d)).
Proof. reflexivity. Qed.

Lemma digit_not_n (c : ascii) : is_digit c = true -> Ascii.eqb c "n" = false.
Proof.
  intros H. destruct (Ascii.eqb_spec c "n") as [-> |]; [discriminate|].
  reflexivity.
Qed.

End Canonical.



Definition may_23 : datetime := {| year := 2023; month := 5; day := 23 |}.


(** A text of the same shape that names no date (month 13) is not
    canonical: the month-first format reads it, and it is rewritten. *)
Example normalize_date_month_13 :
  normalize_date "05/13/2023" IT = "13/05/2023".
Proof. vm_compute. reflexivity. Qed.

(** The scenarios of the specification for dates. *)
Example normalize_date_two_digit_year :
  normalize_date "23/05/23" IT = "23/05/2023".
Proof. vm_compute. reflexivity. Qed.

Example normalize_date_apostrophe :
  normalize_date "Jan'23" EN = "20/01/2023".
Proof. vm_compute. reflexivity. Qed.

(** ** Scenarios of the specification *)

Example scenario_language : detect_language scenario_lines = IT.
Proof. reflexivity. Qed.

(** A line with a percent sign gives no number, whatever its keywords. *)
Example percent_line_has_no_number :
  get_floats IT "TOTALE 15% 12,50" = [] /\ get_floats EN "TOTAL 15% $12.50" = [].
Proof. split; reflexivity. Qed.

(** A year is not an amount. *)
Example year_is_not_an_amount :
  get_floats IT "2023,00 12,50" = [amount_of "12.50"].
Proof. vm_compute. reflexivity. Qed.

(** An explicit total wins over a larger number found blindly. *)
Example explicit_over_blind :
  total (extract_info a_day
           ["TOTALE 10,00"; "a"; "b"; "c"; "d"; "99,00"] "r.jpg") = "10.00".
Proof. vm_compute. reflexivity. Qed.

(** A resolved value of zero is written [null]. *)
Example zero_total_is_null :
  final_total_val (gather IT ["TOTALE 0,00"]) = Some (S754_zero false) /\
  total (extract_info a_day ["TOTALE 0,00"] "r.jpg") = "null".
Proof. split; vm_compute; reflexivity. Qed.

(** Three consecutive address lines: the first two are merged, the
    third stands alone. *)
Example no_triple_merge :
  merge_pairs (retained IT ["VIA ROMA 10"; "20100 MILANO (MI)"; "VIA DANTE 3"])
  = [ {| c_text := "VIA ROMA 10 20100 MILANO (MI)"; c_score := 20 |};
      {| c_text := "VIA DANTE 3"; c_score := 5 |} ].
Proof. vm_compute. reflexivity. Qed.

(* ================================================================== *)
(** * Further properties of the code                                   *)
(* ================================================================== *)

From Stdlib Require Import Permutation DecimalN.

(** ** Language detection *)

(** The Italian and the English keywords found in a line. *)
Definition it_hits (line : string) : nat := hits it_keywords (upper (strip line)).
Definition en_hits (line : string) : nat := hits en_keywords (upper (strip line)).

Definition it_score (text_lines : list string) : nat :=
  list_sum (map it_hits text_lines).
Definition en_score (text_lines : list string) : nat :=
  list_sum (map en_hits text_lines).

Lemma detect_language_fold (l : list string) (a b : nat) :
  fold_left
    (fun '(it_score, en_score) line =>
       let upper := upper (strip line) in
       (it_score + hits it_keywords upper, en_score + hits en_keywords upper)%nat)
    l (a, b)
  = (a + it_score l, b + en_score l).
Proof.
  revert a b. induction l as [|x l IH]; intros a b.
  - unfold it_score, en_score. simpl. f_equal; lia.
  - cbn [fold_left]. cbv zeta. rewrite IH.
    unfold it_score, en_score, it_hits, en_hits. simpl. f_equal; lia.
Qed.

(** The two counters are the sums of the hits of the lines. *)
Lemma detect_language_scores (text_lines : list string) :
  detect_language text_lines
  = if Nat.ltb (it_score text_lines) (en_score text_lines) then EN else IT.
Proof. unfold detect_language. now rewrite detect_language_fold. Qed.

Lemma list_sum_permutation (xs ys : list nat) :
  Permutation xs ys -> list_sum xs = list_sum ys.
Proof. induction 1; simpl; lia. Qed.

(** X1. The detected language does not depend on the order of the
    lines: it is the same for any rearrangement of the sequence. *)
Theorem detect_language_order (l1 l2 : list string) :
  Permutation l1 l2 -> detect_language l1 = detect_language l2.
Proof.
  intros P. rewrite !detect_language_scores. unfold it_score, en_score.
  rewrite (list_sum_permutation _ _ (Permutation_map it_hits P)).
  now rewrite (list_sum_permutation _ _ (Permutation_map en_hits P)).
Qed.

Lemma detect_language_order_witness :
  Permutation ["TOTALE"; "CASH 5.00"; "TAX"] ["TAX"; "TOTALE"; "CASH 5.00"] /\
  detect_language ["TOTALE"; "CASH 5.00"; "TAX"]
  = detect_language ["TAX"; "TOTALE"; "CASH 5.00"].
Proof.
  assert (P : Permutation ["TOTALE"; "CASH 5.00"; "TAX"]
                          ["TAX"; "TOTALE"; "CASH 5.00"]).
  { apply Permutation_sym.
    apply (Permutation_cons_app ["TOTALE"; "CASH 5.00"] [] "TAX").
    apply Permutation_refl. }
  split; [exact P | exact (detect_language_order _ _ P)].
Defined.

(** X2. English wins only by a strict majority of keyword hits: a
    sequence classified Italian stays Italian when lines are added in
    which the English keywords are not more numerous than the Italian
    ones.  In particular a sequence without any English keyword, the
    empty one included, is Italian. *)
Theorem detect_language_stays_IT (text_lines more : list string) :
  detect_language text_lines = IT ->
  (forall l, In l more -> en_hits l <= it_hits l) ->
  detect_language (text_lines ++ more) = IT.
Proof.
  rewrite !detect_language_scores. intros H Hmore.
  destruct (Nat.ltb (it_score text_lines) (en_score text_lines)) eqn:E;
    [discriminate|].
  apply Nat.ltb_ge in E.
  assert (G : en_score more <= it_score more).
  { clear -Hmore. unfold en_score, it_score.
    induction more as [|x xs IH]; simpl; [lia|].
    pose proof (Hmore x (or_introl eq_refl)).
    assert (list_sum (map en_hits xs) <= list_sum (map it_hits xs))
      by (apply IH; intros l Hl; apply Hmore; now right).
    lia. }
  assert (L : Nat.ltb (it_score (text_lines ++ more))
                      (en_score (text_lines ++ more)) = false).
  { apply Nat.ltb_ge. unfold it_score, en_score in *.
    rewrite !map_app, !list_sum_app. lia. }
  now rewrite L.
Qed.

Lemma detect_language_stays_IT_witness :
  detect_language ["TOTAL"; "VIA ROMA 1"; "SCONTRINO"] = IT /\
  (forall l, In l ["TOTALE 5,00"] -> en_hits l <= it_hits l) /\
  detect_language (["TOTAL"; "VIA ROMA 1"; "SCONTRINO"] ++ ["TOTALE 5,00"]) = IT.
Proof.
  assert (H : detect_language ["TOTAL"; "VIA ROMA 1"; "SCONTRINO"] = IT)
    by reflexivity.
  assert (Hm : forall l, In l ["TOTALE 5,00"] -> en_hits l <= it_hits l).
  { intros l [<- | []]. vm_compute. apply le_n. }
  split; [exact H|]. split; [exact Hm|].
  exact (detect_language_stays_IT _ _ H Hm).
Defined.

(** ** The date normalizer *)

(** A date from the year 1000 on, as [strftime] writes it, is a fixed
    point of the normalizer. *)
Lemma normalize_strftime (d : datetime) (lg : lang) :
  valid d = true -> (1000 <= year d)%Z ->
  normalize_date (strftime_dmY d) lg = strftime_dmY d.
Proof.
  intros Hv Hy.
  destruct (Canonical.valid_ranges d Hv) as (Hy' & _ & _).
  assert (Etext : strftime_dmY d
                  = (pad2 (day d) ++ "/" ++ pad2 (month d) ++ "/"
                     ++ pad4 (year d))%string).
  { unfold strftime_dmY. now rewrite Canonical.year_text_four by lia. }
  rewrite Etext. unfold normalize_date.
  set (text := (pad2 (day d) ++ "/" ++ pad2 (month d) ++ "/"
                ++ pad4 (year d))%string).
  assert (Hguard : String.eqb text "" || String.eqb text "null" = false).
  { unfold text, pad2. cbn [append String.eqb].
    now rewrite (Canonical.digit_not_n _ (digit_char_is_digit _)). }
  rewrite Hguard.
  assert (Hclean : clean_date text
                   = (pad2 (day d) ++ " " ++ pad2 (month d) ++ " "
                      ++ pad4 (year d))%string).
  { unfold text.
    rewrite (Canonical.strftime_text d "/"), (Canonical.strftime_text d " ").
    apply Canonical.clean_date_canonical; apply digit_char_is_digit. }
  rewrite Hclean. unfold formats. cbn [first_parse].
  rewrite (Canonical.strptime_canonical d Hv). exact Etext.
Qed.

(** X3. Normalizing twice gives the result of normalizing once, except
    possibly when the first call wrote a date before the year 1000: the
    year then has fewer than four digits and the second call can read
    it as another year, as for [01/01/0023], written [01/01/23] and then
    [01/01/2023]. *)
Theorem normalize_date_twice (date_str : string) (lg : lang) :
  (normalize_date (normalize_date date_str lg) lg = normalize_date date_str lg
   \/
   exists d, valid d = true /\ (year d < 1000)%Z /\
             normalize_date date_str lg = strftime_dmY d) /\
  normalize_date "01/01/0023" lg = "01/01/23" /\
  normalize_date "01/01/23" lg = "01/01/2023".
Proof.
  split; [|split; destruct lg; vm_compute; reflexivity].
  destruct (normalize_date_shape date_str lg) as [E | (d & Hv & E)].
  - left. now rewrite E.
  - destruct (Z.lt_ge_cases (year d) 1000) as [Hy | Hy].
    + right. exists d. auto.
    + left. rewrite E. now apply normalize_strftime.
Qed.

(** ** Amounts on a line *)

(** A number that is not negative: zero, a positive finite number or
    plus infinity. *)
Definition nonneg_number (x : float) : bool :=
  match x with
  | S754_zero false | S754_finite false _ _ | S754_infinity false => true
  | _ => false
  end.

Lemma binary_round_aux_nonneg (m e : Z) (l : SpecFloat.location) :
  (0 <= m)%Z -> nonneg_number (binary_round_aux prec emax false m e l) = true.
Proof.
  intros Hm. unfold binary_round_aux.
  pose proof (shr_fexp_nonneg m e l Hm) as H1.
  destruct (shr_fexp prec emax m e l) as [mrs' e']. simpl in H1.
  pose proof (shr_fexp_nonneg _ e' loc_Exact
                (round_nearest_even_nonneg _ (loc_of_shr_record mrs') H1)) as H2.
  destruct (shr_fexp prec emax
              (round_nearest_even (shr_m mrs') (loc_of_shr_record mrs')) e'
              loc_Exact) as [mrs'' e'']. simpl in H2.
  destruct (shr_m mrs'') as [|q|q]; [reflexivity| |lia].
  now destruct (e'' <=? emax - prec)%Z.
Qed.

Lemma of_ratio_nonneg (n d : Z) :
  (0 <= n)%Z -> (0 < d)%Z -> nonneg_number (of_ratio n d) = true.
Proof.
  intros Hn Hd. unfold of_ratio. destruct n as [|p|p]; [reflexivity| |lia].
  unfold SFdiv_core_binary.
  set (e' := Z.min _ _).
  set (m' := match (0 - 0 - e')%Z with Z0 => _ | _ => _ end).
  assert (Hm' : (0 <= m')%Z).
  { subst m'. destruct (0 - 0 - e')%Z; try lia. apply Z.shiftl_nonneg. lia. }
  pose proof (Z.div_pos m' d Hm' Hd) as Hq.
  unfold Z.div in Hq. destruct (Z.div_eucl m' d) as [q r]. simpl in Hq.
  now apply binary_round_aux_nonneg.
Qed.

Lemma float_of_string_nonneg (s : string) (x : float) :
  float_of_string s = Some x -> nonneg_number x = true.
Proof.
  unfold float_of_string.
  destruct (split_at "." s) as [i [f|]].
  - destruct (nonempty_digits i) eqn:Hi; [|discriminate].
    destruct (nonempty_digits f) eqn:Hf; [|discriminate].
    simpl. intros [= <-]. apply of_ratio_nonneg.
    + apply digits_from_nonneg; [lia|].
      rewrite all_char_append.
      now rewrite (nonempty_digits_all _ Hi), (nonempty_digits_all _ Hf).
    + apply Z.pow_pos_nonneg; lia.
  - destruct (nonempty_digits i) eqn:Hi; [|discriminate].
    intros [= <-]. apply of_ratio_nonneg; [|lia].
    apply digits_from_nonneg; [lia|]. now apply nonempty_digits_all.
Qed.

(** X4. Every amount read on a line is a number that is not negative
    (never NaN), and is never an integral value strictly between 1900
    and 2100; a line with a percent sign gives no amount at all. *)
Theorem get_floats_amounts (lg : lang) (txt : string) :
  (forall x, In x (get_floats lg txt) ->
             nonneg_number x = true /\ looks_like_year x = false) /\
  (contains "%" txt = true -> get_floats lg txt = []).
Proof.
  unfold get_floats. split; [|intros H; now rewrite H].
  destruct (contains "%" txt); [intros x []|].
  assert (G : forall ms res,
    (forall x, In x res -> nonneg_number x = true /\ looks_like_year x = false) ->
    forall x, In x (fold_left
      (fun res m =>
         match float_of_string (replace_char "," "." m) with
         | Some val => if looks_like_year val then res else (res ++ [val])%list
         | None => res
         end) ms res) ->
      nonneg_number x = true /\ looks_like_year x = false).
  { induction ms as [|m ms IH]; intros res Hres; simpl; [exact Hres|].
    apply IH.
    destruct (float_of_string (replace_char "," "." m)) as [val|] eqn:E;
      [|exact Hres].
    destruct (looks_like_year val) eqn:Y; [exact Hres|].
    intros x Hx. apply in_app_iff in Hx as [Hx | [<- | []]]; [auto|].
    split; [eapply float_of_string_nonneg; eauto | exact Y]. }
  apply G. intros x [].
Qed.

(** ** Where the fields come from *)

Lemma max_opt_in (pool : list float) (v : float) :
  max_opt pool = Some v -> In v pool.
Proof.
  destruct pool as [|x xs]; [discriminate|]. intros [= <-].
  unfold py_max. revert x. induction xs as [|y ys IH]; intros x; simpl.
  - now left.
  - destruct (ltb x y).
    + right. apply IH.
    + destruct (IH x) as [H | H]; [left | right; right]; exact H.
Qed.

Lemma floats_at_line (lg : lang) (text_lines : list string) (i : nat) (v : float) :
  In v (floats_at lg text_lines i) ->
  exists line, In line text_lines /\ In v (get_floats lg line).
Proof.
  unfold floats_at. destruct (nth_error text_lines i) as [line|] eqn:E;
    [|intros []].
  intros H. exists line. split; [eapply nth_error_In; eauto | exact H].
Qed.

Lemma in_last_n {A : Type} (n : nat) (xs : list A) (x : A) :
  In x (last_n n xs) -> In x xs.
Proof.
  unfold last_n. intros H. rewrite <- (firstn_skipn (List.length xs - n) xs).
  apply in_or_app. now right.
Qed.

(** Every value of a pool was read on some line. *)
Lemma pool_values_read (lg : lang) (text_lines : list string) (v : float) :
  let p := gather lg text_lines in
  In v (explicit_totals p) \/ In v (blind_totals p) \/ In v (cash_candidates p) ->
  exists line, In line text_lines /\ In v (get_floats lg line).
Proof.
  cbv zeta. rewrite gather_pools. cbn [explicit_totals blind_totals cash_candidates].
  intros [H | [H | H]].
  - apply in_flat_map in H as ([i line] & Hil & H). unfold explicit_of in H.
    destruct (is_cash_line lg line); [destruct H|].
    destruct (is_ignored_line lg line); [destruct H|].
    destruct (is_total_line lg line); [|destruct H].
    unfold window in H. apply in_flat_map in H as (l & Hl & H).
    exists l. split; [eapply in_lines_from; eauto | exact H].
  - apply in_flat_map in H as (line & Hl & H). unfold blind_of in H.
    destruct (is_cash_line lg line); [destruct H|].
    destruct (is_ignored_line lg line); [destruct H|].
    exists line. split; [eapply in_last_n; eauto | exact H].
  - apply in_app_iff in H as [H | H].
    + apply in_flat_map in H as ([i line] & Hil & H). unfold cash_of in H.
      destruct (is_cash_line lg line); [|destruct H].
      apply in_app_iff in H as [H | H].
      * exists line. split; [|exact H]. unfold enumerate in Hil.
        eapply in_combine_r; eauto.
      * apply in_flat_map in H as (l & Hl & H).
        exists l. split; [eapply in_lines_from; eauto | exact H].
    + apply in_flat_map in H as (line & Hl & H). unfold tail_cash_of in H.
      destruct (is_cash_line lg line); [|destruct H].
      exists line. split; [eapply in_last_n; eauto | exact H].
Qed.

(** X5. The total is never computed: the value resolved for it is one
    of the amounts read on one of the lines. *)
Theorem total_is_read_amount
    (lg : lang) (text_lines : list string) (v : float) :
  final_total_val (gather lg text_lines) = Some v ->
  exists line, In line text_lines /\ In v (get_floats lg line).
Proof.
  intros H. apply (pool_values_read lg text_lines v). cbv zeta.
  revert H. unfold final_total_val.
  set (p := gather lg text_lines).
  destruct (explicit_totals p) as [|e es] eqn:Ee.
  - destruct (blind_totals p) as [|b bs] eqn:Eb.
    + intros H. right. right. now apply max_opt_in.
    + destruct (max_opt (cash_candidates p)) as [mc|] eqn:Ec.
      * destruct (filter _ (b :: bs)) as [|u us] eqn:Eu.
        -- intros H. right. left. now apply max_opt_in.
        -- intros H. right. left. apply max_opt_in in H. rewrite <- Eu in H.
           now apply filter_In in H as [H _].
      * intros H. right. left. now apply max_opt_in.
  - intros H. left. now apply max_opt_in.
Qed.

Definition explicit_example : list string := ["TOTALE 10,00"; "RESTO 2,00"].

Lemma total_is_read_amount_witness :
  final_total_val (gather IT explicit_example) = Some (amount_of "10.00") /\
  exists line, In line explicit_example /\
               In (amount_of "10.00") (get_floats IT line).
Proof.
  assert (H : final_total_val (gather IT explicit_example)
              = Some (amount_of "10.00")) by (vm_compute; reflexivity).
  split; [exact H | exact (total_is_read_amount IT explicit_example _ H)].
Defined.

Lemma last_n_app {A : Type} (n : nat) (pre tail : list A) :
  n <= List.length tail -> last_n n (pre ++ tail) = last_n n tail.
Proof.
  intros H. unfold last_n. rewrite length_app.
  replace (List.length pre + List.length tail - n)
    with (List.length pre + (List.length tail - n)) by lia.
  rewrite skipn_app.
  replace (List.length pre + (List.length tail - n) - List.length pre)
    with (List.length tail - n) by lia.
  rewrite skipn_all2 by lia. reflexivity.
Qed.

Definition fifteen_lines : list string :=
  ["a"; "b"; "c"; "d"; "e"; "f"; "g"; "h"; "i"; "j"; "k"; "l"; "m"; "n";
   "9,99"].

(** X6. Lines placed before the last 15 lines change the blind pool only
    through the locale, which is detected on the whole sequence: when
    the locale of the whole sequence is the one of its last lines, the
    blind pool of the receipt is the blind pool of these lines taken on
    their own.  When the added lines change the locale it can differ:
    two English keywords in front turn the Italian tail into an English
    receipt, whose blind pool is empty because [9,99] is not an amount
    in English. *)
Theorem blind_pool_is_local (before tail : list string) :
  15 <= List.length tail ->
  detect_language (before ++ tail) = detect_language tail ->
  blind_totals (gather (detect_language (before ++ tail)) (before ++ tail))
  = blind_totals (gather (detect_language tail) tail) /\
  blind_totals
    (gather (detect_language (["TAX"; "TIPS"] ++ fifteen_lines))
            (["TAX"; "TIPS"] ++ fifteen_lines)) = [] /\
  blind_totals (gather (detect_language fifteen_lines) fifteen_lines)
  = [amount_of "9.99"].
Proof.
  intros H E. split; [|split; vm_compute; reflexivity].
  rewrite E, !gather_pools. cbn [blind_totals].
  now rewrite last_n_app.
Qed.

Lemma blind_pool_is_local_witness :
  15 <= List.length fifteen_lines /\
  detect_language (["450,00"; "x"] ++ fifteen_lines)
  = detect_language fifteen_lines /\
  blind_totals
    (gather (detect_language (["450,00"; "x"] ++ fifteen_lines))
            (["450,00"; "x"] ++ fifteen_lines))
  = blind_totals (gather (detect_language fifteen_lines) fifteen_lines).
Proof.
  assert (H : 15 <= List.length fifteen_lines) by (simpl; lia).
  assert (E : detect_language (["450,00"; "x"] ++ fifteen_lines)
              = detect_language fifteen_lines) by reflexivity.
  split; [exact H|]. split; [exact E|].
  exact (proj1 (blind_pool_is_local _ _ H E)).
Defined.



(** A line that can be part of the location: it matches no date
    pattern, has no disqualifying token, and has an address keyword, a
    postal code or a locality code. *)
Definition address_like (lg : lang) (line : string) : bool :=
  negb (is_date_line lg line) &&
  negb (any_in bad_words (upper (strip line))) &&
  (any_in (addr_keywords lg) (upper (strip line)) ||
   matches (cap_pattern lg) (strip line) ||
   matches (prov_pattern lg) (strip line)).

Lemma positive_score_address_like (lg : lang) (line : string) :
  is_date_line lg line = false -> (0 < line_score lg line)%Z ->
  address_like lg line = true.
Proof.
  intros Hd Hs. unfold address_like. rewrite Hd. unfold line_score in Hs.
  destruct (any_in (addr_keywords lg) (upper (strip line)));
    destruct (matches (cap_pattern lg) (strip line));
    destruct (matches (prov_pattern lg) (strip line));
    destruct (any_in bad_words (upper (strip line)));
    simpl in *; try reflexivity; lia.
Qed.

Lemma in_enumerate {A : Type} (xs : list A) (i : nat) (x : A) :
  In (i, x) (enumerate xs) <-> nth_error xs i = Some x.
Proof.
  unfold enumerate.
  assert (G : forall k, In (i, x) (combine (seq k (List.length xs)) xs) <->
                        k <= i /\ nth_error xs (i - k) = Some x).
  { induction xs as [|a xs IH]; intros k; simpl.
    - split; [intros [] | intros [_ H]; destruct (i - k); discriminate].
    - rewrite IH. split.
      + intros [[= <- <-] | [Hk H]].
        * split; [lia|]. now rewrite Nat.sub_diag.
        * split; [lia|]. replace (i - k) with (S (i - S k)) by lia. exact H.
      + intros [Hk H]. destruct (i - k) as [|n] eqn:E.
        * left. injection H as <-. f_equal. lia.
        * right. split; [lia|]. simpl in H.
          replace (i - S k) with n by lia. exact H. }
  rewrite (G 0). rewrite Nat.sub_0_r.
  split; [now intros [_ H] | split; [lia | auto]].
Qed.

Lemma retained_entries (lg : lang) (text_lines : list string) (e : scored) :
  In e (retained lg text_lines) ->
  exists line, nth_error text_lines (index e) = Some line /\
               text e = strip line /\ address_like lg line = true.
Proof.
  unfold retained. intros H. apply in_flat_map in H as ([i line] & Hil & H).
  apply in_enumerate in Hil. unfold retained_entry in H.
  destruct (is_date_line lg line) eqn:Hd; [destruct H|]. simpl in H.
  destruct (0 <? line_score lg line)%Z eqn:Hs; [|destruct H].
  destruct H as [<- | []]. simpl. exists line.
  split; [exact Hil|]. split; [reflexivity|].
  apply positive_score_address_like; [exact Hd | now apply Z.ltb_lt].
Qed.

(** A candidate is one retained entry, or two retained entries of
    consecutive indices. *)
Lemma merge_pairs_members (xs : list scored) (c : candidate) :
  In c (merge_pairs xs) ->
  (exists x, In x xs /\ c = standalone x) \/
  (exists x y, In x xs /\ In y xs /\ index y = index x + 1 /\ c = merged x y).
Proof.
  assert (G : forall n ys, List.length ys <= n -> In c (merge_pairs ys) ->
    (exists x, In x ys /\ c = standalone x) \/
    (exists x y, In x ys /\ In y ys /\ index y = index x + 1 /\ c = merged x y)).
  { induction n as [|n IH]; intros ys Hlen Hc.
    - destruct ys; [destruct Hc | simpl in Hlen; lia].
    - destruct ys as [|x [|y rest]]; [destruct Hc | |].
      + destruct Hc as [<- | []]. left. exists x. split; [now left | reflexivity].
      + cbn [merge_pairs] in Hc.
        destruct (Nat.eqb (index y) (index x + 1)) eqn:E.
        * destruct Hc as [<- | Hc].
          -- right. exists x, y. apply Nat.eqb_eq in E.
             repeat split; [now left | right; now left | exact E].
          -- destruct (IH rest ltac:(simpl in Hlen; lia) Hc)
               as [(a & Ha & ->) | (a & b & Ha & Hb & Hi & ->)].
             ++ left. exists a. split; [right; now right | reflexivity].
             ++ right. exists a, b.
                repeat split; [right; now right | right; now right | exact Hi].
        * destruct Hc as [<- | Hc].
          -- left. exists x. split; [now left | reflexivity].
          -- destruct (IH (y :: rest) ltac:(simpl in *; lia) Hc)
               as [(a & Ha & ->) | (a & b & Ha & Hb & Hi & ->)].
             ++ left. exists a. split; [now right | reflexivity].
             ++ right. exists a, b.
                repeat split; [now right | now right | exact Hi]. }
  apply (G (List.length xs)). lia.
Qed.

(** X8. The location is never made up: it is [null], or the trimmed
    text of one line, or the trimmed texts of two consecutive lines
    joined by a space; and every line it is made of matches no date
    pattern, has no disqualifying token (TEL, FAX, TAX, ...) and has an
    address keyword, a postal code or a locality code. *)
Theorem location_is_made_of_lines
    (now : datetime) (text_lines : list string) (name : string) :
  let lg := detect_language text_lines in
  let loc := location (extract_info now text_lines name) in
  loc = "null" \/
  (exists i l, nth_error text_lines i = Some l /\ address_like lg l = true /\
               loc = strip l) \/
  (exists i l1 l2,
      nth_error text_lines i = Some l1 /\
      nth_error text_lines (i + 1) = Some l2 /\
      address_like lg l1 = true /\ address_like lg l2 = true /\
      loc = strip l1 ++ " " ++ strip l2).
Proof.
  intros lg loc.
  assert (Hloc : loc = extract_location lg text_lines).
  { subst loc lg. destruct text_lines; reflexivity. }
  rewrite Hloc. unfold extract_location. rewrite final_candidates_pairs.
  destruct (merge_pairs (retained lg text_lines)) as [|c cs] eqn:E; [now left|].
  right. pose proof (max_by_score_in c cs) as Hin. rewrite <- E in Hin.
  apply merge_pairs_members in Hin
    as [(x & Hx & ->) | (x & y & Hx & Hy & Hi & ->)].
  - left. destruct (retained_entries _ _ _ Hx) as (l & Hn & Ht & Ha).
    exists (index x), l. simpl. rewrite Ht. auto.
  - right. destruct (retained_entries _ _ _ Hx) as (l1 & Hn1 & Ht1 & Ha1).
    destruct (retained_entries _ _ _ Hy) as (l2 & Hn2 & Ht2 & Ha2).
    exists (index x), l1, l2. simpl. rewrite Ht1, Ht2, <- Hi. auto.
Qed.

(** ** The date field and the fallback *)

(** The least number of characters that a match of [r] consumes. *)
Fixpoint min_len (r : re) : nat :=
  match r with
  | Cls _ => 1
  | Seq r1 r2 => min_len r1 + min_len r2
  | Alt r1 r2 => Nat.min (min_len r1) (min_len r2)
  | Grp _ r1 => min_len r1
  | _ => 0
  end.

Lemma run_min_len r p s g p' s' g' :
  run r p s g p' s' g' -> String.length s' + min_len r <= String.length s.
Proof.
  induction 1; simpl in *; lia.
Qed.

Lemma run_taken_length r p s g p' s' g' :
  run r p s g p' s' g' -> min_len r <= String.length (taken s s').
Proof.
  intros R. pose proof (run_min_len _ _ _ _ _ _ _ R) as L.
  destruct (run_prefix _ _ _ _ _ _ _ R) as [t ->].
  rewrite taken_append. rewrite length_append in L. lia.
Qed.

(** The token of a match starts with a character other than an opening
    parenthesis, and is not the text [null]. *)
Lemma raw_of_match_start (lg : lang) (pat : pattern) (line : string)
    (m : rmatch) :
  In pat (date_patterns lg) ->
  search_p pat line = Some m ->
  exists c t, raw_of_match lg pat m = String c t /\
              Ascii.eqb c "(" = false /\ raw_of_match lg pat m <> "null".
Proof.
  intros Hin H. unfold search_p, search in H.
  apply search_from_match in H as (p & s & H).
  assert (Hnum : forall c t, group 1 (m_caps m) = String c t ->
                             is_digit c = true ->
            exists c' t', replace_char " " "" (group 1 (m_caps m)) = String c' t'
              /\ Ascii.eqb c' "(" = false
              /\ replace_char " " "" (group 1 (m_caps m)) <> "null").
  { intros c t -> Hc. simpl. rewrite (digit_not_space c Hc).
    exists c, (replace_char " " "" t). split; [reflexivity|]. split.
    - destruct (Ascii.eqb_spec c "(") as [-> |]; [discriminate | reflexivity].
    - intros [= -> _]. discriminate. }
  destruct lg; simpl in Hin.
  - destruct Hin as [<- | []]. simpl in H.
    destruct (group1_starts_with_digit (dmy (Seq D D) (Seq D D) D24) Bnd p s m
                eq_refl (or_intror eq_refl) H)
      as (c & t & Hg & Hc).
    unfold raw_of_match. simpl. eapply Hnum; eauto.
  - destruct Hin as [<- | [<- | [<- | []]]]; simpl in H.
    + assert (H' : match_at (Seq Bnd (Seq (Grp 1 (dmy D12 D12 (Seq D (Seq D (Seq D D))))) Eps)) p s
                   = Some m) by exact H.
      destruct (group1_starts_with_digit
                  (dmy D12 D12 (Seq D (Seq D (Seq D D)))) Eps p s m
                  eq_refl (or_introl eq_refl) H')
        as (c & t & Hg & Hc).
      unfold raw_of_match. simpl. eapply Hnum; eauto.
    + destruct (group1_starts_with_digit (dmy D12 D12 (Seq D D)) Bnd p s m
                  eq_refl (or_intror eq_refl) H)
        as (c & t & Hg & Hc).
      unfold raw_of_match. simpl. eapply Hnum; eauto.
    + apply match_at_run in H as (p' & s' & g' & R & ->).
      unfold raw_of_match. simpl.
      pose proof (run_taken_length _ _ _ _ _ _ _ R) as L.
      match type of R with
      | run ?r _ _ _ _ _ _ =>
          destruct (first_class r) as [f|] eqn:Ef; [|discriminate Ef];
          assert (Hparen : f "("%char = false)
            by (injection Ef as <-; reflexivity)
      end.
      destruct (run_first_class _ _ _ _ _ _ _ _ R Ef) as (c & t & E & Hc).
      rewrite E in *.
      change (String c (t ++ s')%string) with (String c t ++ s')%string in *.
      rewrite taken_append in *.
      exists c, t. split; [reflexivity|]. split.
      * destruct (Ascii.eqb_spec c "(") as [-> |]; [congruence | reflexivity].
      * intros E4. rewrite E4 in L. simpl in L. lia.
Qed.

Lemma normalize_date_start (raw : string) (lg : lang) (c : ascii) (t : string) :
  raw = String c t -> Ascii.eqb c "(" = false -> raw <> "null" ->
  exists c' t', normalize_date raw lg = String c' t' /\
                Ascii.eqb c' "(" = false /\ normalize_date raw lg <> "null".
Proof.
  intros E Hc Hn.
  destruct (normalize_date_shape raw lg) as [-> | (d & _ & ->)].
  - exists c, t. auto.
  - exists (digit_char (day d / 10)),
      (String (digit_char (day d))
         ("/" ++ pad2 (month d) ++ "/" ++ year_text (year d))).
    split; [reflexivity|].
    pose proof (digit_char_is_digit (day d / 10)) as Hd. split.
    + destruct (Ascii.eqb_spec (digit_char (day d / 10)) "(") as [E1|];
        [rewrite E1 in Hd; discriminate | reflexivity].
    + unfold strftime_dmY, pad2. cbn [append]. intros E1. discriminate E1.
Qed.

(** The date of a sequence in which some line matches a date pattern. *)
Lemma extract_date_matched (now : datetime) (lg : lang)
    (text_lines : list string) (l : string) :
  In l text_lines -> is_date_line lg l = true ->
  exists c t, extract_date now lg text_lines = String c t /\
              Ascii.eqb c "(" = false /\
              extract_date now lg text_lines <> "null".
Proof.
  intros Hin Hl. unfold extract_date.
  destruct (find_raw_date lg text_lines) as [raw|] eqn:E.
  - rewrite find_raw_date_lines in E.
    apply first_some_Some in E as (i & x & Hi & Hx & _).
    unfold line_token in Hx.
    apply first_some_Some in Hx as (q & pat & Hq & Hpat & _).
    destruct (search_p pat x) as [m|] eqn:Hm; [|discriminate].
    apply nth_error_In in Hq.
    destruct (raw_of_match_start lg pat x m Hq Hm) as (c & t & Hraw & Hc & Hn).
    simpl in Hpat. injection Hpat as <-. rewrite Hraw in *.
    now apply (normalize_date_start (String c t) lg c t).
  - rewrite find_raw_date_lines in E. rewrite first_some_None in E.
    specialize (E l Hin). apply line_token_None in E. congruence.
Qed.

(** X9. The parentheses mark the fallback and nothing else: for a
    non-empty line sequence the date field starts with an opening
    parenthesis exactly when no line matches a date pattern of the
    locale, and it is then the current date in parentheses. *)
Theorem parentheses_mark_fallback
    (now : datetime) (text_lines : list string) (name : string) :
  text_lines <> [] ->
  let lg := detect_language text_lines in
  let d := date (extract_info now text_lines name) in
  (head d = Some "("%char <->
   forall l, In l text_lines -> is_date_line lg l = false) /\
  ((forall l, In l text_lines -> is_date_line lg l = false) ->
   d = "(" ++ strftime_dmY now ++ ")").
Proof.
  intros Hne lg d.
  assert (Hd : d = extract_date now lg text_lines).
  { subst d lg. destruct text_lines; [contradiction | reflexivity]. }
  rewrite Hd.
  assert (Hfall : (forall l, In l text_lines -> is_date_line lg l = false) ->
                  extract_date now lg text_lines = "(" ++ strftime_dmY now ++ ")").
  { intros Hnone. unfold extract_date. rewrite find_raw_date_lines.
    assert (H : first_some (line_token lg) text_lines = None).
    { apply first_some_None. intros l Hl. apply line_token_None. auto. }
    now rewrite H. }
  split; [|exact Hfall]. split.
  - intros Hhead l Hl. destruct (is_date_line lg l) eqn:E; [|reflexivity].
    destruct (extract_date_matched now lg text_lines l Hl E)
      as (c & t & Hc & Hparen & _).
    rewrite Hc in Hhead. simpl in Hhead. injection Hhead as ->. discriminate.
  - intros Hnone. now rewrite (Hfall Hnone).
Qed.

Lemma parentheses_mark_fallback_witness :
  undated_lines <> [] /\
  date (extract_info a_day undated_lines "r.jpg") = "(09/03/2024)".
Proof.
  assert (Hne : undated_lines <> []) by discriminate.
  split; [exact Hne|].
  apply (proj2 (parentheses_mark_fallback a_day undated_lines "r.jpg" Hne)).
  intros l [<- | []]. reflexivity.
Defined.

(** X10. The record of all sentinels is returned for the empty sequence
    only: for a non-empty one the currency is EUR or USD and the date is
    never [null], whatever the lines hold. *)
Theorem null_record_iff_empty
    (now : datetime) (text_lines : list string) (name : string) :
  (extract_info now text_lines name = null_record name <-> text_lines = []) /\
  (text_lines <> [] ->
   let r := extract_info now text_lines name in
   (currency r = "EUR" \/ currency r = "USD") /\ date r <> "null").
Proof.
  assert (G : text_lines <> [] ->
    let r := extract_info now text_lines name in
    (currency r = "EUR" \/ currency r = "USD") /\ date r <> "null").
  { intros Hne. cbv zeta. destruct text_lines as [|l0 ls]; [contradiction|].
    set (lines := l0 :: ls). set (lg := detect_language lines).
    change (currency (extract_info now lines name))
      with (detect_currency lg lines).
    change (date (extract_info now lines name))
      with (extract_date now lg lines).
    split; [apply detect_currency_code|].
    destruct (existsb (is_date_line lg) lines) eqn:E.
    - apply existsb_exists in E as (l & Hl & Hd).
      now destruct (extract_date_matched now lg lines l Hl Hd)
        as (_ & _ & _ & _ & Hn).
    - unfold extract_date. rewrite find_raw_date_lines.
      assert (H : first_some (line_token lg) lines = None).
      { apply first_some_None. intros l Hl. apply line_token_None.
        destruct (is_date_line lg l) eqn:Hd; [|reflexivity].
        assert (X : existsb (is_date_line lg) lines = true)
          by (apply existsb_exists; eauto).
        congruence. }
      rewrite H. discriminate. }
  split; [|exact G]. split.
  - intros H. destruct text_lines as [|l0 ls]; [reflexivity|].
    destruct (G ltac:(discriminate)) as [[Hc | Hc] _];
      rewrite H in Hc; discriminate.
  - intros ->. reflexivity.
Qed.

(** ** The summary *)

Lemma sorted_filter (f : string -> bool) (ks : list string) :
  StronglySorted key_lt ks -> StronglySorted key_lt (filter f ks).
Proof.
  induction 1 as [|k ks Hs IH Hall]; simpl; [constructor|].
  destruct (f k); [|exact IH]. constructor; [exact IH|].
  rewrite Forall_forall in *. intros x Hx. apply filter_In in Hx as [Hx _]. auto.
Qed.

(** X11. The summary records come in increasing order of their currency
    code, whatever the order in which the currencies appear in the
    records. *)
Theorem summary_rows_sorted (data_list : list receipt) :
  StronglySorted (fun a b => String.compare a b = Lt)
                 (map currency (summary_rows data_list)).
Proof.
  unfold summary_rows. rewrite summary_currencies.
  apply (sorted_filter not_null).
  apply (proj1 (currency_sums_spec data_list)).
Qed.

(** ** One receipt written on its own ([save_to_excel]) *)

(** [save_to_excel(data, filename)] is [save_all_to_excel([data], filename)]. *)
Definition save_to_excel (data : receipt) : option (list receipt) :=
  save_all_to_excel [data].

Lemma digits_from_uint_acc (l : Decimal.uint) :
  forall acc : positive,
    digits_from (Zpos acc) (NilEmpty.string_of_uint l)
    = Zpos (Pos.of_uint_acc l acc).
Proof.
  induction l; intros acc;
    cbn [NilEmpty.string_of_uint digits_from Pos.of_uint_acc];
    [reflexivity|..];
    rewrite <- IHl; f_equal;
    match goal with
    | |- context [digit_value ?c] =>
        let v := eval vm_compute in (digit_value c) in
        change (digit_value c) with v
    end; lia.
Qed.

Lemma digits_from_uint (l : Decimal.uint) :
  digits_from 0 (NilEmpty.string_of_uint l) = Z.of_N (Pos.of_uint l).
Proof.
  induction l; cbn [NilEmpty.string_of_uint digits_from Pos.of_uint];
    [reflexivity | exact IHl |..];
    match goal with
    | |- digits_from ?a _ = Z.of_N (Npos (Pos.of_uint_acc _ ?b)) =>
        change a with (Zpos b)
    end; apply digits_from_uint_acc.
Qed.

(** Reading back the decimal writing of a number. *)
Lemma int_of_string_of_nonneg (n : Z) :
  (0 <= n)%Z -> int_of_digits (string_of_nonneg n) = n.
Proof.
  intros Hn. unfold int_of_digits, string_of_nonneg, NilZero.string_of_uint.
  pose proof (DecimalN.Unsigned.of_to (Z.to_N n)) as E.
  unfold N.of_uint in E.
  destruct (N.to_uint (Z.to_N n)) eqn:U;
    try (rewrite digits_from_uint, E; lia).
  change (digits_from 0 "0") with 0%Z. simpl in E. lia.
Qed.

Lemma digits_from_append (a b : string) (acc : Z) :
  digits_from acc (a ++ b) = digits_from (digits_from acc a) b.
Proof.
  revert acc. induction a as [|c a IH]; intros acc; simpl; [reflexivity|].
  apply IH.
Qed.
(** The two-decimal writing of a count of hundredths reads back as that
    count. *)
Lemma to_numeric_hundredths (c : Z) :
  (0 <= c)%Z -> to_numeric (string_of_hundredths c) = Some (Fin c).
Proof.
  intros Hc. unfold to_numeric.
  pose proof (string_of_nonneg_digits (c / 100)) as Hd.
  assert (Hinf : String.eqb (string_of_hundredths c) "inf" = false).
  { unfold string_of_hundredths.
    destruct (string_of_nonneg (c / 100)) as [|a q]; [discriminate|].
    unfold nonempty_digits in Hd. cbn [all_char] in Hd.
    apply andb_true_iff in Hd as [Ha _]. cbn [append String.eqb].
    destruct (Ascii.eqb_spec a "i") as [-> |]; [discriminate | reflexivity]. }
  rewrite Hinf. unfold string_of_hundredths.
  change ("." ++ two_digits (c mod 100))%string
    with (String "." (two_digits (c mod 100))).
  rewrite split_at_digits by now apply nonempty_digits_all.
  rewrite Hd. unfold two_digits. cbn [all_char String.length].
  rewrite !digit_char_is_digit. cbn [andb Nat.eqb].
  f_equal. f_equal. unfold int_of_digits. rewrite digits_from_append.
  fold (int_of_digits (string_of_nonneg (c / 100))).
  rewrite int_of_string_of_nonneg by (apply Z.div_pos; lia).
  cbn [digits_from].
  rewrite !Canonical.digit_value_char.
  pose proof (Z.mod_pos_bound c 100 ltac:(lia)).
  Z.div_mod_to_equations. lia.
Qed.

Lemma div_half_even_nonneg (a b : Z) :
  (0 <= a)%Z -> (0 < b)%Z -> (0 <= div_half_even a b)%Z.
Proof.
  intros Ha Hb. unfold div_half_even.
  pose proof (Z.div_pos a b Ha Hb).
  destruct (2 * (a mod b) ?= b)%Z; [destruct (Z.even (a / b))|..]; lia.
Qed.

Lemma hundredths_nonneg (m : positive) (e : Z) : (0 <= hundredths m e)%Z.
Proof.
  unfold hundredths. destruct (0 <=? e)%Z eqn:E.
  - apply Z.leb_le in E. pose proof (Z.pow_nonneg 2 e ltac:(lia)). nia.
  - apply Z.leb_gt in E. apply div_half_even_nonneg; [lia|].
    apply Z.pow_pos_nonneg; lia.
Qed.

(** What the total field of a record reads as: nothing for [null], the
    amount itself otherwise. *)
Lemma total_field_numeric (v : option float) :
  (total_field v = "null" /\ to_numeric (total_field v) = None) \/
  (total_field v <> "null" /\
   exists a, to_numeric (total_field v) = Some a /\
             format_amount a = total_field v).
Proof.
  destruct v as [x|]; [|now left]. unfold total_field.
  destruct (ltb (of_Z 0) x) eqn:E; [|now left]. right.
  destruct x as [s|[|]| |[|] m e]; try discriminate E.
  - split; [discriminate|]. exists Inf. split; reflexivity.
  - cbn [format_2f sign_text]. change ("" ++ ?s)%string with s.
    pose proof (hundredths_nonneg m e) as Hh.
    rewrite (to_numeric_hundredths _ Hh). split.
    + intros H. pose proof (string_of_hundredths_shape (hundredths m e)) as S.
      rewrite H in S. discriminate S.
    + exists (Fin (hundredths m e)). split; [reflexivity|].
      unfold format_amount.
      destruct (hundredths m e <? 0)%Z eqn:L; [|reflexivity].
      apply Z.ltb_lt in L. lia.
Qed.


(** ** The order of the date formats *)

Module Formats.

Local Open Scope Z_scope.
Local Arguments taken : simpl never.

Section Choices.
Context {A : Type}.
Variables (prev : option ascii) (rest : string) (g : caps).
Variable k : option ascii -> string -> caps -> option A.

(** [%d] on two digits of a number from 1 to 31: the two digits are
    tried first, then, unless the first is a zero, the first digit
    alone. *)
Lemma exec_day_choices (n : Z) :
  1 <= n <= 31 ->
  exec re_d prev (String (digit_char (n / 10)) (String (digit_char n) rest))
       g k
  = match k (Some (digit_char n)) rest ((g_d, pad2 n) :: g) with
    | Some x => Some x
    | None =>
        if n <? 10 then None
        else k (Some (digit_char (n / 10))) (String (digit_char n) rest)
               ((g_d, String (digit_char (n / 10)) "") :: g)
    end.
Proof.
  assert (G : forall i : nat, (i < 31)%nat ->
    let n := 1 + Z.of_nat i in
    exec re_d prev (String (digit_char (n / 10)) (String (digit_char n) rest))
         g k
    = match k (Some (digit_char n)) rest ((g_d, pad2 n) :: g) with
      | Some x => Some x
      | None =>
          if n <? 10 then None
          else k (Some (digit_char (n / 10))) (String (digit_char n) rest)
                 ((g_d, String (digit_char (n / 10)) "") :: g)
      end).
  { intros i Hi.
    do 31 (destruct i as [|i];
           [cbv zeta; Canonical.closed_digits; unfold re_d; simpl;
            rewrite ?Canonical.taken_two, ?Canonical.taken_one;
            repeat match goal with
                   | |- context [match k ?a ?b ?c with _ => _ end] =>
                       destruct (k a b c)
                   end; reflexivity|]).
    lia. }
  intros Hr.
  replace n with (1 + Z.of_nat (Z.to_nat (n - 1))) by lia.
  apply G. lia.
Qed.

(** [%m] on two digits of a number from 1 to 12, in the same way. *)
Lemma exec_month_choices (n : Z) :
  1 <= n <= 12 ->
  exec re_m prev (String (digit_char (n / 10)) (String (digit_char n) rest))
       g k
  = match k (Some (digit_char n)) rest ((g_m, pad2 n) :: g) with
    | Some x => Some x
    | None =>
        if n <? 10 then None
        else k (Some (digit_char (n / 10))) (String (digit_char n) rest)
               ((g_m, String (digit_char (n / 10)) "") :: g)
    end.
Proof.
  assert (G : forall i : nat, (i < 12)%nat ->
    let n := 1 + Z.of_nat i in
    exec re_m prev (String (digit_char (n / 10)) (String (digit_char n) rest))
         g k
    = match k (Some (digit_char n)) rest ((g_m, pad2 n) :: g) with
      | Some x => Some x
      | None =>
          if n <? 10 then None
          else k (Some (digit_char (n / 10))) (String (digit_char n) rest)
                 ((g_m, String (digit_char (n / 10)) "") :: g)
      end).
  { intros i Hi.
    do 12 (destruct i as [|i];
           [cbv zeta; Canonical.closed_digits; unfold re_m; simpl;
            rewrite ?Canonical.taken_two, ?Canonical.taken_one;
            repeat match goal with
                   | |- context [match k ?a ?b ?c with _ => _ end] =>
                       destruct (k a b c)
                   end; reflexivity|]).
    lia. }
  intros Hr.
  replace n with (1 + Z.of_nat (Z.to_nat (n - 1))) by lia.
  apply G. lia.
Qed.

(** [%m] on the two digits of a number from 13 to 31 takes the first
    digit only. *)
Lemma exec_month_late (n : Z) :
  13 <= n <= 31 ->
  exec re_m prev (String (digit_char (n / 10)) (String (digit_char n) rest))
       g k
  = k (Some (digit_char (n / 10))) (String (digit_char n) rest)
      ((g_m, String (digit_char (n / 10)) "") :: g).
Proof.
  assert (G : forall i : nat, (i < 19)%nat ->
    let n := 13 + Z.of_nat i in
    exec re_m prev (String (digit_char (n / 10)) (String (digit_char n) rest))
         g k
    = k (Some (digit_char (n / 10))) (String (digit_char n) rest)
        ((g_m, String (digit_char (n / 10)) "") :: g)).
  { intros i Hi.
    do 19 (destruct i as [|i];
           [cbv zeta; Canonical.closed_digits; unfold re_m; simpl;
            rewrite ?Canonical.taken_two, ?Canonical.taken_one;
            repeat match goal with
                   | |- context [match k ?a ?b ?c with _ => _ end] =>
                       destruct (k a b c)
                   end; reflexivity|]).
    lia. }
  intros Hr.
  replace n with (13 + Z.of_nat (Z.to_nat (n - 13))) by lia.
  apply G. lia.
Qed.

(** [\s+] does not start on a digit. *)
Lemma exec_spaces_digit (c : ascii) :
  is_digit c = true ->
  exec (Many1 is_space) prev (String c rest) g k = None.
Proof.
  intros H. unfold Many1. cbn [exec].
  now rewrite (Canonical.digit_not_is_space c H).
Qed.

(** [%Y] needs four characters. *)
Lemma exec_year_short (y1 y2 : ascii) :
  exec re_Y prev (String y1 (String y2 "")) g k = None.
Proof.
  unfold re_Y, D. cbn [exec].
  destruct (is_digit y1); [|reflexivity]. now destruct (is_digit y2).
Qed.

(** [%y] on two digits. *)
Lemma exec_short_year (y1 y2 : ascii) :
  is_digit y1 = true -> is_digit y2 = true ->
  exec re_y prev (String y1 (String y2 rest)) g k
  = k (Some y2) rest ((g_y, String y1 (String y2 "")) :: g).
Proof.
  intros H1 H2. unfold re_y, D. cbn [exec].
  now rewrite H1, H2, Canonical.taken_two.
Qed.

End Choices.

Ltac digit_side :=
  first [ apply digit_char_is_digit
        | apply Canonical.digit_not_is_space, digit_char_is_digit ].

(** A date written month first, the day above 12, does not match a
    format that starts with the day and the month. *)
Lemma match_day_first_swapped (R : re) (m dd : Z) (rest : string) :
  1 <= m <= 12 -> 13 <= dd <= 31 ->
  match_at (Seq re_d (Seq (Many1 is_space)
              (Seq re_m (Seq (Many1 is_space) R))))
           None (pad2 m ++ " " ++ pad2 dd ++ rest)
  = None.
Proof.
  intros Hm Hd. unfold match_at, pad2. cbn [append exec].
  rewrite exec_day_choices by lia. cbv beta.
  rewrite Canonical.exec_one_space by digit_side.
  rewrite exec_month_late by lia.
  rewrite !exec_spaces_digit by digit_side.
  now destruct (m <? 10).
Qed.

Lemma format_dmy :
  format_regex "%d %m %y"
  = Some (Seq re_d (Seq (Many1 is_space)
            (Seq re_m (Seq (Many1 is_space) (Seq re_y Eps))))).
Proof. reflexivity. Qed.

Lemma strptime_day_first_swapped (d : datetime) (fmt : string) :
  valid d = true -> 12 < day d ->
  fmt = "%d %m %Y"%string \/ fmt = "%d %m %y"%string ->
  strptime (pad2 (month d) ++ " " ++ pad2 (day d) ++ " " ++ pad4 (year d))
           fmt = None.
Proof.
  intros Hv Hd Hf. destruct (Canonical.valid_ranges d Hv) as (_ & Hm & Hd').
  unfold strptime.
  destruct Hf as [-> | ->].
  - rewrite Canonical.format_dmY.
    now rewrite match_day_first_swapped by lia.
  - rewrite format_dmy.
    now rewrite match_day_first_swapped by lia.
Qed.

Lemma format_mdY :
  format_regex "%m %d %Y"
  = Some (Seq re_m (Seq (Many1 is_space)
            (Seq re_d (Seq (Many1 is_space) (Seq re_Y Eps))))).
Proof. reflexivity. Qed.

(** A date written month first parses by the month-first format. *)
Lemma strptime_month_first (d : datetime) :
  valid d = true ->
  strptime (pad2 (month d) ++ " " ++ pad2 (day d) ++ " " ++ pad4 (year d))
           "%m %d %Y" = Some d.
Proof.
  intros Hv. destruct (Canonical.valid_ranges d Hv) as (Hy & Hm & Hd).
  unfold strptime. rewrite format_mdY.
  set (text := (pad2 (month d) ++ " " ++ pad2 (day d) ++ " "
                ++ pad4 (year d))%string).
  assert (Hmatch : match_at
            (Seq re_m (Seq (Many1 is_space)
               (Seq re_d (Seq (Many1 is_space) (Seq re_Y Eps)))))
            None text
          = Some {| m_text := taken text "";
                    m_caps := [(g_Y, pad4 (year d)); (g_d, pad2 (day d));
                               (g_m, pad2 (month d))];
                    m_rest := "" |}).
  { unfold match_at. generalize (taken text) as tk. intros tk.
    subst text. unfold pad4, pad2. cbn [append]. cbn [exec].
    apply Canonical.exec_month; [exact Hm|]. cbv beta.
    rewrite Canonical.exec_one_space by digit_side.
    apply Canonical.exec_day; [exact Hd|]. cbv beta.
    rewrite Canonical.exec_one_space by digit_side.
    rewrite Canonical.exec_year by apply digit_char_is_digit.
    reflexivity. }
  rewrite Hmatch. cbn [m_rest m_caps].
  unfold fields_of.
  change (has_group g_Y _) with true. change (has_group g_m _) with true.
  change (has_group g_d _) with true. cbv iota.
  change (group g_Y _) with (pad4 (year d)).
  change (group g_m _) with (pad2 (month d)).
  change (group g_d _) with (pad2 (day d)).
  rewrite Canonical.int_of_text_pad4, !Canonical.int_of_text_pad2 by lia.
  destruct d as [y m dd]. cbn [year month day] in *. now rewrite Hv.
Qed.

(** The text [dd/mm/yy] and its repaired form, character by
    character. *)
Definition dmy_short (sep d1 d2 m1 m2 y1 y2 : ascii) : string :=
  String d1 (String d2 (String sep (String m1 (String m2 (String sep
    (String y1 (String y2 EmptyString))))))).

Lemma clean_date_short (d1 d2 m1 m2 y1 y2 : ascii) :
  is_digit d1 = true -> is_digit d2 = true ->
  is_digit m1 = true -> is_digit m2 = true ->
  is_digit y1 = true -> is_digit y2 = true ->
  clean_date (dmy_short "/" d1 d2 m1 m2 y1 y2)
  = dmy_short " " d1 d2 m1 m2 y1 y2.
Proof.
  intros Hd1 Hd2 Hm1 Hm2 Hy1 Hy2.
  pose proof (Canonical.digit_not_apostrophe _ Hd1) as Ad1.
  pose proof (Canonical.digit_not_apostrophe _ Hd2) as Ad2.
  pose proof (Canonical.digit_not_apostrophe _ Hm1) as Am1.
  pose proof (Canonical.digit_not_apostrophe _ Hm2) as Am2.
  pose proof (Canonical.digit_not_apostrophe _ Hy1) as Ay1.
  pose proof (Canonical.digit_not_apostrophe _ Hy2) as Ay2.
  pose proof (Canonical.digit_not_is_space _ Hd1) as Sd1.
  pose proof (Canonical.digit_not_is_space _ Hd2) as Sd2.
  pose proof (Canonical.digit_not_is_space _ Hm1) as Sm1.
  pose proof (Canonical.digit_not_is_space _ Hm2) as Sm2.
  pose proof (Canonical.digit_not_is_space _ Hy1) as Sy1.
  pose proof (Canonical.digit_not_is_space _ Hy2) as Sy2.
  pose proof (Canonical.digit_is_word _ Hd1) as Wd1.
  pose proof (Canonical.digit_is_word _ Hd2) as Wd2.
  pose proof (Canonical.digit_is_word _ Hm1) as Wm1.
  pose proof (Canonical.digit_is_word _ Hm2) as Wm2.
  pose proof (Canonical.digit_is_word _ Hy1) as Wy1.
  pose proof (Canonical.digit_is_word _ Hy2) as Wy2.
  unfold clean_date, sub.
  assert (Hplain : Canonical.plain (dmy_short "/" d1 d2 m1 m2 y1 y2) = true).
  { unfold Canonical.plain, dmy_short. cbn [all_char].
    rewrite Ad1, Ad2, Am1, Am2, Ay1, Ay2. reflexivity. }
  rewrite (Canonical.sub_apostrophe_plain _ _ Hplain).
  rewrite (Canonical.replace_apostrophe_plain _ _ Hplain).
  unfold re_punctuation.
  change (fun _ : rmatch => " "%string) with (fun _ : rmatch => String " " "").
  rewrite Canonical.sub_class.
  assert (Hmap : Canonical.map_class
                   (fun c => negb (is_word c || is_space c)) " "
                   (dmy_short "/" d1 d2 m1 m2 y1 y2)
                 = dmy_short " " d1 d2 m1 m2 y1 y2).
  { unfold dmy_short. cbn [Canonical.map_class].
    rewrite Wd1, Wd2, Wm1, Wm2, Wy1, Wy2. reflexivity. }
  rewrite Hmap.
  rewrite Canonical.sub_spaces_single.
  - unfold strip, dmy_short. cbn [lstrip]. rewrite Sd1.
    exact (Canonical.rstrip_last
             (String d1 (String d2 (String " " (String m1 (String m2
                (String " " (String y1 "")))))))
             y2 Sy2).
  - unfold dmy_short. cbn [Canonical.single_spaced].
    rewrite Sd1, Sd2, Sm1, Sm2, Sy1, Sy2. reflexivity.
Qed.

(** A date with a two-digit year does not match the format of the
    four-digit year. *)
Lemma strptime_long_year_short (dd m : Z) (y1 y2 : ascii) :
  1 <= dd <= 31 -> 1 <= m <= 12 -> is_digit y1 = true ->
  strptime (pad2 dd ++ " " ++ pad2 m ++ " " ++ String y1 (String y2 ""))
           "%d %m %Y" = None.
Proof.
  intros Hd Hm Hy1. unfold strptime. rewrite Canonical.format_dmY.
  assert (Hmatch : match_at
            (Seq re_d (Seq (Many1 is_space)
               (Seq re_m (Seq (Many1 is_space) (Seq re_Y Eps)))))
            None
            (pad2 dd ++ " " ++ pad2 m ++ " " ++ String y1 (String y2 ""))
          = None).
  { unfold match_at, pad2. cbn [append exec].
    rewrite exec_day_choices by lia. cbv beta.
    rewrite Canonical.exec_one_space by digit_side.
    rewrite exec_month_choices by lia. cbv beta.
    rewrite Canonical.exec_one_space
      by (now apply Canonical.digit_not_is_space).
    rewrite exec_year_short.
    rewrite !exec_spaces_digit by digit_side.
    destruct (m <? 10); now destruct (dd <? 10). }
  now rewrite Hmatch.
Qed.


(** A date with a two-digit year parses by the second format; the year
    is read in the century that puts it between 1969 and 2068. *)
Lemma strptime_short_year (d : datetime) :
  valid d = true -> 1969 <= year d <= 2068 ->
  strptime (pad2 (day d) ++ " " ++ pad2 (month d) ++ " "
            ++ pad2 (year d mod 100))
           "%d %m %y" = Some d.
Proof.
  intros Hv Hc. destruct (Canonical.valid_ranges d Hv) as (Hy & Hm & Hd).
  unfold strptime. rewrite format_dmy.
  set (text := (pad2 (day d) ++ " " ++ pad2 (month d) ++ " "
                ++ pad2 (year d mod 100))%string).
  assert (Hmatch : match_at
            (Seq re_d (Seq (Many1 is_space)
               (Seq re_m (Seq (Many1 is_space) (Seq re_y Eps)))))
            None text
          = Some {| m_text := taken text "";
                    m_caps := [(g_y, pad2 (year d mod 100));
                               (g_m, pad2 (month d)); (g_d, pad2 (day d))];
                    m_rest := "" |}).
  { unfold match_at. generalize (taken text) as tk. intros tk.
    subst text. unfold pad2. cbn [append]. cbn [exec].
    apply Canonical.exec_day; [exact Hd|]. cbv beta.
    rewrite Canonical.exec_one_space by digit_side.
    apply Canonical.exec_month; [exact Hm|]. cbv beta.
    rewrite Canonical.exec_one_space by digit_side.
    rewrite exec_short_year by apply digit_char_is_digit.
    reflexivity. }
  rewrite Hmatch. cbn [m_rest m_caps].
  unfold fields_of.
  change (has_group g_Y _) with false. change (has_group g_y _) with true.
  change (has_group g_m _) with true.
  change (has_group g_d _) with true. cbv iota.
  change (group g_y _) with (pad2 (year d mod 100)).
  change (group g_m _) with (pad2 (month d)).
  change (group g_d _) with (pad2 (day d)).
  pose proof (Z.mod_pos_bound (year d) 100 ltac:(lia)) as Hb.
  rewrite !Canonical.int_of_text_pad2 by lia.
  assert (Hyear : (if year d mod 100 <=? 68 then 2000 + year d mod 100
                   else 1900 + year d mod 100) = year d).
  { destruct (year d mod 100 <=? 68) eqn:E;
      [apply Z.leb_le in E | apply Z.leb_gt in E];
      Z.div_mod_to_equations; lia. }
  rewrite Hyear.
  destruct d as [y m dd]. cbn [year month day] in *. now rewrite Hv.
Qed.

End Formats.

(** X13. A date written month first, [mm/dd/yyyy], whose day is above
    12 is rewritten day first, the year as [strftime] writes it (without
    its leading zeros when it is below 1000): the two day-first formats
    reject it and the month-first format reads it. *)
Theorem normalize_date_month_first (d : datetime) (lg : lang) :
  valid d = true -> (12 < day d)%Z ->
  normalize_date (pad2 (month d) ++ "/" ++ pad2 (day d) ++ "/"
                  ++ pad4 (year d)) lg
  = strftime_dmY d.
Proof.
  intros Hv Hd. unfold normalize_date.
  set (text := pad2 (month d) ++ "/" ++ pad2 (day d) ++ "/" ++ pad4 (year d)).
  assert (Hguard : String.eqb text "" || String.eqb text "null" = false).
  { unfold text, pad2. cbn [append String.eqb].
    now rewrite (Canonical.digit_not_n _ (digit_char_is_digit _)). }
  rewrite Hguard.
  assert (Hclean : clean_date text
                   = (pad2 (month d) ++ " " ++ pad2 (day d) ++ " "
                      ++ pad4 (year d))%string).
  { change text with
      (Canonical.dmy_text "/" (digit_char (month d / 10)) (digit_char (month d))
         (digit_char (day d / 10)) (digit_char (day d))
         (digit_char (year d / 1000)) (digit_char (year d / 100))
         (digit_char (year d / 10)) (digit_char (year d))).
    apply Canonical.clean_date_canonical; apply digit_char_is_digit. }
  rewrite Hclean. unfold formats. cbn [first_parse].
  rewrite (Formats.strptime_day_first_swapped d "%d %m %Y" Hv Hd)
    by (now left).
  rewrite (Formats.strptime_day_first_swapped d "%d %m %y" Hv Hd)
    by (now right).
  now rewrite (Formats.strptime_month_first d Hv).
Qed.

Definition christmas_24 : datetime := {| year := 2024; month := 12; day := 25 |}.

Lemma normalize_date_month_first_witness :
  valid christmas_24 = true /\ (12 < day christmas_24)%Z /\
  normalize_date "12/25/2024" EN = "25/12/2024".
Proof.
  assert (Hv : valid christmas_24 = true) by reflexivity.
  assert (Hd : (12 < day christmas_24)%Z) by reflexivity.
  split; [exact Hv|]. split; [exact Hd|].
  exact (normalize_date_month_first christmas_24 EN Hv Hd).
Defined.

(** X14. A date written [dd/mm/yy] is read with its year between 1969
    and 2068: the format of the four-digit year rejects it, and the
    format of the two-digit year reads 00 to 68 as 2000 to 2068 and 69 to
    99 as 1969 to 1999. *)
Theorem normalize_date_short_year (d : datetime) (lg : lang) :
  valid d = true -> (1969 <= year d <= 2068)%Z ->
  normalize_date (pad2 (day d) ++ "/" ++ pad2 (month d) ++ "/"
                  ++ pad2 (year d mod 100)) lg
  = strftime_dmY d.
Proof.
  intros Hv Hc. destruct (Canonical.valid_ranges d Hv) as (Hy & Hm & Hd).
  unfold normalize_date.
  set (text := pad2 (day d) ++ "/" ++ pad2 (month d) ++ "/"
               ++ pad2 (year d mod 100)).
  assert (Hguard : String.eqb text "" || String.eqb text "null" = false).
  { unfold text, pad2. cbn [append String.eqb].
    now rewrite (Canonical.digit_not_n _ (digit_char_is_digit _)). }
  rewrite Hguard.
  assert (Hclean : clean_date text
                   = (pad2 (day d) ++ " " ++ pad2 (month d) ++ " "
                      ++ pad2 (year d mod 100))%string).
  { change text with
      (Formats.dmy_short "/" (digit_char (day d / 10)) (digit_char (day d))
         (digit_char (month d / 10)) (digit_char (month d))
         (digit_char (year d mod 100 / 10)) (digit_char (year d mod 100))).
    apply Formats.clean_date_short; apply digit_char_is_digit. }
  rewrite Hclean. unfold formats. cbn [first_parse].
  unfold pad2 at 3.
  rewrite (Formats.strptime_long_year_short (day d) (month d) _ _ Hd Hm)
    by apply digit_char_is_digit.
  fold (pad2 (year d mod 100)).
  now rewrite (Formats.strptime_short_year d Hv Hc).
Qed.

Definition may_23_1999 : datetime := {| year := 1999; month := 5; day := 23 |}.

Lemma normalize_date_short_year_witness :
  valid may_23_1999 = true /\ (1969 <= year may_23_1999 <= 2068)%Z /\
  normalize_date "23/05/99" IT = "23/05/1999".
Proof.
  assert (Hv : valid may_23_1999 = true) by reflexivity.
  assert (Hc : (1969 <= year may_23_1999 <= 2068)%Z)
    by (split; discriminate).
  split; [exact Hv|]. split; [exact Hc|].
  exact (normalize_date_short_year may_23_1999 IT Hv Hc).
Defined.

(** ** The apostrophe before a two-digit year *)

Module Apostrophe.

Lemma sub_step (repl : rmatch -> string) (c : ascii) (s : string)
    (prev : option ascii) :
  Ascii.eqb c apostrophe = false ->
  sub_from re_apostrophe_year repl prev 0 (String c s)
  = String c (sub_from re_apostrophe_year repl (Some c) 0 s).
Proof.
  intros Hc. cbn [sub_from]. unfold match_at, re_apostrophe_year, Chr.
  cbn [exec]. unfold is_char. now rewrite Ascii.eqb_sym, Hc.
Qed.

(** An apostrophe and two digits at the end of the text become [20] and
    the two digits. *)
Lemma sub_year (y1 y2 : ascii) (prev : option ascii) :
  is_digit y1 = true -> is_digit y2 = true ->
  sub_from re_apostrophe_year (fun m => "20" ++ group 1 (m_caps m)) prev 0
           (String apostrophe (String y1 (String y2 "")))
  = String "2" (String "0" (String y1 (String y2 ""))).
Proof.
  intros H1 H2. cbn [sub_from]. unfold match_at, re_apostrophe_year, Chr, D.
  cbn [exec]. unfold is_char. rewrite Ascii.eqb_refl, H1, H2.
  cbn [word_at head]. rewrite (Canonical.digit_is_word _ H2). cbn [xorb].
  rewrite Canonical.taken_two.
  reflexivity.
Qed.

Lemma sub_apostrophe_year (d1 d2 m1 m2 y1 y2 : ascii) :
  is_digit d1 = true -> is_digit d2 = true ->
  is_digit m1 = true -> is_digit m2 = true ->
  is_digit y1 = true -> is_digit y2 = true ->
  sub re_apostrophe_year (fun m => "20" ++ group 1 (m_caps m))
      (String d1 (String d2 (String "/" (String m1 (String m2 (String "/"
         (String apostrophe (String y1 (String y2 "")))))))))
  = Canonical.dmy_text "/" d1 d2 m1 m2 "2" "0" y1 y2.
Proof.
  intros Hd1 Hd2 Hm1 Hm2 Hy1 Hy2. unfold sub.
  rewrite !sub_step
    by first [ now apply Canonical.digit_not_apostrophe | reflexivity ].
  now rewrite sub_year.
Qed.

(** The steps of the repair after the first. *)
Definition clean_rest (clean_str : string) : string :=
  let clean_str := replace_char apostrophe "20" clean_str in
  let clean_str := sub re_punctuation (fun _ => " ") clean_str in
  strip (sub re_spaces (fun _ => " ") clean_str).

Lemma clean_rest_plain (s : string) :
  Canonical.plain s = true -> clean_rest s = clean_date s.
Proof.
  intros H. unfold clean_date, clean_rest.
  assert (E : sub re_apostrophe_year (fun m => "20" ++ group 1 (m_caps m)) s
              = s)
    by (unfold sub; now apply Canonical.sub_apostrophe_plain).
  now rewrite E.
Qed.

Lemma digit_char_mod (a b : Z) :
  (a mod 10 = b mod 10)%Z -> digit_char a = digit_char b.
Proof. unfold digit_char. now intros ->. Qed.

(** The four digits of a year of this century. *)
Lemma pad4_this_century (y : Z) :
  (2000 <= y <= 2099)%Z ->
  pad4 y = String "2" (String "0" (pad2 (y mod 100))).
Proof.
  intros H. unfold pad4, pad2.
  assert (E1 : digit_char (y / 1000) = "2"%char).
  { replace (y / 1000)%Z with 2%Z by (Z.div_mod_to_equations; lia).
    reflexivity. }
  assert (E2 : digit_char (y / 100) = "0"%char).
  { replace (y / 100)%Z with 20%Z by (Z.div_mod_to_equations; lia).
    reflexivity. }
  rewrite E1, E2. do 3 f_equal.
  - apply digit_char_mod. Z.div_mod_to_equations. lia.
  - f_equal. apply digit_char_mod. Z.div_mod_to_equations. lia.
Qed.

End Apostrophe.

(** X15. A date whose year is written as an apostrophe and two digits,
    [dd/mm/'yy], is read as the year 20yy. *)
Theorem normalize_date_apostrophe_year (d : datetime) (lg : lang) :
  valid d = true -> (2000 <= year d <= 2099)%Z ->
  normalize_date (pad2 (day d) ++ "/" ++ pad2 (month d) ++ "/'"
                  ++ pad2 (year d mod 100)) lg
  = strftime_dmY d.
Proof.
  intros Hv Hc. unfold normalize_date.
  set (text := pad2 (day d) ++ "/" ++ pad2 (month d) ++ "/'"
               ++ pad2 (year d mod 100)).
  assert (Hguard : String.eqb text "" || String.eqb text "null" = false).
  { unfold text, pad2. cbn [append String.eqb].
    now rewrite (Canonical.digit_not_n _ (digit_char_is_digit _)). }
  rewrite Hguard.
  assert (Hclean : clean_date text
                   = (pad2 (day d) ++ " " ++ pad2 (month d) ++ " "
                      ++ pad4 (year d))%string).
  { change (clean_date text) with
      (Apostrophe.clean_rest
         (sub re_apostrophe_year (fun m => "20" ++ group 1 (m_caps m)) text)).
    unfold text, pad2. cbn [append].
    rewrite Apostrophe.sub_apostrophe_year by apply digit_char_is_digit.
    rewrite Apostrophe.clean_rest_plain.
    - rewrite Canonical.clean_date_canonical
        by first [ apply digit_char_is_digit | reflexivity ].
      rewrite (Apostrophe.pad4_this_century (year d) Hc). reflexivity.
    - unfold Canonical.plain, Canonical.dmy_text. cbn [all_char].
      rewrite !(Canonical.digit_not_apostrophe _ (digit_char_is_digit _)).
      reflexivity. }
  rewrite Hclean. unfold formats. cbn [first_parse].
  now rewrite (Canonical.strptime_canonical d Hv).
Qed.

Definition may_23_2023 : datetime := {| year := 2023; month := 5; day := 23 |}.

Lemma normalize_date_apostrophe_year_witness :
  valid may_23_2023 = true /\ (2000 <= year may_23_2023 <= 2099)%Z /\
  normalize_date "23/05/'23" IT = "23/05/2023".
Proof.
  assert (Hv : valid may_23_2023 = true) by reflexivity.
  assert (Hc : (2000 <= year may_23_2023 <= 2099)%Z)
    by (split; discriminate).
  split; [exact Hv|]. split; [exact Hc|].
  exact (normalize_date_apostrophe_year may_23_2023 IT Hv Hc).
Defined.

(** ** The summary of extracted records *)

(** Two lists in strictly increasing order with the same members are
    equal. *)
Lemma sorted_members_ext (l1 l2 : list string) :
  StronglySorted key_lt l1 -> StronglySorted key_lt l2 ->
  (forall x, In x l1 <-> In x l2) -> l1 = l2.
Proof.
  assert (Irr : forall a, ~ key_lt a a).
  { intros a H. pose proof (key_lt_neq a a H) as E.
    rewrite String.eqb_refl in E. discriminate. }
  revert l2. induction l1 as [|a l1 IH]; intros [|b l2] S1 S2 H.
  - reflexivity.
  - destruct (proj2 (H b) (or_introl eq_refl)).
  - destruct (proj1 (H a) (or_introl eq_refl)).
  - apply StronglySorted_inv in S1 as [S1 A1].
    apply StronglySorted_inv in S2 as [S2 A2].
    rewrite Forall_forall in A1, A2.
    assert (E : a = b).
    { destruct (proj1 (H a) (or_introl eq_refl)) as [E | Ha]; [now symmetry|].
      destruct (proj2 (H b) (or_introl eq_refl)) as [E | Hb]; [exact E|].
      exfalso. apply (Irr a).
      apply (key_lt_trans a b a); [now apply A1 | now apply A2]. }
    subst b. f_equal. apply IH; auto.
    intros x. split; intros Hx.
    + destruct (proj1 (H x) (or_intror Hx)) as [E | Hx']; [|exact Hx'].
      subst x. exfalso. apply (Irr a). now apply A1.
    + destruct (proj2 (H x) (or_intror Hx)) as [E | Hx']; [|exact Hx'].
      subst x. exfalso. apply (Irr a). now apply A2.
Qed.

(** X16. For records that [extract_info] returned, the summary is one
    record for EUR if some receipt is in EUR, followed by one record for
    USD if some receipt is in USD, and nothing else. *)
Theorem summary_of_extracted_records (data_list : list receipt) :
  (forall r, In r data_list ->
     exists now text_lines name, r = extract_info now text_lines name) ->
  map currency (summary_rows data_list)
  = filter (fun c => has_currency c data_list) ["EUR"; "USD"].
Proof.
  intros Hex. unfold summary_rows. rewrite summary_currencies.
  destruct (currency_sums_spec data_list) as (Hs & Hin & _).
  assert (Hbase : StronglySorted key_lt ["EUR"; "USD"]).
  { repeat constructor. }
  apply sorted_members_ext.
  - now apply sorted_filter.
  - now apply sorted_filter.
  - intros x. rewrite !filter_In, Hin. split.
    + intros [Hx Hn]. split; [|exact Hx].
      unfold has_currency in Hx. apply existsb_exists in Hx as (r & Hr & E).
      apply String.eqb_eq in E. subst x.
      destruct (Hex r Hr) as (now & text_lines & name & ->).
      destruct text_lines as [|l ls].
      * discriminate Hn.
      * destruct (detect_currency_code (detect_language (l :: ls)) (l :: ls))
          as [E | E];
          change (currency (extract_info now (l :: ls) name))
            with (detect_currency (detect_language (l :: ls)) (l :: ls));
          rewrite E; simpl; auto.
    + intros [[<- | [<- | []]] Hx]; split; auto.
Qed.

Definition two_scans : list receipt :=
  [extract_info may_23 ["BAR ROMA"; "TOTALE 5,00"] "a.jpg";
   extract_info may_23 ["DINER"; "TOTAL $ 7.50"] "b.jpg"].

Lemma summary_of_extracted_records_witness :
  (forall r, In r two_scans ->
     exists now text_lines name, r = extract_info now text_lines name) /\
  map currency (summary_rows two_scans) = ["EUR"; "USD"].
Proof.
  assert (H : forall r, In r two_scans ->
     exists now text_lines name, r = extract_info now text_lines name).
  { intros r [<- | [<- | []]]; eauto. }
  split; [exact H | exact (summary_of_extracted_records two_scans H)].
Defined.

(** ** A date with the name of the month *)

Module MonthNames.

Local Open Scope Z_scope.
Local Arguments taken : simpl never.

(** The abbreviated names as they are written on a receipt. *)
Definition month_abbr : list string :=
  ["Jan"; "Feb"; "Mar"; "Apr"; "May"; "Jun";
   "Jul"; "Aug"; "Sep"; "Oct"; "Nov"; "Dec"].

Definition abbr_of (m : Z) : string := nth (Z.to_nat (m - 1)) month_abbr "".

Lemma alpha_not_apostrophe (c : ascii) :
  is_alpha c = true -> Ascii.eqb c apostrophe = false.
Proof.
  intros H. destruct (Ascii.eqb_spec c apostrophe) as [-> |]; [discriminate|].
  reflexivity.
Qed.

Lemma alpha_is_word (c : ascii) : is_alpha c = true -> is_word c = true.
Proof. intros H. unfold is_word. now rewrite H. Qed.

Lemma alpha_not_is_space (c : ascii) : is_alpha c = true -> is_space c = false.
Proof.
  destruct c as [[] [] [] [] [] [] [] []]; try discriminate; reflexivity.
Qed.

Lemma taken_three (a b c : ascii) (s : string) :
  taken (String a (String b (String c s))) s
  = String a (String b (String c "")).
Proof. exact (taken_append (String a (String b (String c ""))) s). Qed.

Section Letters.
Context {A : Type}.
Variables (prev : option ascii) (rest : string) (g : caps).
Variable k : option ascii -> string -> caps -> option A.

(** [%d] and [%m] do not start on a letter. *)
Lemma exec_day_letter (c : ascii) :
  is_alpha c = true -> exec re_d prev (String c rest) g k = None.
Proof.
  destruct c as [[] [] [] [] [] [] [] []]; try discriminate; reflexivity.
Qed.

Lemma exec_month_letter (c : ascii) :
  is_alpha c = true -> exec re_m prev (String c rest) g k = None.
Proof.
  destruct c as [[] [] [] [] [] [] [] []]; try discriminate; reflexivity.
Qed.

End Letters.

(** What is used of the name of a month: three letters, found by [%b]
    at its place in the list of names. *)
Lemma abbr_cases (m : Z) :
  1 <= m <= 12 ->
  exists a b c,
    abbr_of m = String a (String b (String c "")) /\
    is_alpha a = true /\ is_alpha b = true /\ is_alpha c = true /\
    Ascii.eqb a "n" = false /\
    index_of (abbr_of m) a_month 1 = Some m /\
    forall (A : Type) prev rest g
           (k : option ascii -> string -> caps -> option A) x,
      k (Some c) rest ((g_b, abbr_of m) :: g) = Some x ->
      exec re_b prev (String a (String b (String c rest))) g k = Some x.
Proof.
  intros Hm.
  replace m with (1 + Z.of_nat (Z.to_nat (m - 1))) by lia.
  assert (Hi : (Z.to_nat (m - 1) < 12)%nat) by lia.
  revert Hi. generalize (Z.to_nat (m - 1)). intros i Hi.
  do 12 (destruct i as [|i];
         [do 3 eexists; split; [reflexivity|];
          do 5 (split; [reflexivity|]);
          intros A prev rest g k x H;
          match type of H with
          | context [abbr_of ?t] =>
              let v := eval vm_compute in (abbr_of t) in
              change (abbr_of t) with v in H
          end;
          unfold re_b; simpl; rewrite ?taken_three, H; reflexivity|]).
  lia.
Qed.

(** [\s+] replaced by a space, step by step. *)
Lemma sub_spaces_char (c : ascii) (s : string) (prev : option ascii) :
  is_space c = false ->
  sub_from re_spaces (fun _ => " "%string) prev 0 (String c s)
  = String c (sub_from re_spaces (fun _ => " "%string) (Some c) 0 s).
Proof.
  intros H. cbn [sub_from]. unfold match_at, re_spaces, Many1. cbn [exec].
  now rewrite H.
Qed.

Lemma sub_spaces_one (c : ascii) (s : string) (prev : option ascii) :
  is_space c = false ->
  sub_from re_spaces (fun _ => " "%string) prev 0 (String " " (String c s))
  = String " "
      (sub_from re_spaces (fun _ => " "%string) (Some " "%char) 0
                (String c s)).
Proof.
  intros H. cbn [sub_from]. unfold match_at, re_spaces, Many1. cbn [exec].
  change (is_space " ") with true. cbv iota. rewrite H.
  cbn [m_text]. rewrite Canonical.taken_one. reflexivity.
Qed.

Lemma sub_spaces_two (c : ascii) (s : string) (prev : option ascii) :
  is_space c = false ->
  sub_from re_spaces (fun _ => " "%string) prev 0
           (String " " (String " " (String c s)))
  = String " "
      (sub_from re_spaces (fun _ => " "%string) (Some " "%char) 0
                (String c s)).
Proof.
  intros H. cbn [sub_from]. unfold match_at, re_spaces, Many1. cbn [exec].
  change (is_space " ") with true. cbv iota. rewrite H.
  cbn [m_text]. rewrite Canonical.taken_two. reflexivity.
Qed.

(** The text [Mon dd, yyyy] and its repaired form, character by
    character. *)
Definition named_text (a b c d1 d2 : ascii) (sep : string)
    (y1 y2 y3 y4 : ascii) : string :=
  String a (String b (String c (String " " (String d1 (String d2
    (sep ++ String y1 (String y2 (String y3 (String y4 EmptyString))))))))).

Lemma clean_date_named (a b c d1 d2 y1 y2 y3 y4 : ascii) :
  is_alpha a = true -> is_alpha b = true -> is_alpha c = true ->
  is_digit d1 = true -> is_digit d2 = true ->
  is_digit y1 = true -> is_digit y2 = true ->
  is_digit y3 = true -> is_digit y4 = true ->
  clean_date (named_text a b c d1 d2 ", " y1 y2 y3 y4)
  = named_text a b c d1 d2 " " y1 y2 y3 y4.
Proof.
  intros Ha Hb Hc Hd1 Hd2 Hy1 Hy2 Hy3 Hy4.
  pose proof (alpha_not_apostrophe _ Ha) as Aa.
  pose proof (alpha_not_apostrophe _ Hb) as Ab.
  pose proof (alpha_not_apostrophe _ Hc) as Ac.
  pose proof (Canonical.digit_not_apostrophe _ Hd1) as Ad1.
  pose proof (Canonical.digit_not_apostrophe _ Hd2) as Ad2.
  pose proof (Canonical.digit_not_apostrophe _ Hy1) as Ay1.
  pose proof (Canonical.digit_not_apostrophe _ Hy2) as Ay2.
  pose proof (Canonical.digit_not_apostrophe _ Hy3) as Ay3.
  pose proof (Canonical.digit_not_apostrophe _ Hy4) as Ay4.
  pose proof (alpha_not_is_space _ Ha) as Sa.
  pose proof (alpha_not_is_space _ Hb) as Sb.
  pose proof (alpha_not_is_space _ Hc) as Sc.
  pose proof (Canonical.digit_not_is_space _ Hd1) as Sd1.
  pose proof (Canonical.digit_not_is_space _ Hd2) as Sd2.
  pose proof (Canonical.digit_not_is_space _ Hy1) as Sy1.
  pose proof (Canonical.digit_not_is_space _ Hy2) as Sy2.
  pose proof (Canonical.digit_not_is_space _ Hy3) as Sy3.
  pose proof (Canonical.digit_not_is_space _ Hy4) as Sy4.
  pose proof (alpha_is_word _ Ha) as Wa.
  pose proof (alpha_is_word _ Hb) as Wb.
  pose proof (alpha_is_word _ Hc) as Wc.
  pose proof (Canonical.digit_is_word _ Hd1) as Wd1.
  pose proof (Canonical.digit_is_word _ Hd2) as Wd2.
  pose proof (Canonical.digit_is_word _ Hy1) as Wy1.
  pose proof (Canonical.digit_is_word _ Hy2) as Wy2.
  pose proof (Canonical.digit_is_word _ Hy3) as Wy3.
  pose proof (Canonical.digit_is_word _ Hy4) as Wy4.
  unfold clean_date, sub.
  assert (Hplain : Canonical.plain (named_text a b c d1 d2 ", " y1 y2 y3 y4)
                   = true).
  { unfold Canonical.plain, named_text. cbn [append all_char].
    rewrite Aa, Ab, Ac, Ad1, Ad2, Ay1, Ay2, Ay3, Ay4. reflexivity. }
  rewrite (Canonical.sub_apostrophe_plain _ _ Hplain).
  rewrite (Canonical.replace_apostrophe_plain _ _ Hplain).
  unfold re_punctuation.
  change (fun _ : rmatch => " "%string) with (fun _ : rmatch => String " " "").
  rewrite Canonical.sub_class.
  assert (Hmap : Canonical.map_class
                   (fun c => negb (is_word c || is_space c)) " "
                   (named_text a b c d1 d2 ", " y1 y2 y3 y4)
                 = named_text a b c d1 d2 "  " y1 y2 y3 y4).
  { unfold named_text. cbn [append Canonical.map_class].
    rewrite Wa, Wb, Wc, Wd1, Wd2, Wy1, Wy2, Wy3, Wy4. reflexivity. }
  rewrite Hmap.
  assert (Hsp : sub_from re_spaces (fun _ => String " " "") None 0
                  (named_text a b c d1 d2 "  " y1 y2 y3 y4)
                = named_text a b c d1 d2 " " y1 y2 y3 y4).
  { unfold named_text. cbn [append].
    rewrite !sub_spaces_char by assumption.
    rewrite sub_spaces_one by assumption.
    rewrite !sub_spaces_char by assumption.
    rewrite sub_spaces_two by assumption.
    rewrite !sub_spaces_char by assumption.
    reflexivity. }
  rewrite Hsp.
  unfold strip, named_text. cbn [append lstrip]. rewrite Sa.
  exact (Canonical.rstrip_last
           (String a (String b (String c (String " " (String d1 (String d2
              (String " " (String y1 (String y2 (String y3 ""))))))))))
           y4 Sy4).
Qed.

Ltac digit_side :=
  first [ apply digit_char_is_digit
        | apply Canonical.digit_not_is_space, digit_char_is_digit ].

(** A text that starts with a letter parses by none of the four
    numeric formats. *)
Lemma format_mdy :
  format_regex "%m %d %y"
  = Some (Seq re_m (Seq (Many1 is_space)
            (Seq re_d (Seq (Many1 is_space) (Seq re_y Eps))))).
Proof. reflexivity. Qed.

Lemma strptime_numeric_letter (a : ascii) (s fmt : string) :
  is_alpha a = true ->
  In fmt ["%d %m %Y"; "%d %m %y"; "%m %d %Y"; "%m %d %y"]%string ->
  strptime (String a s) fmt = None.
Proof.
  intros Ha Hf. unfold strptime.
  destruct Hf as [<- | [<- | [<- | [<- | []]]]].
  - rewrite Canonical.format_dmY. unfold match_at. cbn [exec].
    now rewrite exec_day_letter.
  - rewrite Formats.format_dmy. unfold match_at. cbn [exec].
    now rewrite exec_day_letter.
  - rewrite Formats.format_mdY. unfold match_at. cbn [exec].
    now rewrite exec_month_letter.
  - rewrite format_mdy. unfold match_at. cbn [exec].
    now rewrite exec_month_letter.
Qed.

Lemma format_bdY :
  format_regex "%b %d %Y"
  = Some (Seq re_b (Seq (Many1 is_space)
            (Seq re_d (Seq (Many1 is_space) (Seq re_Y Eps))))).
Proof. reflexivity. Qed.

(** The fields read off the groups of the fifth format. *)
Lemma fields_named (y dd nm : string) :
  fields_of [(g_Y, y); (g_d, dd); (g_b, nm)]
  = match index_of nm a_month 1 with
    | Some m =>
        Some {| year := int_of_text y; month := m; day := int_of_text dd |}
    | None => None
    end.
Proof. reflexivity. Qed.

(** Three letters that the pattern of the name accepts, a day and a
    year match a format made of a name, a day and a four-digit year. *)
Lemma match_named (name : re) (a b c : ascii) (nm : string) (dd y : Z) :
  (forall (A : Type) prev rest g
          (k : option ascii -> string -> caps -> option A) x,
     k (Some c) rest ((g_b, nm) :: g) = Some x ->
     exec name prev (String a (String b (String c rest))) g k = Some x) ->
  1 <= dd <= 31 ->
  exists tk,
    match_at
      (Seq name (Seq (Many1 is_space)
         (Seq re_d (Seq (Many1 is_space) (Seq re_Y Eps)))))
      None
      (String a (String b (String c (" " ++ pad2 dd ++ " " ++ pad4 y))))
    = Some {| m_text := tk;
              m_caps := [(g_Y, pad4 y); (g_d, pad2 dd); (g_b, nm)];
              m_rest := "" |}.
Proof.
  intros Hexec Hd.
  set (text := String a (String b (String c
                 (" " ++ pad2 dd ++ " " ++ pad4 y)%string))).
  exists (taken text ""). unfold match_at.
  generalize (taken text) as tk. intros tk. subst text.
  unfold pad4, pad2. cbn [append]. cbn [exec].
  apply Hexec.
  rewrite Canonical.exec_one_space by digit_side.
  apply Canonical.exec_day; [exact Hd|]. cbv beta.
  rewrite Canonical.exec_one_space by digit_side.
  rewrite Canonical.exec_year by apply digit_char_is_digit.
  reflexivity.
Qed.

(** The name of the month, the day and the year parse by the fifth
    format. *)
Lemma strptime_named (d : datetime) :
  valid d = true ->
  strptime (abbr_of (month d) ++ " " ++ pad2 (day d) ++ " "
            ++ pad4 (year d))
           "%b %d %Y" = Some d.
Proof.
  intros Hv. destruct (Canonical.valid_ranges d Hv) as (Hy & Hm & Hd).
  destruct (abbr_cases (month d) Hm)
    as (a & b & c & Eab & _ & _ & _ & _ & Hidx & Hexec).
  unfold strptime. rewrite format_bdY.
  destruct (match_named re_b a b c (abbr_of (month d)) (day d) (year d)
              Hexec Hd)
    as (tk & Hmatch).
  rewrite Eab at 1.
  change (String a (String b (String c "")) ++ " " ++ pad2 (day d) ++ " "
          ++ pad4 (year d))%string
    with (String a (String b (String c
            (" " ++ pad2 (day d) ++ " " ++ pad4 (year d))%string))).
  rewrite Hmatch. cbn [m_rest m_caps].
  rewrite fields_named, Hidx.
  rewrite Canonical.int_of_text_pad4, !Canonical.int_of_text_pad2 by lia.
  destruct d as [y m dd]. cbn [year month day] in *. now rewrite Hv.
Qed.

(** A text that starts with the name of a month parses by none of the
    four numeric formats. *)
Lemma strptime_numeric_named (m : Z) (rest fmt : string) :
  1 <= m <= 12 ->
  In fmt ["%d %m %Y"; "%d %m %y"; "%m %d %Y"; "%m %d %y"]%string ->
  strptime (abbr_of m ++ rest) fmt = None.
Proof.
  intros Hm Hf.
  destruct (abbr_cases m Hm) as (a & b & c & Eab & Ha & _).
  rewrite Eab.
  exact (strptime_numeric_letter a
           (String b (String c "") ++ rest)%string fmt Ha Hf).
Qed.

(** The repair of the text with the comma. *)
Lemma clean_date_month_name (d : datetime) :
  valid d = true ->
  clean_date (abbr_of (month d) ++ " " ++ pad2 (day d) ++ ", "
              ++ pad4 (year d))
  = (abbr_of (month d) ++ " " ++ pad2 (day d) ++ " "
     ++ pad4 (year d))%string.
Proof.
  intros Hv. destruct (Canonical.valid_ranges d Hv) as (Hy & Hm & Hd).
  destruct (abbr_cases (month d) Hm)
    as (a & b & c & Eab & Ha & Hb & Hc & _).
  rewrite Eab.
  exact (clean_date_named a b c
           (digit_char (day d / 10)) (digit_char (day d))
           (digit_char (year d / 1000)) (digit_char (year d / 100))
           (digit_char (year d / 10)) (digit_char (year d))
           Ha Hb Hc
           (digit_char_is_digit _) (digit_char_is_digit _)
           (digit_char_is_digit _) (digit_char_is_digit _)
           (digit_char_is_digit _) (digit_char_is_digit _)).
Qed.

(** The text is neither empty nor the sentinel. *)
Lemma month_name_guard (m : Z) (rest : string) :
  1 <= m <= 12 ->
  String.eqb (abbr_of m ++ rest) "" || String.eqb (abbr_of m ++ rest) "null"
  = false.
Proof.
  intros Hm. destruct (abbr_cases m Hm) as (a & b & c & Eab & _ & _ & _ & Hn & _).
  rewrite Eab. cbn [append String.eqb]. now rewrite Hn.
Qed.

End MonthNames.

(** X17. A calendar date written with the abbreviated name of the month,
    [Mon dd, yyyy], is normalized to day, month and year in figures, the
    year as [strftime] writes it (without its leading zeros when it is
    below 1000): the four numeric formats reject a text that starts
    with a letter and the format of the abbreviated month reads it. *)
Theorem normalize_date_month_name (d : datetime) (lg : lang) :
  valid d = true ->
  normalize_date (MonthNames.abbr_of (month d) ++ " " ++ pad2 (day d)
                  ++ ", " ++ pad4 (year d)) lg
  = strftime_dmY d.
Proof.
  intros Hv. destruct (Canonical.valid_ranges d Hv) as (Hy & Hm & Hd).
  unfold normalize_date.
  rewrite (MonthNames.month_name_guard (month d) _ Hm).
  rewrite (MonthNames.clean_date_month_name d Hv).
  unfold formats. cbn [first_parse].
  rewrite !(MonthNames.strptime_numeric_named (month d) _ _ Hm)
    by (cbn [In]; auto 6).
  now rewrite (MonthNames.strptime_named d Hv).
Qed.

Definition dec_25_2024 : datetime := {| year := 2024; month := 12; day := 25 |}.

Lemma normalize_date_month_name_witness :
  valid dec_25_2024 = true /\
  normalize_date "Dec 25, 2024" EN = "25/12/2024".
Proof.
  assert (Hv : valid dec_25_2024 = true) by reflexivity.
  split; [exact Hv | exact (normalize_date_month_name dec_25_2024 EN Hv)].
Defined.
